(** * dtvc-inventory: the spreadsheet import reconciliation engine

    A shallow embedding of [src/app/api/inventory/import/route.ts] (the
    [POST] handler that merges the rows of an uploaded sheet into the
    inventory store) together with the JSON endpoints of the inventory
    ([GET], [POST] and [DELETE /api/inventory], [PUT] and
    [DELETE /api/inventory/:id]) and the functions of the inventory page
    [src/app/page.tsx] that filter, sort, page, select and export the
    records and edit a quantity in place.

    Conventions of the embedding.
    - A JavaScript string is a [string]; each [ascii] stands for one code
      unit below 256 (Latin-1).  [toLowerCase] and [trim] are the
      ECMAScript functions restricted to that range.
    - A JavaScript number is a [number]: [NaN], a signed [Infinity], or a
      decimal [Dec m e] standing for [m * 10^e].  A number that is read
      from a text or written as a text is named by its decimal literal.
      Arithmetic is binary64: [JsArith.sub] and [JsArith.mul] take the
      binary64 numbers nearest to their operands and round the result to
      the nearest binary64 number, which is written as an exact decimal.
      The sign of zero is not represented (the handler never observes
      it).
    - The store keeps the columns of the [InventoryItem] table except the
      store-managed [createdAt] and [updatedAt] timestamps.
    - The Prisma client and the database are not part of the repository.
      What the store refuses is a parameter ([StoreFaults],
      [QueryFaults]); a refused call throws and writes nothing.  The JSON
      endpoints hand values of the request body to the client unchecked:
      what the client does with a value that is not of the type of its
      column (it rejects it, writes it, or writes it and throws
      afterwards) is a parameter too ([Client]). *)

From Stdlib Require Import ZArith List String Ascii Bool Lia.
From Stdlib Require Import Permutation Sorted.
From Stdlib Require Import DecimalString.
From Stdlib Require DecimalFacts DecimalN.
Import ListNotations.

Local Open Scope string_scope.
Local Open Scope Z_scope.

(** ** JavaScript strings *)

Module JsString.

Definition code (c : ascii) : Z := Z.of_N (N_of_ascii c).

(** WhiteSpace and LineTerminator code units below 256:
    TAB, LF, VT, FF, CR, SP and NBSP. *)
Definition is_space (c : ascii) : bool :=
  let n := code c in
  ((9 <=? n) && (n <=? 13)) || (n =? 32) || (n =? 160).

Definition is_upper (c : ascii) : bool :=
  let n := code c in
  ((65 <=? n) && (n <=? 90))
  || ((192 <=? n) && (n <=? 222) && negb (n =? 215)).

Definition lower_char (c : ascii) : ascii :=
  if is_upper c then ascii_of_N (Z.to_N (code c + 32)) else c.

Fixpoint toLowerCase (s : string) : string :=
  match s with
  | EmptyString => EmptyString
  | String c r => String (lower_char c) (toLowerCase r)
  end.

Fixpoint trimStart (s : string) : string :=
  match s with
  | EmptyString => EmptyString
  | String c r => if is_space c then trimStart r else s
  end.

Fixpoint all_space (s : string) : bool :=
  match s with
  | EmptyString => true
  | String c r => is_space c && all_space r
  end.

Fixpoint trimEnd (s : string) : string :=
  match s with
  | EmptyString => EmptyString
  | String c r => if all_space s then EmptyString else String c (trimEnd r)
  end.

Definition trim (s : string) : string := trimEnd (trimStart s).

Definition is_empty (s : string) : bool :=
  match s with EmptyString => true | _ => false end.

(** [s.startsWith(p)] with the remainder of [s] on success. *)
Fixpoint strip_prefix (p s : string) : option string :=
  match p, s with
  | EmptyString, _ => Some s
  | String a p', String b s' =>
      if Ascii.eqb a b then strip_prefix p' s' else None
  | String _ _, EmptyString => None
  end.

Fixpoint repeat_char (c : ascii) (n : nat) : string :=
  match n with
  | O => EmptyString
  | S k => String c (repeat_char c k)
  end.

Fixpoint take (n : nat) (s : string) : string :=
  match n, s with
  | S k, String c r => String c (take k r)
  | _, _ => EmptyString
  end.

Fixpoint drop (n : nat) (s : string) : string :=
  match n, s with
  | S k, String _ r => drop k r
  | _, _ => s
  end.

End JsString.

(** ** JavaScript numbers *)

Inductive number : Type :=
| NaN
| Infinity (negative : bool)
| Dec (m : Z) (e : Z).

Module JsNumber.
Import JsString.

Definition zero : number := Dec 0 0.
Definition of_Z (z : Z) : number := Dec z 0.

(** ToBoolean on a number: [NaN] and zero are falsy. *)
Definition truthy (x : number) : bool :=
  match x with
  | NaN => false
  | Infinity _ => true
  | Dec m _ => negb (m =? 0)
  end.

Definition isNaN (x : number) : bool :=
  match x with NaN => true | _ => false end.

Definition pow10 (k : Z) : Z := 10 ^ k.

(** [x || 0] *)
Definition or_zero (x : number) : number :=
  if truthy x then x else zero.

(** *** Digits *)

Definition digit_val (c : ascii) : option Z :=
  let n := code c in
  if (48 <=? n) && (n <=? 57) then Some (n - 48) else None.

Definition hex_val (c : ascii) : option Z :=
  let n := code c in
  if (48 <=? n) && (n <=? 57) then Some (n - 48)
  else if (97 <=? n) && (n <=? 102) then Some (n - 87)
  else if (65 <=? n) && (n <=? 70) then Some (n - 55)
  else None.

(** The longest prefix of digits (read by [dv]) and what follows it. *)
Fixpoint span_digits (dv : ascii -> option Z) (s : string)
  : list Z * string :=
  match s with
  | EmptyString => ([], EmptyString)
  | String c r =>
      match dv c with
      | Some d => let '(ds, rest) := span_digits dv r in (d :: ds, rest)
      | None => ([], s)
      end
  end.

Definition digits_value (radix : Z) (ds : list Z) : Z :=
  fold_left (fun acc d => radix * acc + d) ds 0.

(** An optional sign: [true] when a minus sign was read. *)
Definition read_sign (s : string) : bool * string :=
  match s with
  | String "-" r => (true, r)
  | String "+" r => (false, r)
  | _ => (false, s)
  end.

Definition signed (neg : bool) (z : Z) : Z := if neg then - z else z.

(** The number of zeros at the end of a digit list and the list without
    them. *)
Fixpoint strip_zeros_rev (ds : list Z) (n : Z) : list Z * Z :=
  match ds with
  | 0 :: r => strip_zeros_rev r (n + 1)
  | _ => (ds, n)
  end.

Definition strip_trailing_zeros (ds : list Z) : list Z * Z :=
  let '(r, n) := strip_zeros_rev (List.rev ds) 0 in (List.rev r, n).

(** The canonical decimal with the digits [ds] scaled by [10^e]. *)
Definition mkDec (neg : bool) (ds : list Z) (e : Z) : number :=
  let '(ds', n) := strip_trailing_zeros ds in
  let m := digits_value 10 ds' in
  if m =? 0 then zero else Dec (signed neg m) (e + n).

(** *** parseInt(string) with no radix argument *)

Definition parseInt (input : string) : option Z :=
  let s := trimStart input in
  let '(neg, s1) := read_sign s in
  let '(radix, s2, dv) :=
    match strip_prefix "0x" s1, strip_prefix "0X" s1 with
    | Some r, _ => (16, r, hex_val)
    | None, Some r => (16, r, hex_val)
    | None, None => (10, s1, digit_val)
    end in
  match span_digits dv s2 with
  | ([], _) => None
  | (ds, _) => Some (signed neg (digits_value radix ds))
  end.

(** *** parseFloat(string) *)

(** An ExponentPart at the head of [s], if there is one. *)
Definition read_exponent (s : string) : Z * string :=
  match s with
  | String c r =>
      if (Ascii.eqb c "e" || Ascii.eqb c "E")%bool then
        let '(neg, r1) := read_sign r in
        match span_digits digit_val r1 with
        | ([], _) => (0, s)
        | (ds, rest) => (signed neg (digits_value 10 ds), rest)
        end
      else (0, s)
  | EmptyString => (0, s)
  end.

(** The longest prefix that is a StrUnsignedDecimalLiteral other than
    [Infinity], with what follows it. *)
Definition read_unsigned_decimal (neg : bool) (s : string)
  : option (number * string) :=
  let '(ip, s1) := span_digits digit_val s in
  let '(fp, s2) :=
    match s1 with
    | String "." r =>
        let '(fp, r') := span_digits digit_val r in
        match ip, fp with
        | [], [] => ([], s1)
        | _, _ => (fp, r')
        end
    | _ => ([], s1)
    end in
  match ip, fp with
  | [], [] => None
  | _, _ =>
      let '(ex, rest) := read_exponent s2 in
      Some (mkDec neg (ip ++ fp)%list (ex - Z.of_nat (List.length fp)), rest)
  end.

Definition read_decimal_literal (s : string) : option (number * string) :=
  let '(neg, s1) := read_sign s in
  match strip_prefix "Infinity" s1 with
  | Some rest => Some (Infinity neg, rest)
  | None => read_unsigned_decimal neg s1
  end.

Definition parseFloat (input : string) : number :=
  match read_decimal_literal (trimStart input) with
  | Some (x, _) => x
  | None => NaN
  end.

(** *** Number::toString *)

Definition string_of_nat_Z (z : Z) : string :=
  NilZero.string_of_uint (N.to_uint (Z.to_N z)).

Definition digit_char (d : Z) : ascii := ascii_of_N (Z.to_N (d + 48)).

Fixpoint string_of_digits (ds : list Z) : string :=
  match ds with
  | [] => EmptyString
  | d :: r => String (digit_char d) (string_of_digits r)
  end.

Fixpoint digits_of_string (s : string) : list Z :=
  match s with
  | EmptyString => []
  | String c r =>
      match digit_val c with
      | Some d => d :: digits_of_string r
      | None => []
      end
  end.

Definition toString (x : number) : string :=
  match x with
  | NaN => "NaN"
  | Infinity neg => if neg then "-Infinity" else "Infinity"
  | Dec m e =>
      if m =? 0 then "0"
      else
        let all := digits_of_string (string_of_nat_Z (Z.abs m)) in
        let '(ds, _) := strip_trailing_zeros all in
        let s := string_of_digits ds in
        let k := Z.of_nat (List.length ds) in
        let n := e + Z.of_nat (List.length all) in
        let body :=
          if (k <=? n) && (n <=? 21) then
            s ++ repeat_char "0" (Z.to_nat (n - k))
          else if (0 <? n) && (n <=? 21) then
            take (Z.to_nat n) s ++ "." ++ drop (Z.to_nat n) s
          else if (-6 <? n) && (n <=? 0) then
            "0." ++ repeat_char "0" (Z.to_nat (- n)) ++ s
          else
            let ex := n - 1 in
            let sign := if ex <? 0 then "-" else "+" in
            let mant :=
              if k =? 1 then s else take 1 s ++ "." ++ drop 1 s in
            mant ++ "e" ++ sign ++ string_of_nat_Z (Z.abs ex)
        in
        if m <? 0 then "-" ++ body else body
  end.

End JsNumber.

Module JsArith.
Import JsNumber.

(** *** binary64 *)

(** The fraction [p / (q * 2^t)] as a pair of integers. *)
Definition scaled (p q t : Z) : Z * Z :=
  if 0 <=? t then (p, q * 2 ^ t) else (p * 2 ^ (- t), q).

(** The binary64 number nearest to the fraction [p / q] of two positive
    integers, ties to the even significand: [Some (M, t)] stands for
    [M * 2^t], where [t] is the exponent of the last place of the
    significand (never below that of the subnormal numbers), and [None]
    for a number too large for binary64. *)
Definition nearest (p q : Z) : option (Z * Z) :=
  let t0 := Z.log2 p - Z.log2 q - 52 in
  let '(n0, d0) := scaled p q t0 in
  let t1 := if n0 / d0 <? 2 ^ 52 then t0 - 1 else t0 in
  let t := Z.max t1 (-1074) in
  let '(n, d) := scaled p q t in
  let quo := n / d in
  let rem := n mod d in
  let M :=
    if 2 * rem <? d then quo
    else if d <? 2 * rem then quo + 1
    else if Z.even quo then quo
    else quo + 1 in
  if (0 <=? t) && (2 ^ 1024 <=? M * 2 ^ t) then None else Some (M, t).

(** [M * 2^t] with its sign as a decimal: an integer with the exponent 0,
    anything else with the exponent [t]. *)
Definition to_decimal (neg : bool) (M t : Z) : number :=
  if 0 <=? t then Dec (signed neg (M * 2 ^ t)) 0
  else if M mod 2 ^ (- t) =? 0 then Dec (signed neg (M / 2 ^ (- t))) 0
  else Dec (signed neg (M * 5 ^ (- t))) t.

(** The binary64 number a decimal stands for in the program. *)
Definition binary64 (x : number) : number :=
  match x with
  | Dec m e =>
      if m =? 0 then Dec 0 0
      else
        let '(p, q) :=
          if 0 <=? e then (Z.abs m * pow10 e, 1)
          else (Z.abs m, pow10 (- e)) in
        match nearest p q with
        | Some (M, t) => to_decimal (m <? 0) M t
        | None => Infinity (m <? 0)
        end
  | _ => x
  end.

(** The exact difference and product. *)
Definition minus (x y : number) : number :=
  match x, y with
  | NaN, _ | _, NaN => NaN
  | Infinity a, Infinity b => if Bool.eqb a b then NaN else Infinity a
  | Infinity a, Dec _ _ => Infinity a
  | Dec _ _, Infinity b => Infinity (negb b)
  | Dec m1 e1, Dec m2 e2 =>
      let e := Z.min e1 e2 in
      Dec (m1 * pow10 (e1 - e) - m2 * pow10 (e2 - e)) e
  end.

Definition times (x y : number) : number :=
  match x, y with
  | NaN, _ | _, NaN => NaN
  | Infinity a, Infinity b => Infinity (xorb a b)
  | Infinity a, Dec m _ | Dec m _, Infinity a =>
      if m =? 0 then NaN else Infinity (xorb a (m <? 0))
  | Dec m1 e1, Dec m2 e2 => Dec (m1 * m2) (e1 + e2)
  end.

(** [x - y] *)
Definition sub (x y : number) : number :=
  binary64 (minus (binary64 x) (binary64 y)).

(** [x * y] *)
Definition mul (x y : number) : number :=
  binary64 (times (binary64 x) (binary64 y)).

(** [Math.round(x)]: the integer nearest to [x], ties towards
    +Infinity. *)
Definition Math_round (x : number) : number :=
  match x with
  | Dec m e =>
      if 0 <=? e then Dec (m * pow10 e) 0
      else let p := pow10 (- e) in Dec ((2 * m + p) / (2 * p)) 0
  | _ => x
  end.

(** A number beyond [B]: infinite, or an integer of absolute value at
    least [B]. *)
Definition beyond (B : Z) (x : number) : Prop :=
  match x with
  | NaN => False
  | Infinity _ => True
  | Dec z e => e = 0 /\ B <= Z.abs z
  end.

End JsArith.

(** ** Dates *)

(** A [Date] object: a time value in milliseconds since 1970-01-01T00:00Z,
    or the invalid date (whose [getTime()] is [NaN]). *)
Inductive JsDate : Type :=
| DateMs (t : Z)
| InvalidDate.

Module JsDateOps.
Import JsNumber.

Definition max_time : Z := 8640000000000000.

(** TimeClip *)
Definition time_clip (t : Z) : JsDate :=
  if Z.abs t <=? max_time then DateMs t else InvalidDate.

(** [new Date(v)] for a number [v]. *)
Definition of_number (v : number) : JsDate :=
  match v with
  | Dec m e =>
      time_clip (if 0 <=? e then m * pow10 e else Z.quot m (pow10 (- e)))
  | _ => InvalidDate
  end.

End JsDateOps.

(** ** Cells and rows of the parsed sheet *)

(** [string | number]; [undefined] is [None] of [value]. *)
Inductive cell : Type :=
| CStr (s : string)
| CNum (n : number).

Definition value : Type := option cell.

(** [interface ExcelRow { [key: string]: string | number | undefined }]:
    the properties of the row object in [Object.keys] order. *)
Definition ExcelRow : Type := list (string * value).

Module JsValue.
Import JsString.

(** ToBoolean *)
Definition truthy (v : value) : bool :=
  match v with
  | None => false
  | Some (CStr s) => negb (is_empty s)
  | Some (CNum n) => JsNumber.truthy n
  end.

(** [String(v)] *)
Definition String_ (v : value) : string :=
  match v with
  | None => "undefined"
  | Some (CStr s) => s
  | Some (CNum n) => JsNumber.toString n
  end.

(** [Object.keys(row)] *)
Definition keys (row : ExcelRow) : list string := map fst row.

(** [row[k]] *)
Fixpoint get (row : ExcelRow) (k : string) : value :=
  match row with
  | [] => None
  | (k', v) :: rest => if String.eqb k' k then v else get rest k
  end.

(** ToBoolean on [string | undefined]. *)
Definition key_truthy (k : option string) : bool :=
  match k with
  | Some s => negb (is_empty s)
  | None => false
  end.

(** [a || b] on [string | undefined]. *)
Definition key_or (a b : option string) : option string :=
  if key_truthy a then a else b.

(** [a || ''] *)
Definition key_or_empty (a : option string) : string :=
  match key_or a (Some "") with
  | Some s => s
  | None => ""
  end.

End JsValue.

(** ** The inventory store *)

(** A row of the [InventoryItem] table (prisma/migrations/.../migration.sql).
    [unitType] and [expiryDate] are nullable; a stored date is its time
    value in milliseconds. *)
Record InventoryItem : Type := mkItem {
  id : Z;
  itemName : string;
  sellingPrice : number;
  currentQuantity : Z;
  unitType : option string;
  expiryDate : option Z;
  status : string
}.

(** The [data] argument of [prisma.inventoryItem.create]. *)
Record CreateData : Type := mkCreate {
  c_itemName : string;
  c_sellingPrice : number;
  c_currentQuantity : Z;
  c_unitType : option string;
  c_expiryDate : option Z;
  c_status : string
}.

(** The [data] argument of [prisma.inventoryItem.update]: a field that is
    [None] is left as it is. *)
Record UpdateData : Type := mkUpdate {
  u_itemName : option string;
  u_sellingPrice : option number;
  u_currentQuantity : option Z;
  u_unitType : option (option string);
  u_expiryDate : option (option Z);
  u_status : option string
}.

Record Store : Type := mkStore {
  items : list InventoryItem;
  nextId : Z
}.

Inductive Call : Type :=
| FindFirst (name : string)
| Create (d : CreateData)
| Update (key : Z) (d : UpdateData).

(** What the store does on its own account: [fault n s c] is the message
    of the exception the [n]-th call of the request raises when the store,
    in state [s], refuses the call [c] (connection lost, constraint
    violated, value out of range). *)
Class StoreFaults : Type := {
  fault : nat -> Store -> Call -> option string
}.

(** The store that never refuses a call. *)
Definition no_faults : StoreFaults := {| fault := fun _ _ _ => None |}.

(** What the host provides: [new Date(s)] for a string [s], whose accepted
    formats beyond ISO 8601 are implementation-defined. *)
Class Platform : Type := {
  Date_of_string : string -> JsDate
}.

Module Prisma.

Definition new_item (key : Z) (d : CreateData) : InventoryItem :=
  {| id := key;
     itemName := c_itemName d;
     sellingPrice := c_sellingPrice d;
     currentQuantity := c_currentQuantity d;
     unitType := c_unitType d;
     expiryDate := c_expiryDate d;
     status := c_status d |}.

Definition set_field {A : Type} (new : option A) (old : A) : A :=
  match new with Some a => a | None => old end.

Definition apply_update (d : UpdateData) (it : InventoryItem)
  : InventoryItem :=
  {| id := id it;
     itemName := set_field (u_itemName d) (itemName it);
     sellingPrice := set_field (u_sellingPrice d) (sellingPrice it);
     currentQuantity := set_field (u_currentQuantity d) (currentQuantity it);
     unitType := set_field (u_unitType d) (unitType it);
     expiryDate := set_field (u_expiryDate d) (expiryDate it);
     status := set_field (u_status d) (status it) |}.

(** [findFirst({ where: { itemName } })]: the first matching record in
    store order. *)
Definition find_by_name (name : string) (s : Store) : option InventoryItem :=
  find (fun it => String.eqb (itemName it) name) (items s).

Definition find_by_id (key : Z) (s : Store) : option InventoryItem :=
  find (fun it => id it =? key) (items s).

Definition update_items (key : Z) (d : UpdateData)
  (l : list InventoryItem) : list InventoryItem :=
  map (fun it => if id it =? key then apply_update d it else it) l.

Definition insert (d : CreateData) (s : Store) : Store :=
  {| items := items s ++ [new_item (nextId s) d];
     nextId := nextId s + 1 |}.

Definition modify (key : Z) (d : UpdateData) (s : Store) : Store :=
  {| items := update_items key d (items s); nextId := nextId s |}.

End Prisma.

(** ** Request-scoped execution *)

(** The state a request runs in: the store and the number of store calls
    the request has made. *)
Record World : Type := mkWorld {
  store : Store;
  calls : nat
}.

Inductive Outcome (A : Type) : Type :=
| Ok (a : A)
| Throw (msg : string).
Arguments Ok {A} a.
Arguments Throw {A} msg.

Definition M (A : Type) : Type := World -> Outcome A * World.

Definition ret {A : Type} (a : A) : M A := fun w => (Ok a, w).

Definition bind {A B : Type} (c : M A) (k : A -> M B) : M B :=
  fun w =>
    match c w with
    | (Ok a, w') => k a w'
    | (Throw msg, w') => (Throw msg, w')
    end.

Notation "x <- c ;; k" := (bind c (fun x => k))
  (at level 61, c at next level, right associativity).

(** An awaited store call: refused by the store, or carried out by [run]. *)
Definition await `{StoreFaults} {A : Type} (c : Call)
  (run : Store -> Outcome A * Store) : M A :=
  fun w =>
    match fault (calls w) (store w) c with
    | Some msg => (Throw msg, {| store := store w; calls := S (calls w) |})
    | None =>
        let '(r, s') := run (store w) in
        (r, {| store := s'; calls := S (calls w) |})
    end.

Definition findFirst `{StoreFaults} (name : string)
  : M (option InventoryItem) :=
  await (FindFirst name) (fun s => (Ok (Prisma.find_by_name name s), s)).

Definition create `{StoreFaults} (d : CreateData) : M InventoryItem :=
  await (Create d)
    (fun s => (Ok (Prisma.new_item (nextId s) d), Prisma.insert d s)).

Definition update `{StoreFaults} (key : Z) (d : UpdateData)
  : M InventoryItem :=
  await (Update key d)
    (fun s =>
       match Prisma.find_by_id key s with
       | Some it => (Ok (Prisma.apply_update d it), Prisma.modify key d s)
       | None => (Throw "Record to update not found.", s)
       end).

(** ** The import route: what is read from one row *)

Module Parsed.
Import JsString JsNumber JsArith JsValue.

(** [const getKey = (key) => Object.keys(row).find(k =>
      k.toLowerCase().trim() === key.toLowerCase().trim())] *)
Definition getKey (row : ExcelRow) (key : string) : option string :=
  find (fun k => String.eqb (trim (toLowerCase k)) (trim (toLowerCase key)))
       (keys row).

Definition itemName (row : ExcelRow) : value :=
  get row (key_or_empty
             (key_or (getKey row "item name") (getKey row "itemname"))).

Definition sellingPriceRaw (row : ExcelRow) : value :=
  get row (key_or_empty
             (key_or (getKey row "selling price") (getKey row "price"))).

Definition currentQuantityRaw (row : ExcelRow) : value :=
  get row (key_or_empty
             (key_or (key_or (getKey row "current quantity")
                             (getKey row "current qty"))
                     (getKey row "quantity"))).

Definition unitType (row : ExcelRow) : value :=
  get row (key_or_empty
             (key_or (getKey row "unit type") (getKey row "unit"))).

Definition expiryDateRaw (row : ExcelRow) : value :=
  get row (key_or_empty
             (key_or (getKey row "expiry date") (getKey row "expiry"))).

Definition statusRaw (row : ExcelRow) : value :=
  get row (key_or_empty (getKey row "status")).

(** [parseFloat(String(sellingPriceRaw)) || 0] *)
Definition sellingPrice (row : ExcelRow) : number :=
  or_zero (parseFloat (String_ (sellingPriceRaw row))).

(** [parseInt(String(currentQuantityRaw)) || 0]; [parseInt] returns
    [NaN] (here [None]) or an integer. *)
Definition currentQuantity (row : ExcelRow) : Z :=
  match parseInt (String_ (currentQuantityRaw row)) with
  | Some z => z
  | None => 0
  end.

(** [String(statusRaw || 'not yet')] *)
Definition status (row : ExcelRow) : string :=
  String_ (if truthy (statusRaw row) then statusRaw row
           else Some (CStr "not yet")).

(** The serial-date conversion
    [new Date(Math.round((expiryDateRaw - 25569)*86400*1000))]. *)
Definition serial_date (serial : number) : JsDate :=
  JsDateOps.of_number
    (Math_round (mul (mul (sub serial (of_Z 25569)) (of_Z 86400))
                     (of_Z 1000))).

Definition expiryDate `{Platform} (row : ExcelRow) : option JsDate :=
  if truthy (expiryDateRaw row) then
    match expiryDateRaw row with
    | Some (CNum n) => Some (serial_date n)
    | raw => Some (Date_of_string (String_ raw))
    end
  else None.

End Parsed.

(** ** The import route: the handler *)

Module ImportRoute.
Import JsString JsValue.

(** [d && !isNaN(d.getTime()) ? d : otherwise] *)
Definition valid_or (d : option JsDate) (otherwise : option Z) : option Z :=
  match d with
  | Some (DateMs t) => Some t
  | Some InvalidDate => otherwise
  | None => otherwise
  end.

(** [s || ''] for a nullable column. *)
Definition or_empty (s : option string) : string :=
  match s with
  | Some x => if is_empty x then "" else x
  | None => ""
  end.

Definition update_data `{Platform} (row : ExcelRow)
  (existingItem : InventoryItem) : UpdateData :=
  let newQuantity :=
    if Parsed.currentQuantity row =? 0 then currentQuantity existingItem
    else Parsed.currentQuantity row in
  let newStatus :=
    if truthy (Parsed.statusRaw row) then String_ (Parsed.statusRaw row)
    else status existingItem in
  {| u_itemName := None;
     u_sellingPrice := Some (Parsed.sellingPrice row);
     u_currentQuantity := Some newQuantity;
     u_unitType :=
       Some (Some (if truthy (Parsed.unitType row)
                   then String_ (Parsed.unitType row)
                   else or_empty (unitType existingItem)));
     u_expiryDate :=
       Some (valid_or (Parsed.expiryDate row) (expiryDate existingItem));
     u_status := Some (toLowerCase newStatus) |}.

Definition create_data `{Platform} (row : ExcelRow) : CreateData :=
  {| c_itemName := String_ (Parsed.itemName row);
     c_sellingPrice := Parsed.sellingPrice row;
     c_currentQuantity := Parsed.currentQuantity row;
     c_unitType :=
       Some (if truthy (Parsed.unitType row) then String_ (Parsed.unitType row)
             else "");
     c_expiryDate := valid_or (Parsed.expiryDate row) None;
     c_status := toLowerCase (Parsed.status row) |}.

(** The body of [for (const row of jsonData)]; the result tells whether
    [count++] was reached. *)
Definition process_row `{StoreFaults} `{Platform} (row : ExcelRow)
  : M bool :=
  if negb (truthy (Parsed.itemName row)) then ret false
  else
    existingItem <- findFirst (String_ (Parsed.itemName row)) ;;
    match existingItem with
    | Some existingItem =>
        _ <- update (id existingItem) (update_data row existingItem) ;;
        ret true
    | None =>
        _ <- create (create_data row) ;;
        ret true
    end.

Fixpoint for_rows `{StoreFaults} `{Platform} (jsonData : list ExcelRow)
  (count : nat) : M nat :=
  match jsonData with
  | [] => ret count
  | row :: rest =>
      counted <- process_row row ;;
      for_rows rest (if counted then S count else count)
  end.

(** What reaches the handler: no file, a file the workbook reader
    rejects, or the rows of the first sheet. *)
Inductive Upload : Type :=
| NoFile
| Unreadable (msg : string)
| Sheet (jsonData : list ExcelRow).

Inductive Response : Type :=
| Processed (message : string) (count : nat)
| Failed (code : Z) (error : string).

Definition POST `{StoreFaults} `{Platform} (request : Upload)
  : World -> Response * World :=
  fun w =>
    match request with
    | NoFile => (Failed 400 "No file uploaded", w)
    | Unreadable msg => (Failed 500 ("Failed to import data: " ++ msg), w)
    | Sheet jsonData =>
        match for_rows jsonData 0 w with
        | (Ok count, w') =>
            (Processed ("Processed "
                        ++ JsNumber.string_of_nat_Z (Z.of_nat count)
                        ++ " items successfully") count, w')
        | (Throw msg, w') =>
            (Failed 500 ("Failed to import data: " ++ msg), w')
        end
    end.

End ImportRoute.

(** ** The JSON write endpoints *)

(** A field of a parsed JSON body as the endpoints read it; [JUndefined] is
    a field the body does not have.  Nested arrays and objects are not
    represented. *)
Inductive json : Type :=
| JUndefined
| JNull
| JBool (b : bool)
| JNum (n : number)
| JStr (s : string).

Record Body : Type := mkBody {
  b_itemName : json;
  b_sellingPrice : json;
  b_currentQuantity : json;
  b_unitType : json;
  b_expiryDate : json;
  b_status : json
}.

Module Json.
Import JsString JsNumber.

(** ToBoolean *)
Definition truthy (v : json) : bool :=
  match v with
  | JUndefined | JNull => false
  | JBool b => b
  | JNum n => JsNumber.truthy n
  | JStr s => negb (is_empty s)
  end.

(** ToString *)
Definition String_ (v : json) : string :=
  match v with
  | JUndefined => "undefined"
  | JNull => "null"
  | JBool b => if b then "true" else "false"
  | JNum n => toString n
  | JStr s => s
  end.

Definition is_binary (c : ascii) : option Z :=
  match digit_val c with
  | Some d => if d <? 2 then Some d else None
  | None => None
  end.

Definition is_octal (c : ascii) : option Z :=
  match digit_val c with
  | Some d => if d <? 8 then Some d else None
  | None => None
  end.

(** An integer literal in radix [r] that is all of [s]. *)
Definition radix_literal (r : Z) (dv : ascii -> option Z) (s : string)
  : number :=
  match span_digits dv s with
  | (d :: ds, EmptyString) => of_Z (digits_value r (d :: ds))
  | _ => NaN
  end.

(** StringToNumber *)
Definition StringToNumber (s : string) : number :=
  let t := trim s in
  if is_empty t then zero
  else
    match strip_prefix "0x" t, strip_prefix "0X" t,
          strip_prefix "0o" t, strip_prefix "0O" t,
          strip_prefix "0b" t, strip_prefix "0B" t with
    | Some r, _, _, _, _, _ | _, Some r, _, _, _, _ =>
        radix_literal 16 hex_val r
    | _, _, Some r, _, _, _ | _, _, _, Some r, _, _ =>
        radix_literal 8 is_octal r
    | _, _, _, _, Some r, _ | _, _, _, _, _, Some r =>
        radix_literal 2 is_binary r
    | None, None, None, None, None, None =>
        match read_decimal_literal t with
        | Some (x, EmptyString) => x
        | _ => NaN
        end
    end.

(** [Number(v)] *)
Definition Number (v : json) : number :=
  match v with
  | JUndefined => NaN
  | JNull => zero
  | JBool b => if b then of_Z 1 else zero
  | JNum n => n
  | JStr s => StringToNumber s
  end.

(** [new Date(v)] *)
Definition Date `{Platform} (v : json) : JsDate :=
  match v with
  | JStr s => Date_of_string s
  | other => JsDateOps.of_number (Number other)
  end.

End Json.

(** ** The store client of the JSON endpoints *)

(** The integer a number is, when it is one. *)
Module Validate.
Import JsNumber.

Definition int (x : number) : option Z :=
  match x with
  | Dec m e =>
      if 0 <=? e then Some (m * pow10 e)
      else if m mod pow10 (- e) =? 0 then Some (m / pow10 (- e))
      else None
  | _ => None
  end.

End Validate.

(** What the client does with one value of the [data] of a call: it
    rejects it, and the call throws with nothing written; or it writes a
    value of the column; or it writes a value and the call throws
    afterwards. *)
Inductive Column (A : Type) : Type :=
| Rejected
| Written (a : A)
| WrittenThenThrown (a : A).
Arguments Rejected {A}.
Arguments Written {A} a.
Arguments WrittenThenThrown {A} a.

(** The endpoints hand the values of the request body to the Prisma client
    unchecked, and the client and its database adapter are not part of the
    repository.  A value of the type of its column is written as it is: a
    text to a [String] column, a finite number to the [Float] column, an
    integer of the 32-bit range to the [Int] column, [null] to a nullable
    column, a valid date to the [DateTime] column.  What the client makes
    of any other value is a parameter. *)
Class Client : Type := {
  other_int : json -> Column Z;
  other_float : number -> Column number;
  other_text : json -> Column string;
  other_nullable_text : json -> Column (option string);
  invalid_date : Column (option Z)
}.

(** A client that rejects every value that is not of the type of its
    column. *)
Definition strict : Client :=
  {| other_int := fun _ => Rejected;
     other_float := fun _ => Rejected;
     other_text := fun _ => Rejected;
     other_nullable_text := fun _ => Rejected;
     invalid_date := Rejected |}.

Module Columns.

Definition map {A B : Type} (f : A -> B) (c : Column A) : Column B :=
  match c with
  | Rejected => Rejected
  | Written a => Written (f a)
  | WrittenThenThrown a => WrittenThenThrown (f a)
  end.

(** The values of two columns of one call: the call throws before it
    writes when the client rejects one of them, and after it has written
    when one of them makes it throw afterwards. *)
Definition both {A B : Type} (a : Column A) (b : Column B) : Column (A * B) :=
  match a, b with
  | Rejected, _ | _, Rejected => Rejected
  | Written x, Written y => Written (x, y)
  | Written x, WrittenThenThrown y
  | WrittenThenThrown x, Written y
  | WrittenThenThrown x, WrittenThenThrown y => WrittenThenThrown (x, y)
  end.

(** The call writes [a] to the column, whether or not it throws
    afterwards. *)
Definition stored {A : Type} (c : Column A) (a : A) : Prop :=
  c = Written a \/ c = WrittenThenThrown a.

Definition int32 (z : Z) : bool :=
  (-2147483648 <=? z) && (z <=? 2147483647).

(** The [Int] column [currentQuantity]. *)
Definition int `{Client} (x : number) : Column Z :=
  match Validate.int x with
  | Some z => if int32 z then Written z else other_int (JNum x)
  | None => other_int (JNum x)
  end.

(** A number that is finite as a binary64 number. *)
Definition finite (x : number) : bool :=
  match JsArith.binary64 x with
  | Dec _ _ => true
  | _ => false
  end.

(** The [Float] column [sellingPrice]. *)
Definition float `{Client} (x : number) : Column number :=
  if finite x then Written x else other_float (JsArith.binary64 x).

(** A [String] column. *)
Definition text `{Client} (v : json) : Column string :=
  match v with
  | JStr s => Written s
  | _ => other_text v
  end.

(** The [String?] column [unitType]. *)
Definition nullable_text `{Client} (v : json) : Column (option string) :=
  match v with
  | JStr s => Written (Some s)
  | JNull => Written None
  | _ => other_nullable_text v
  end.

(** The [DateTime?] column [expiryDate], for [null] or a [Date]. *)
Definition date `{Client} (d : option JsDate) : Column (option Z) :=
  match d with
  | None => Written None
  | Some (DateMs t) => Written (Some t)
  | Some InvalidDate => invalid_date
  end.

(** A field of the [data] of an update: an undefined field leaves the
    column as it is. *)
Definition optional `{Client} {A : Type} (column : json -> Column A) (v : json)
  : Column (option A) :=
  match v with
  | JUndefined => Written None
  | _ => map Some (column v)
  end.

(** An element of the array of an [in] filter on the key. *)
Definition key `{Client} (v : json) : Column Z :=
  match v with
  | JNum n =>
      match Validate.int n with
      | Some z => Written z
      | None => other_int v
      end
  | _ => other_int v
  end.

Fixpoint keys `{Client} (elements : list json) : Column (list Z) :=
  match elements with
  | [] => Written []
  | v :: rest => map (fun '(k, ks) => k :: ks) (both (key v) (keys rest))
  end.

End Columns.

(** A call that throws before the store is reached. *)
Definition thrown (w : World) : World :=
  {| store := store w; calls := S (calls w) |}.

Module ItemsRoute.

Inductive Response : Type :=
| Item (code : Z) (item : InventoryItem)
| Error (code : Z) (error : string).

(** [x || fallback] *)
Definition or_else (x : json) (fallback : string) : json :=
  if Json.truthy x then x else JStr fallback.

(** [expiryDate ? new Date(expiryDate) : null] *)
Definition date_or_null `{Platform} (x : json) : option JsDate :=
  if Json.truthy x then Some (Json.Date x) else None.

(** The [data] object of the create endpoint, field by field, as the
    client takes it. *)
Definition create_data `{Client} `{Platform} (body : Body)
  : Column CreateData :=
  Columns.map
    (fun '(name, (price, (qty, (unit, (expiry, st))))) =>
       {| c_itemName := name;
          c_sellingPrice := price;
          c_currentQuantity := qty;
          c_unitType := unit;
          c_expiryDate := expiry;
          c_status := st |})
    (Columns.both (Columns.text (b_itemName body))
    (Columns.both (Columns.float (Json.Number (b_sellingPrice body)))
    (Columns.both (Columns.int (Json.Number (b_currentQuantity body)))
    (Columns.both (Columns.nullable_text (or_else (b_unitType body) ""))
    (Columns.both (Columns.date (date_or_null (b_expiryDate body)))
                  (Columns.text (or_else (b_status body) "not yet"))))))).


Definition is_undefined (v : json) : bool :=
  match v with JUndefined => true | _ => false end.

(** [POST /api/inventory] *)
Definition POST `{StoreFaults} `{Client} `{Platform} (body : Body)
  : World -> Response * World :=
  fun w =>
    if negb (Json.truthy (b_itemName body))
       || is_undefined (b_sellingPrice body)
       || is_undefined (b_currentQuantity body)
    then (Error 400 "Missing required fields: itemName, sellingPrice, and currentQuantity are required.", w)
    else
      match create_data body with
      | Rejected => (Error 500 "Failed to create item", thrown w)
      | Written d =>
          match create d w with
          | (Ok newItem, w') => (Item 201 newItem, w')
          | (Throw _, w') => (Error 500 "Failed to create item", w')
          end
      | WrittenThenThrown d =>
          (Error 500 "Failed to create item", snd (create d w))
      end.

(** [parseInt(x)] as a number. *)
Definition parseInt_number (s : string) : number :=
  match JsNumber.parseInt s with
  | Some z => JsNumber.of_Z z
  | None => NaN
  end.

(** The [data] object of the update endpoint, as the client takes it. *)
Definition update_data `{Client} `{Platform} (body : Body)
  : Column UpdateData :=
  Columns.map
    (fun '(name, (price, (qty, (unit, (st, expiry))))) =>
       {| u_itemName := name;
          u_sellingPrice := Some price;
          u_currentQuantity := Some qty;
          u_unitType := unit;
          u_expiryDate := Some expiry;
          u_status := st |})
    (Columns.both (Columns.optional Columns.text (b_itemName body))
    (Columns.both
       (Columns.float
          (JsNumber.parseFloat (Json.String_ (b_sellingPrice body))))
    (Columns.both
       (Columns.int (parseInt_number (Json.String_ (b_currentQuantity body))))
    (Columns.both (Columns.optional Columns.nullable_text (b_unitType body))
    (Columns.both (Columns.optional Columns.text (b_status body))
                  (Columns.date (date_or_null (b_expiryDate body)))))))).

(** A body of the update endpoint all of whose values are of the types
    of their columns. *)
Definition typed_update `{Platform} (body : Body) : Prop :=
  (b_itemName body = JUndefined \/ exists name, b_itemName body = JStr name)
  /\ Columns.finite
       (JsNumber.parseFloat (Json.String_ (b_sellingPrice body))) = true
  /\ (exists z,
         JsNumber.parseInt (Json.String_ (b_currentQuantity body)) = Some z
         /\ Columns.int32 z = true)
  /\ (b_unitType body = JUndefined \/ b_unitType body = JNull
      \/ exists unit, b_unitType body = JStr unit)
  /\ (b_status body = JUndefined \/ exists st, b_status body = JStr st)
  /\ date_or_null (b_expiryDate body) <> Some InvalidDate.

(** [PUT /api/inventory/:id]; no record has a key that is not a number. *)
Definition PUT `{StoreFaults} `{Client} `{Platform} (param_id : string)
  (body : Body) : World -> Response * World :=
  fun w =>
    match JsNumber.parseInt param_id with
    | None => (Error 500 "Failed to update item", thrown w)
    | Some itemId =>
        match update_data body with
        | Rejected => (Error 500 "Failed to update item", thrown w)
        | Written d =>
            match update itemId d w with
            | (Ok updated, w') => (Item 200 updated, w')
            | (Throw _, w') => (Error 500 "Failed to update item", w')
            end
        | WrittenThenThrown d =>
            (Error 500 "Failed to update item", snd (update itemId d w))
        end
    end.

End ItemsRoute.

(** ** A host for the examples *)

(** A host whose [new Date(s)] reads the ISO 8601 date-only form
    [YYYY-MM-DD] (midnight UTC) and rejects every other string. *)
Module IsoHost.
Import JsString JsNumber.

Definition is_leap (y : Z) : bool :=
  ((y mod 4 =? 0) && negb (y mod 100 =? 0)) || (y mod 400 =? 0).

Definition days_in_month (y m : Z) : Z :=
  if m =? 2 then (if is_leap y then 29 else 28)
  else if (m =? 4) || (m =? 6) || (m =? 9) || (m =? 11) then 30
  else 31.

(** Days from 1970-01-01 to the civil date [y-m-d]. *)
Definition days_from_civil (y m d : Z) : Z :=
  let y' := if m <=? 2 then y - 1 else y in
  let era := y' / 400 in
  let yoe := y' - era * 400 in
  let mp := if 2 <? m then m - 3 else m + 9 in
  let doy := (153 * mp + 2) / 5 + d - 1 in
  let doe := yoe * 365 + yoe / 4 - yoe / 100 + doy in
  era * 146097 + doe - 719468.

Definition parse (s : string) : JsDate :=
  match span_digits digit_val s with
  | ([y1; y2; y3; y4], String "-" r1) =>
      match span_digits digit_val r1 with
      | ([m1; m2], String "-" r2) =>
          match span_digits digit_val r2 with
          | ([d1; d2], EmptyString) =>
              let y := digits_value 10 [y1; y2; y3; y4] in
              let m := digits_value 10 [m1; m2] in
              let d := digits_value 10 [d1; d2] in
              if (1 <=? m) && (m <=? 12) && (1 <=? d)
                 && (d <=? days_in_month y m)
              then DateMs (days_from_civil y m d * 86400000)
              else InvalidDate
          | _ => InvalidDate
          end
      | _ => InvalidDate
      end
  | _ => InvalidDate
  end.

Definition host : Platform := {| Date_of_string := parse |}.

End IsoHost.

(** ** The alias table of the schema *)

Module Resolution.
Import JsString JsValue.

Inductive Field : Type :=
| ItemName | SellingPrice | CurrentQuantity | UnitType | ExpiryDate | Status.

Definition aliases (f : Field) : list string :=
  match f with
  | ItemName => ["item name"; "itemname"]
  | SellingPrice => ["selling price"; "price"]
  | CurrentQuantity => ["current quantity"; "current qty"; "quantity"]
  | UnitType => ["unit type"; "unit"]
  | ExpiryDate => ["expiry date"; "expiry"]
  | Status => ["status"]
  end.

(** The raw value the handler reads for a field. *)
Definition read (f : Field) (row : ExcelRow) : value :=
  match f with
  | ItemName => Parsed.itemName row
  | SellingPrice => Parsed.sellingPriceRaw row
  | CurrentQuantity => Parsed.currentQuantityRaw row
  | UnitType => Parsed.unitType row
  | ExpiryDate => Parsed.expiryDateRaw row
  | Status => Parsed.statusRaw row
  end.

(** A header as it is compared: lower-cased and trimmed. *)
Definition normalize (h : string) : string := trim (toLowerCase h).

Definition matches (alias h : string) : bool :=
  String.eqb (normalize h) (normalize alias).

(** The row has a header for one of the aliases of the field. *)
Definition has_header (f : Field) (row : ExcelRow) : bool :=
  existsb (fun a => existsb (matches a) (keys row)) (aliases f).

(** The row has a header for the field and a value under it. *)
Definition resolvable (f : Field) (row : ExcelRow) : bool :=
  has_header f row
  && match read f row with Some _ => true | None => false end.

(** The handler's lookup for a list of aliases:
  [row[getKey(a1) || ... || getKey(an) || '']]. *)
Definition lookup (als : list string) (row : ExcelRow) : value :=
  get row (key_or_empty
           (fold_left (fun k a => key_or k (Parsed.getKey row a)) als None)).

(** The rule in the words of the specification: the first alias that
  matches any header wins, and the field is absent if none matches. *)
Definition first_header (alias : string) (row : ExcelRow) : option string :=
  find (matches alias) (keys row).

Fixpoint winner (als : list string) (row : ExcelRow) : option string :=
  match als with
  | [] => None
  | a :: rest =>
    match first_header a row with
    | Some h => Some h
    | None => winner rest row
    end
  end.

Definition resolve (als : list string) (row : ExcelRow) : value :=
  match winner als row with
  | Some h => get row h
  | None => None
  end.

(** Headers that differ only in case or in surrounding white space. *)
Definition blank (s : string) : Prop := all_space s = true.

Definition variant (h h' : string) : Prop :=
  exists l c r l' c' r',
  h = l ++ c ++ r /\ h' = l' ++ c' ++ r'
  /\ blank l /\ blank r /\ blank l' /\ blank r'
  /\ toLowerCase c = toLowerCase c'.

(** Rows that differ only in that way in their headers. *)
Definition row_variant (row row' : ExcelRow) : Prop :=
  Forall2 (fun x y => variant (fst x) (fst y) /\ snd x = snd y) row row'.

End Resolution.

(** ** The rows the loop counts *)

Module Count.

(** The row passes the guard [if (!itemName) continue]. *)
Definition reaches_lookup (row : ExcelRow) : bool :=
  JsValue.truthy (Parsed.itemName row).

Definition processed (rows : list ExcelRow) : nat :=
  List.length (filter reaches_lookup rows).

End Count.

(** ** The import on a store that accepts every call *)

Module Replay.
Import JsString JsValue.

(** What one pass through the loop body leaves in the store. *)
Definition step `{Platform} (row : ExcelRow) (s : Store) : Store :=
  if negb (truthy (Parsed.itemName row)) then s
  else
    match Prisma.find_by_name (String_ (Parsed.itemName row)) s with
    | Some existingItem =>
        Prisma.modify (id existingItem)
          (ImportRoute.update_data row existingItem) s
    | None => Prisma.insert (ImportRoute.create_data row) s
    end.

Definition run `{Platform} (rows : list ExcelRow) (s : Store) : Store :=
  fold_left (fun acc row => step row acc) rows s.

(** The record an update of the import makes of a record. *)
Definition merge `{Platform} (row : ExcelRow) (it : InventoryItem)
  : InventoryItem :=
  Prisma.apply_update (ImportRoute.update_data row it) it.

(** [f] applied to the first record of the given name. *)
Fixpoint upd_first (name : string) (f : InventoryItem -> InventoryItem)
  (l : list InventoryItem) : list InventoryItem :=
  match l with
  | [] => []
  | x :: rest =>
      if String.eqb (itemName x) name then f x :: rest
      else x :: upd_first name f rest
  end.

Definition names (l : list InventoryItem) : list string := map itemName l.

(** The primary key: keys are distinct and below the next key of the
    sequence. *)
Definition well_formed (s : Store) : Prop :=
  NoDup (map id (items s)) /\ Forall (fun it => id it < nextId s) (items s).

(** Every row that passes the guard names a record of the store. *)
Definition covered (rows : list ExcelRow) (l : list InventoryItem) : Prop :=
  forall row, In row rows -> truthy (Parsed.itemName row) = true ->
              In (String_ (Parsed.itemName row)) (names l).

(** Two records that an update by [row] makes equal: they differ at most
    in the fields the update overwrites. *)
Definition agree `{Platform} (row : ExcelRow) (x y : InventoryItem) : Prop :=
  id x = id y
  /\ itemName x = itemName y
  /\ (Parsed.currentQuantity row <> 0
      \/ currentQuantity x = currentQuantity y)
  /\ (truthy (Parsed.unitType row) = true
      \/ ImportRoute.or_empty (unitType x) = ImportRoute.or_empty (unitType y))
  /\ ((exists t, Parsed.expiryDate row = Some (DateMs t))
      \/ expiryDate x = expiryDate y)
  /\ (truthy (Parsed.statusRaw row) = true
      \/ toLowerCase (status x) = toLowerCase (status y)).

(** Two lists of records that are the same but for the first record of the
    given name, where they are related by [R]. *)
Inductive near (name : string) (R : InventoryItem -> InventoryItem -> Prop)
  : list InventoryItem -> list InventoryItem -> Prop :=
| near_nil : near name R [] []
| near_here x y l :
    itemName x = name -> R x y -> near name R (x :: l) (y :: l)
| near_skip x l1 l2 :
    itemName x <> name -> near name R l1 l2 -> near name R (x :: l1) (x :: l2).

(** No two rows that pass the guard have the same item name. *)
Definition distinct_names (rows : list ExcelRow) : Prop :=
  NoDup (map (fun row => String_ (Parsed.itemName row))
             (filter (fun row => truthy (Parsed.itemName row)) rows)).

(** Two stores that are the same but for what an update by [row] will
    overwrite in the record it finds. *)
Definition close `{Platform} (row : ExcelRow) (s1 s2 : Store) : Prop :=
  near (String_ (Parsed.itemName row)) (agree row) (items s1) (items s2)
  /\ nextId s1 = nextId s2.

(** The store with one more record at its end. *)
Definition extend (s : Store) (z : InventoryItem) (next : Z) : Store :=
  {| items := items s ++ [z]; nextId := next |}.

End Replay.

(** ** Worked data for the examples *)

Module Sample.

(** An existing record: 50 in stock, expiring 2025-01-01, checked. *)
Definition widget : InventoryItem :=
  {| id := 1;
   itemName := "Widget";
   sellingPrice := Dec 5 0;
   currentQuantity := 50;
   unitType := Some "box";
   expiryDate := Some 1735689600000;
   status := "checked" |}.

Definition shelf : Store := {| items := [widget]; nextId := 2 |}.

Definition start : World := {| store := shelf; calls := 0 |}.

Definition text (s : string) : value := Some (CStr s).
Definition num (z : Z) : value := Some (CNum (Dec z 0)).

(** Rows naming the existing record, with a quantity cell of 0, no
  quantity cell, an unparsable one, and 12. *)
Definition qty_zero : ExcelRow :=
  [("Item Name", text "Widget"); ("Price", num 5); ("Quantity", num 0)].
Definition qty_blank : ExcelRow :=
  [("Item Name", text "Widget"); ("Price", num 5)].
Definition qty_text : ExcelRow :=
  [("Item Name", text "Widget"); ("Price", num 5); ("Quantity", text "n/a")].
Definition qty_twelve : ExcelRow :=
  [("Item Name", text "Widget"); ("Price", num 5); ("Quantity", num 12)].

(** Rows naming the existing record whose status cell is there but
  empty, or the number 0. *)
Definition status_empty : ExcelRow :=
  [("Item Name", text "Widget"); ("Price", num 5); ("Status", text "")].
Definition status_zero : ExcelRow :=
  [("Item Name", text "Widget"); ("Price", num 5); ("Status", num 0)].
Definition status_new : ExcelRow :=
  [("Item Name", text "Widget"); ("Price", num 5); ("Status", text "NEW")].

(** A row naming the existing record whose expiry cell is not a date. *)
Definition expiry_garbage : ExcelRow :=
  [("Item Name", text "Widget"); ("Price", num 5);
 ("Expiry Date", text "garbage")].

(** Rows with a numeric expiry cell: the serial 45000, the serial 0, the
    serial 45000.0072407581, which has a time of day, and a serial beyond
    the range of dates. *)
Definition expiry_serial : ExcelRow :=
  [("Item Name", text "Gadget"); ("Expiry", num 45000)].
Definition expiry_zero : ExcelRow :=
  [("Item Name", text "Gadget"); ("Expiry", num 0)].
Definition expiry_time : ExcelRow :=
  [("Item Name", text "Gadget");
   ("Expiry", Some (CNum (Dec 450000072407581 (-10))))].
Definition expiry_huge : ExcelRow :=
  [("Item Name", text "Gadget"); ("Expiry", Some (CNum (Dec 1 20)))].

(** A row whose item-name cell is the number 0, a row with no item-name
    header but a column whose header is the empty string, and a row with
    neither. *)
Definition zero_name : ExcelRow :=
  [("Item Name", num 0); ("Price", num 1)].
Definition ghost : ExcelRow :=
  [("", text "Ghost"); ("Price", num 1)].
Definition nameless : ExcelRow := [("Price", num 1); ("Quantity", num 4)].

(** The same cell under differently written headers. *)
Definition plain_header : ExcelRow := [("item name", text "Widget")].
Definition spaced_header : ExcelRow := [(" Item Name ", text "Widget")].
Definition joined_header : ExcelRow := [("itemname", text "Widget")].
Definition upper_header : ExcelRow := [("ITEMNAME", text "Widget")].
Definition empty_header : ExcelRow := [("", text "Widget")].
Definition space_header : ExcelRow := [(" ", text "Widget")].

(** A row naming no existing record. *)
Definition gadget : ExcelRow :=
  [("Item Name", text "Gadget"); ("Selling Price", text "19.99");
 ("Current Quantity", text "3")].

(** Rows with negative numbers in the price and quantity cells. *)
Definition gadget_negative : ExcelRow :=
  [("Item Name", text "Gadget"); ("Price", text "-2.5"); ("Quantity", num (-5))].
Definition widget_negative : ExcelRow :=
  [("Item Name", text "Widget"); ("Price", num (-1)); ("Quantity", num (-5))].

(** Request bodies for the JSON endpoints: one with an upper-case status
    and negative numbers, one whose numbers are not numbers. *)
Definition body_shout : Body :=
  {| b_itemName := JStr "Gadget";
     b_sellingPrice := JNum (Dec (-5) 0);
     b_currentQuantity := JNum (Dec (-3) 0);
     b_unitType := JUndefined;
     b_expiryDate := JUndefined;
     b_status := JStr "NEW" |}.

Definition body_malformed : Body :=
  {| b_itemName := JStr "Gadget";
     b_sellingPrice := JStr "abc";
     b_currentQuantity := JStr "abc";
     b_unitType := JUndefined;
     b_expiryDate := JUndefined;
     b_status := JStr "new" |}.

(** A row naming the existing record that has a column whose header is
    the empty string. *)
Definition widget_stray : ExcelRow :=
  [("Item Name", text "Widget"); ("Price", num 5); ("", num 7)].

(** A row naming the existing record with the expiry serial 45000. *)
Definition widget_serial : ExcelRow :=
  [("Item Name", text "Widget"); ("Expiry", num 45000)].

(** A row naming no existing record with a cell for every field, and one
    whose unit and status cells are the number 0. *)
Definition gadget_full : ExcelRow :=
  [("Item Name", text "Gadget"); ("Price", text "19.99");
   ("Quantity", text "3"); ("Unit", text "Box"); ("Expiry", num 45000);
   ("Status", text "NEW")].
Definition gadget_falsy : ExcelRow :=
  [("Item Name", text "Gadget"); ("Unit", num 0); ("Status", num 0)].

(** A body with a quantity beyond the 32-bit range and one with a
    fraction. *)
Definition body_large : Body :=
  {| b_itemName := JStr "Gadget";
     b_sellingPrice := JNum (Dec 5 0);
     b_currentQuantity := JNum (Dec 9007199254740992 0);
     b_unitType := JUndefined;
     b_expiryDate := JUndefined;
     b_status := JUndefined |}.

Definition body_fraction : Body :=
  {| b_itemName := JStr "Gadget";
     b_sellingPrice := JNum (Dec 5 0);
     b_currentQuantity := JNum (Dec 25 (-1));
     b_unitType := JUndefined;
     b_expiryDate := JUndefined;
     b_status := JUndefined |}.

(** A client that writes a number with a fraction to the [Int] column
    without the fraction, throws after it has written an integer beyond
    the 32-bit range, and rejects every other value that is not of the
    type of its column. *)
Definition truncating : Client :=
  {| other_int := fun v =>
       match v with
       | JNum (Dec m e) =>
           let z := if 0 <=? e then m * 10 ^ e else Z.quot m (10 ^ (- e)) in
           if Columns.int32 z then Written z else WrittenThenThrown z
       | _ => Rejected
       end;
     other_float := fun _ => Rejected;
     other_text := fun _ => Rejected;
     other_nullable_text := fun _ => Rejected;
     invalid_date := Rejected |}.

(** A store that loses its connection at the fourth call of a request. *)
Definition flaky : StoreFaults :=
  {| fault := fun n _ _ =>
                if Nat.eqb n 3 then Some "connection lost" else None |}.

End Sample.

(** ** The other routes of the inventory API *)

(** The store calls of the list and delete routes. *)
Inductive Query : Type :=
| FindMany (search by_status : option string)
| Delete (key : Z)
| DeleteMany (keys : list Z).

(** [refuses n s q] is the message of the exception the store raises when
    it refuses the query [q], the [n]-th call of the request, in state
    [s]. *)
Class QueryFaults : Type := {
  refuses : nat -> Store -> Query -> option string
}.

Definition no_refusals : QueryFaults := {| refuses := fun _ _ _ => None |}.

(** The [contains] filter of the store on a text column; whether it
    distinguishes case depends on the database behind the client. *)
Class TextSearch : Type := {
  contains : string -> string -> bool
}.

Module PrismaQuery.
Import JsString.

(** [s.includes(sub)] *)
Fixpoint includes (s sub : string) : bool :=
  match strip_prefix sub s with
  | Some _ => true
  | None =>
      match s with
      | EmptyString => false
      | String _ rest => includes rest sub
      end
  end.

(** The [where] clause of the list route. *)
Definition matches_where `{TextSearch} (search by_status : option string)
  (it : InventoryItem) : bool :=
  match search with
  | Some text => contains (itemName it) text
  | None => true
  end
  && match by_status with
     | Some st => String.eqb (status it) st
     | None => true
     end.

(** [orderBy: { id: 'asc' }] *)
Fixpoint insert_by_id (x : InventoryItem) (l : list InventoryItem)
  : list InventoryItem :=
  match l with
  | [] => [x]
  | y :: rest => if id x <=? id y then x :: l else y :: insert_by_id x rest
  end.

Definition order_by_id (l : list InventoryItem) : list InventoryItem :=
  fold_right insert_by_id [] l.

Definition find_many `{TextSearch} (search by_status : option string)
  (s : Store)
  : list InventoryItem :=
  order_by_id (filter (matches_where search by_status) (items s)).

(** The records a [delete] or [deleteMany] keeps. *)
Definition keep_other (key : Z) (s : Store) : Store :=
  {| items := filter (fun it => negb (id it =? key)) (items s);
     nextId := nextId s |}.

Definition in_keys (keys : list Z) (it : InventoryItem) : bool :=
  existsb (Z.eqb (id it)) keys.

Definition keep_others (keys : list Z) (s : Store) : Store :=
  {| items := filter (fun it => negb (in_keys keys it)) (items s);
     nextId := nextId s |}.

(** The number of records a [deleteMany] removes. *)
Definition count_in (keys : list Z) (s : Store) : nat :=
  List.length (filter (in_keys keys) (items s)).

(** A store whose [contains] distinguishes case. *)
Definition case_sensitive : TextSearch := {| contains := includes |}.

End PrismaQuery.

(** An awaited query: refused by the store, or carried out by [run]. *)
Definition await_query `{QueryFaults} {A : Type} (q : Query)
  (run : Store -> Outcome A * Store) : M A :=
  fun w =>
    match refuses (calls w) (store w) q with
    | Some msg => (Throw msg, {| store := store w; calls := S (calls w) |})
    | None =>
        let '(r, s') := run (store w) in
        (r, {| store := s'; calls := S (calls w) |})
    end.

Definition findMany `{QueryFaults} `{TextSearch}
  (search by_status : option string)
  : M (list InventoryItem) :=
  await_query (FindMany search by_status)
    (fun s => (Ok (PrismaQuery.find_many search by_status s), s)).

(** [delete] throws when no record has the key. *)
Definition delete `{QueryFaults} (key : Z) : M InventoryItem :=
  await_query (Delete key)
    (fun s =>
       match Prisma.find_by_id key s with
       | Some it => (Ok it, PrismaQuery.keep_other key s)
       | None => (Throw "Record to delete does not exist.", s)
       end).

Definition deleteMany `{QueryFaults} (keys : list Z) : M nat :=
  await_query (DeleteMany keys)
    (fun s => (Ok (PrismaQuery.count_in keys s), PrismaQuery.keep_others keys s)).

(** [/api/inventory]: the list and the bulk delete. *)
Module CollectionRoute.
Import JsString.

Inductive ListResponse : Type :=
| Items (list_ : list InventoryItem)
| ListError (code : Z) (error : string).

(** [GET /api/inventory?search=..&status=..]; a parameter that is not in
    the query string is [None]. *)
Definition GET `{QueryFaults} `{TextSearch} (search by_status : option string)
  : World -> ListResponse * World :=
  fun w =>
    let where_itemName :=
      match search with
      | Some text => if is_empty text then None else Some text
      | None => None
      end in
    let where_status :=
      match by_status with
      | Some st =>
          if negb (is_empty st) && negb (String.eqb st "all") then Some st
          else None
      | None => None
      end in
    match findMany where_itemName where_status w with
    | (Ok found, w') => (Items found, w')
    | (Throw _, w') => (ListError 500 "Failed to fetch inventory", w')
    end.

(** The [ids] field of the body of the bulk delete. *)
Inductive IdsField : Type :=
| NotAnArray
| IdArray (elements : list json).

Inductive DeleteResponse : Type :=
| Deleted (message : string) (count : nat)
| DeleteError (code : Z) (error : string).

(** The keys of an array all of whose elements are integers. *)
Fixpoint int_keys (elements : list json) : option (list Z) :=
  match elements with
  | [] => Some []
  | JNum n :: rest =>
      match Validate.int n, int_keys rest with
      | Some k, Some ks => Some (k :: ks)
      | _, _ => None
      end
  | _ :: _ => None
  end.

(** [DELETE /api/inventory]: the route hands the array to the client
    unchecked. *)
Definition DELETE `{QueryFaults} `{Client} (ids : IdsField)
  : World -> DeleteResponse * World :=
  fun w =>
    match ids with
    | NotAnArray => (DeleteError 400 "Invalid or empty IDs array", w)
    | IdArray [] => (DeleteError 400 "Invalid or empty IDs array", w)
    | IdArray elements =>
        match Columns.keys elements with
        | Rejected =>
            (DeleteError 500 "Failed to delete items", thrown w)
        | Written keys =>
            match deleteMany keys w with
            | (Ok count, w') =>
                (Deleted (JsNumber.string_of_nat_Z (Z.of_nat count)
                          ++ " items deleted successfully") count, w')
            | (Throw _, w') => (DeleteError 500 "Failed to delete items", w')
            end
        | WrittenThenThrown keys =>
            (DeleteError 500 "Failed to delete items",
             snd (deleteMany keys w))
        end
    end.

End CollectionRoute.

(** [/api/inventory/:id]: the delete of one record. *)
Module ItemRoute.

Inductive Response : Type :=
| Message (message : string)
| Error (code : Z) (error : string).

(** [DELETE /api/inventory/:id] *)
Definition DELETE `{QueryFaults} (param_id : string)
  : World -> Response * World :=
  fun w =>
    match JsNumber.parseInt param_id with
    | Some itemId =>
        match delete itemId w with
        | (Ok _, w') => (Message "Item deleted successfully", w')
        | (Throw _, w') => (Error 500 "Failed to delete item", w')
        end
    | None => (Error 500 "Failed to delete item", w)
    end.

End ItemRoute.

(** ** Worked data for the routes *)

Module Stock.

Definition tape : InventoryItem :=
  {| id := 3; itemName := "Tape"; sellingPrice := Dec 15 (-1);
     currentQuantity := 7; unitType := Some "pcs"; expiryDate := None;
     status := "new" |}.

Definition wire : InventoryItem :=
  {| id := 2; itemName := "Wire"; sellingPrice := Dec 4 0;
     currentQuantity := 0; unitType := None; expiryDate := None;
     status := "checked" |}.

(** Three records, not in the order of their keys. *)
Definition room : Store :=
  {| items := [tape; Sample.widget; wire]; nextId := 4 |}.

Definition start : World := {| store := room; calls := 0 |}.

(** A store that refuses every query. *)
Definition locked : QueryFaults :=
  {| refuses := fun _ _ _ => Some "database is locked" |}.

(** A body for the create and update endpoints. *)
Definition body_nut : Body :=
  {| b_itemName := JStr "Nut";
     b_sellingPrice := JStr "0.25";
     b_currentQuantity := JStr "0";
     b_unitType := JStr "pcs";
     b_expiryDate := JNull;
     b_status := JUndefined |}.

End Stock.

(** ** The inventory page: [src/app/page.tsx] *)

(** [interface InventoryItem] of the page: a record as the list route
    delivers it, with the expiry as the ISO text of the date. *)
Record PageItem : Type := mkPageItem {
  p_id : Z;
  p_itemName : string;
  p_sellingPrice : number;
  p_currentQuantity : Z;
  p_unitType : string;
  p_expiryDate : option string;
  p_status : string
}.

(** [keyof InventoryItem] *)
Inductive Key : Type :=
| k_id | k_itemName | k_sellingPrice | k_currentQuantity | k_unitType
| k_expiryDate | k_status.

Inductive Direction : Type := asc | desc.

(** [type SortConfig = { key, direction } | null] *)
Definition SortConfig : Type := option (Key * Direction).

Module Page.
Import JsString.

Definition UNIT_TYPE_OPTIONS : list (string * string) :=
  [("pcs", "pcs (pieces)"); ("kg", "kg (kilogram)"); ("g", "g (gram)");
   ("mg", "mg (milligram)"); ("l", "l (liter)"); ("ml", "ml (milliliter)");
   ("bot", "bot (bottle)"); ("tabs", "tabs (tablets)");
   ("cap", "cap (capsules)"); ("box", "box"); ("pack", "pack");
   ("sachet", "sachet"); ("vial", "vial")].

(** [getUnitTypeOptions(currentValue: unknown)]; an option is its value and
    its label. *)
Definition getUnitTypeOptions (currentValue : json) : list (string * string) :=
  let current :=
    match currentValue with
    | JStr s => trim s
    | _ => ""
    end in
  let hasCustom :=
    negb (Nat.eqb (String.length current) 0)
    && negb (existsb (fun opt => String.eqb (fst opt) current)
                     UNIT_TYPE_OPTIONS) in
  if negb hasCustom then UNIT_TYPE_OPTIONS
  else (current, current) :: UNIT_TYPE_OPTIONS.

Definition key_eqb (a b : Key) : bool :=
  match a, b with
  | k_id, k_id | k_itemName, k_itemName | k_sellingPrice, k_sellingPrice
  | k_currentQuantity, k_currentQuantity | k_unitType, k_unitType
  | k_expiryDate, k_expiryDate | k_status, k_status => true
  | _, _ => false
  end.

(** The state update of [handleSort(key)]. *)
Definition handleSort (key : Key) (prev : SortConfig) : SortConfig :=
  match prev with
  | None => Some (key, asc)
  | Some (prev_key, direction) =>
      if negb (key_eqb prev_key key) then Some (key, asc)
      else
        match direction with
        | asc => Some (key, desc)
        | desc => None
        end
  end.

(** *** Pagination *)

Definition itemsPerPage : Z := 50.

(** [Array.prototype.slice(start, end)] *)
Definition slice {A : Type} (l : list A) (start end_ : Z) : list A :=
  let len := Z.of_nat (List.length l) in
  let from := if start <? 0 then Z.max (len + start) 0 else Z.min start len in
  let to := if end_ <? 0 then Z.max (len + end_) 0 else Z.min end_ len in
  firstn (Z.to_nat (Z.max (to - from) 0)) (skipn (Z.to_nat from) l).

(** [Math.ceil(sortedItems.length / itemsPerPage)] *)
Definition totalPages {A : Type} (sortedItems : list A) : Z :=
  (Z.of_nat (List.length sortedItems) + itemsPerPage - 1) / itemsPerPage.

Definition paginatedItems {A : Type} (sortedItems : list A) (currentPage : Z)
  : list A :=
  slice sortedItems ((currentPage - 1) * itemsPerPage)
        (currentPage * itemsPerPage).

(** The Previous button: disabled on page 1, else
    [setCurrentPage(prev => Math.max(prev - 1, 1))]. *)
Definition previousPage (currentPage : Z) : Z :=
  if currentPage =? 1 then currentPage else Z.max (currentPage - 1) 1.

(** The Next button: disabled on the last page and when there is no page,
    else [setCurrentPage(prev => Math.min(prev + 1, totalPages))]. *)
Definition nextPage (total currentPage : Z) : Z :=
  if (currentPage =? total) || (total =? 0) then currentPage
  else Z.min (currentPage + 1) total.

(** *** Selection *)

(** A [Set<number>]: its elements in insertion order. *)
Definition IdSet : Type := list Z.

Definition has (s : IdSet) (x : Z) : bool := existsb (Z.eqb x) s.

Definition add (s : IdSet) (x : Z) : IdSet :=
  if has s x then s else (s ++ [x])%list.

Definition delete (s : IdSet) (x : Z) : IdSet :=
  filter (fun y => negb (y =? x)) s.

Definition size (s : IdSet) : nat := List.length s.

(** The selection after [toggleSelection(id)]. *)
Definition toggleSelection (selectedItems : IdSet) (x : Z) : IdSet :=
  if has selectedItems x then delete selectedItems x else add selectedItems x.

(** The selection after [toggleAll(paginatedItems)]. *)
Definition toggleAll (selectedItems : IdSet) (page : list PageItem) : IdSet :=
  if Nat.eqb (size selectedItems) (List.length page)
     && Nat.ltb 0 (List.length page)
  then []
  else fold_left (fun acc item => add acc (p_id item)) page [].

(** The [checked] state of the header check box. *)
Definition allChecked (selectedItems : IdSet) (page : list PageItem) : bool :=
  Nat.ltb 0 (List.length page)
  && forallb (fun item => has selectedItems (p_id item)) page.

End Page.

(** ** The view of the page: filter, sort, pages *)

(** The value of a field of a record of the page. *)
Inductive FieldValue : Type :=
| VNull
| VNum (n : number)
| VStr (s : string).

Module JsCompare.
Import JsString.

(** [x === y] on numbers: [NaN] equals nothing. *)
Definition num_eq (x y : number) : bool :=
  match x, y with
  | NaN, _ | _, NaN => false
  | Infinity a, Infinity b => Bool.eqb a b
  | Infinity _, Dec _ _ | Dec _ _, Infinity _ => false
  | Dec m1 e1, Dec m2 e2 =>
      let e := Z.min e1 e2 in
      m1 * JsNumber.pow10 (e1 - e) =? m2 * JsNumber.pow10 (e2 - e)
  end.

(** [x < y] on numbers: false when either is [NaN]. *)
Definition num_lt (x y : number) : bool :=
  match x, y with
  | NaN, _ | _, NaN => false
  | Infinity a, Infinity b => a && negb b
  | Infinity a, Dec _ _ => a
  | Dec _ _, Infinity b => negb b
  | Dec m1 e1, Dec m2 e2 =>
      let e := Z.min e1 e2 in
      m1 * JsNumber.pow10 (e1 - e) <? m2 * JsNumber.pow10 (e2 - e)
  end.

(** [a < b] on strings: by code units, a proper prefix first. *)
Fixpoint str_lt (a b : string) : bool :=
  match a, b with
  | _, EmptyString => false
  | EmptyString, String _ _ => true
  | String x a', String y b' =>
      if code x <? code y then true
      else if code y <? code x then false
      else str_lt a' b'
  end.

Definition ToNumber (v : FieldValue) : number :=
  match v with
  | VNull => JsNumber.zero
  | VNum n => n
  | VStr s => Json.StringToNumber s
  end.

(** [a === b] *)
Definition strict_equal (a b : FieldValue) : bool :=
  match a, b with
  | VNull, VNull => true
  | VNum x, VNum y => num_eq x y
  | VStr s, VStr t => String.eqb s t
  | _, _ => false
  end.

(** [a < b]: two strings by code units, anything else as numbers. *)
Definition less_than (a b : FieldValue) : bool :=
  match a, b with
  | VStr s, VStr t => str_lt s t
  | _, _ => num_lt (ToNumber a) (ToNumber b)
  end.

Definition is_null (a : FieldValue) : bool :=
  match a with VNull => true | _ => false end.

End JsCompare.

Module View.
Import JsString.

(** [item[key]] *)
Definition field (key : Key) (item : PageItem) : FieldValue :=
  match key with
  | k_id => VNum (JsNumber.of_Z (p_id item))
  | k_itemName => VStr (p_itemName item)
  | k_sellingPrice => VNum (p_sellingPrice item)
  | k_currentQuantity => VNum (JsNumber.of_Z (p_currentQuantity item))
  | k_unitType => VStr (p_unitType item)
  | k_expiryDate =>
      match p_expiryDate item with
      | Some iso => VStr iso
      | None => VNull
      end
  | k_status => VStr (p_status item)
  end.

(** [filteredItems] *)
Definition filteredItems (debouncedSearch statusFilter : string)
  (items : list PageItem) : list PageItem :=
  let normalizedSearch := toLowerCase (trim debouncedSearch) in
  filter
    (fun item =>
       let matchesSearch :=
         Nat.eqb (String.length normalizedSearch) 0
         || PrismaQuery.includes (toLowerCase (p_itemName item))
                                 normalizedSearch in
       let matchesStatus :=
         String.eqb statusFilter "all"
         || String.eqb (toLowerCase (p_status item))
                       (toLowerCase statusFilter) in
       matchesSearch && matchesStatus)
    items.

(** The comparator of [sortedItems]. *)
Definition compare (key : Key) (direction : Direction) (a b : PageItem) : Z :=
  let aValue := field key a in
  let bValue := field key b in
  if JsCompare.strict_equal aValue bValue then 0
  else if JsCompare.is_null aValue then 1
  else if JsCompare.is_null bValue then -1
  else
    match direction with
    | asc => if JsCompare.less_than aValue bValue then -1 else 1
    | desc => if JsCompare.less_than bValue aValue then -1 else 1
    end.

(** [Array.prototype.sort(comparefn)].  The sort of the language is stable,
    and for a comparator that orders the elements consistently its result
    is the one arrangement that is sorted and keeps the order of the
    elements the comparator ties; insertion from the right computes it.
    (For other comparators, as with a [NaN] among numbers, the language
    leaves the order to the implementation.) *)
Fixpoint insert {A : Type} (comparefn : A -> A -> Z) (x : A) (l : list A)
  : list A :=
  match l with
  | [] => [x]
  | y :: rest =>
      if comparefn x y <=? 0 then x :: l else y :: insert comparefn x rest
  end.

Definition sort {A : Type} (comparefn : A -> A -> Z) (l : list A) : list A :=
  fold_right (insert comparefn) [] l.

(** [sortedItems] *)
Definition sortedItems (sortConfig : SortConfig) (filteredItems : list PageItem)
  : list PageItem :=
  match sortConfig with
  | None => filteredItems
  | Some (key, direction) => sort (compare key direction) filteredItems
  end.

(** Sample records of the page. *)
Definition bolt : PageItem :=
  {| p_id := 1; p_itemName := "Bolt"; p_sellingPrice := Dec 5 0;
     p_currentQuantity := 50; p_unitType := "pcs";
     p_expiryDate := None; p_status := "checked" |}.

Definition aspirin : PageItem :=
  {| p_id := 2; p_itemName := "aspirin"; p_sellingPrice := Dec 125 (-2);
     p_currentQuantity := 7; p_unitType := "tabs";
     p_expiryDate := Some "2026-03-01T00:00:00.000Z"; p_status := "new" |}.

Definition syrup : PageItem :=
  {| p_id := 3; p_itemName := "Cough syrup"; p_sellingPrice := Dec 3 0;
     p_currentQuantity := 7; p_unitType := "bot";
     p_expiryDate := Some "2025-11-30T00:00:00.000Z"; p_status := "Checked" |}.

Definition shelf : list PageItem := [bolt; aspirin; syrup].

End View.

(** ** The quantity cell of a row: [QuantityCell] in [src/app/page.tsx] *)

Module QuantityCell.
Import JsString JsNumber.

(** [parseInt(value, 10)]: with the radix given no [0x] prefix is read. *)
Definition parseInt_10 (input : string) : option Z :=
  let s := trimStart input in
  let '(neg, s1) := read_sign s in
  match span_digits digit_val s1 with
  | ([], _) => None
  | (ds, _) => Some (signed neg (digits_value 10 ds))
  end.

(** What leaving the cell does: it calls [onUpdate], or it sets the text
    of the cell. *)
Inductive Effect : Type :=
| onUpdate (itemId : Z) (quantity : Z)
| setValue (text : string).

(** [handleBlur] for the cell of the record [itemId] with the stored
    quantity [currentQuantity] and the text [value]. *)
Definition handleBlur (itemId currentQuantity : Z) (value : string) : Effect :=
  if is_empty (trim value) then setValue (toString (of_Z currentQuantity))
  else
    match parseInt_10 value with
    | Some newQty =>
        if negb (newQty =? currentQuantity) then onUpdate itemId newQty
        else setValue (toString (of_Z currentQuantity))
    | None => setValue (toString (of_Z currentQuantity))
    end.

End QuantityCell.

(** ** The export of the page: [handleExport] in [src/app/page.tsx] *)

(** [new Date(iso).toLocaleDateString()] depends on the locale and the time
    zone of the browser. *)
Class Locale : Type := {
  toLocaleDateString : string -> string
}.

Module ExportSheet.

(** One element of [exportData]: the object made of a record, as a row of
    headers and cells. *)
Definition row `{Locale} (item : PageItem) : ExcelRow :=
  [("Item Name", Some (CStr (p_itemName item)));
   ("Selling Price", Some (CNum (p_sellingPrice item)));
   ("Current Quantity", Some (CNum (JsNumber.of_Z (p_currentQuantity item))));
   ("Unit Type", Some (CStr (p_unitType item)));
   ("Expiry Date",
    Some (CStr match p_expiryDate item with
               | Some iso =>
                   if JsString.is_empty iso then ""
                   else toLocaleDateString iso
               | None => ""
               end));
   ("Status", Some (CStr (p_status item)))].

(** A browser that shows dates as the first ten characters of the ISO
    text. *)
Definition iso_dates : Locale :=
  {| toLocaleDateString := JsString.take 10 |}.

End ExportSheet.

(** ** The add form of the page: [handleAddSubmit] and
    [createInventoryItem] in [src/app/page.tsx] *)

Module AddForm.

(** What [JSON.parse(JSON.stringify(v))] makes of the value of a field: a
    number that is not finite becomes [null]; an undefined field is left
    out and read as undefined. *)
Definition over_the_wire (v : json) : json :=
  match v with
  | JNum NaN | JNum (Infinity _) => JNull
  | _ => v
  end.

(** The body that the create endpoint reads from the request of
    [createInventoryItem(newItem)]. *)
Definition request_body (newItem : Body) : Body :=
  {| b_itemName := over_the_wire (b_itemName newItem);
     b_sellingPrice := over_the_wire (b_sellingPrice newItem);
     b_currentQuantity := over_the_wire (b_currentQuantity newItem);
     b_unitType := over_the_wire (b_unitType newItem);
     b_expiryDate := over_the_wire (b_expiryDate newItem);
     b_status := over_the_wire (b_status newItem) |}.

(** [handleAddSubmit]: the form data handed to the mutation, or nothing
    after the warning. *)
Definition handleAddSubmit (addFormData : Body) : option Body :=
  if negb (Json.truthy (b_itemName addFormData))
     || negb (Json.truthy (b_sellingPrice addFormData))
     || negb (Json.truthy (b_currentQuantity addFormData))
  then None
  else Some addFormData.

End AddForm.

(** * Properties *)

(** ** One pass through the loop body *)

Section LoopBody.
Context {F : StoreFaults} {P : Platform}.
Import JsValue.

Lemma process_row_skip (row : ExcelRow) (w : World) :
  truthy (Parsed.itemName row) = false ->
  ImportRoute.process_row row w = (Ok false, w).
Proof.
  intros Hn. unfold ImportRoute.process_row. rewrite Hn. reflexivity.
Qed.

Lemma find_by_name_In (name : string) (s : Store) (e : InventoryItem) :
  Prisma.find_by_name name s = Some e ->
  In e (items s) /\ itemName e = name.
Proof.
  unfold Prisma.find_by_name. intros Hf.
  apply find_some in Hf. destruct Hf as [Hin Heq].
  split; [assumption | now apply String.eqb_eq].
Qed.

Lemma find_by_id_of_In (l : list InventoryItem) (e : InventoryItem) :
  In e l -> exists it, find (fun it => id it =? id e) l = Some it /\ id it = id e.
Proof.
  induction l as [|x l IH]; intros Hin; [contradiction|].
  simpl. destruct (id x =? id e) eqn:Hx.
  - exists x. split; [reflexivity | now apply Z.eqb_eq].
  - destruct Hin as [->|Hin]; [rewrite Z.eqb_refl in Hx; discriminate|].
    now apply IH.
Qed.

Lemma process_row_update (row : ExcelRow) (w : World) (e : InventoryItem) :
  truthy (Parsed.itemName row) = true ->
  Prisma.find_by_name (String_ (Parsed.itemName row)) (store w) = Some e ->
  fault (calls w) (store w) (FindFirst (String_ (Parsed.itemName row))) = None ->
  fault (S (calls w)) (store w)
        (Update (id e) (ImportRoute.update_data row e)) = None ->
  ImportRoute.process_row row w
  = (Ok true,
     {| store := Prisma.modify (id e) (ImportRoute.update_data row e) (store w);
        calls := S (S (calls w)) |}).
Proof.
  intros Hn Hf Hc1 Hc2.
  unfold ImportRoute.process_row. rewrite Hn. simpl.
  unfold bind, findFirst, await. rewrite Hc1, Hf. simpl.
  unfold update, await. simpl. rewrite Hc2.
  destruct (find_by_name_In _ _ _ Hf) as [Hin _].
  destruct (find_by_id_of_In _ _ Hin) as [it [Hit _]].
  unfold Prisma.find_by_id. rewrite Hit. reflexivity.
Qed.

Lemma process_row_create (row : ExcelRow) (w : World) :
  truthy (Parsed.itemName row) = true ->
  Prisma.find_by_name (String_ (Parsed.itemName row)) (store w) = None ->
  fault (calls w) (store w) (FindFirst (String_ (Parsed.itemName row))) = None ->
  fault (S (calls w)) (store w) (Create (ImportRoute.create_data row)) = None ->
  ImportRoute.process_row row w
  = (Ok true,
     {| store := Prisma.insert (ImportRoute.create_data row) (store w);
        calls := S (S (calls w)) |}).
Proof.
  intros Hn Hf Hc1 Hc2.
  unfold ImportRoute.process_row. rewrite Hn. simpl.
  unfold bind, findFirst, await. rewrite Hc1, Hf. simpl.
  unfold create, await. simpl. rewrite Hc2. reflexivity.
Qed.

(** After [update] by the key of a record of the store, the first record
    with that key is an updated one. *)
Lemma find_by_id_modify (key : Z) (d : UpdateData) (s : Store)
  (it : InventoryItem) :
  Prisma.find_by_id key s = Some it ->
  Prisma.find_by_id key (Prisma.modify key d s)
  = Some (Prisma.apply_update d it).
Proof.
  unfold Prisma.find_by_id, Prisma.modify. simpl.
  induction (items s) as [|x l IH]; simpl; [discriminate|].
  destruct (id x =? key) eqn:Hx; simpl.
  - intros Heq. injection Heq as ->. now rewrite Hx.
  - rewrite Hx. exact IH.
Qed.

End LoopBody.

(** ** Field precedence on update *)

Section UpdateFields.
Context {F : StoreFaults} {P : Platform}.
Import JsValue.

(** What an accepted update leaves in the store under the key of the
    matched record. *)
Lemma update_effect (row : ExcelRow) (w : World) (e : InventoryItem) :
  truthy (Parsed.itemName row) = true ->
  Prisma.find_by_name (String_ (Parsed.itemName row)) (store w) = Some e ->
  fault (calls w) (store w) (FindFirst (String_ (Parsed.itemName row))) = None ->
  fault (S (calls w)) (store w)
        (Update (id e) (ImportRoute.update_data row e)) = None ->
  exists w' it,
    ImportRoute.process_row row w = (Ok true, w')
    /\ Prisma.find_by_id (id e) (store w')
       = Some (Prisma.apply_update (ImportRoute.update_data row e) it).
Proof.
  intros Hn Hf Hc1 Hc2.
  destruct (find_by_name_In _ _ _ Hf) as [Hin _].
  destruct (find_by_id_of_In _ _ Hin) as [it [Hit _]].
  eexists. exists it.
  split; [apply (process_row_update row w e); assumption|].
  simpl. apply find_by_id_modify. exact Hit.
Qed.

End UpdateFields.


(** ** Header resolution *)

Section Strings.
Import JsString.

Lemma lower_char_idem (c : ascii) : lower_char (lower_char c) = lower_char c.
Proof. destruct c as [[] [] [] [] [] [] [] []]; reflexivity. Qed.

Lemma is_space_lower_char (c : ascii) : is_space (lower_char c) = is_space c.
Proof. destruct c as [[] [] [] [] [] [] [] []]; reflexivity. Qed.

Lemma toLowerCase_idem (s : string) :
  toLowerCase (toLowerCase s) = toLowerCase s.
Proof.
  induction s as [|c s IH]; simpl; [reflexivity|].
  now rewrite lower_char_idem, IH.
Qed.

Lemma toLowerCase_app (a b : string) :
  toLowerCase (a ++ b) = toLowerCase a ++ toLowerCase b.
Proof. induction a as [|c a IH]; simpl; [reflexivity | now rewrite IH]. Qed.

Lemma all_space_lower (s : string) : all_space (toLowerCase s) = all_space s.
Proof.
  induction s as [|c s IH]; simpl; [reflexivity|].
  now rewrite is_space_lower_char, IH.
Qed.

Lemma all_space_app (a b : string) :
  all_space (a ++ b) = all_space a && all_space b.
Proof.
  induction a as [|c a IH]; simpl; [reflexivity|].
  now rewrite IH, andb_assoc.
Qed.

Lemma trimStart_blank (l s : string) :
  all_space l = true -> trimStart (l ++ s) = trimStart s.
Proof.
  induction l as [|c l IH]; simpl; [reflexivity|].
  intros H. apply andb_prop in H. destruct H as [Hc Hl].
  rewrite Hc. now apply IH.
Qed.

Lemma trimEnd_blank (s r : string) :
  all_space r = true -> trimEnd (s ++ r) = trimEnd s.
Proof.
  intros Hr. induction s as [|c s IH].
  - simpl. destruct r as [|c r]; [reflexivity|]. simpl in *. now rewrite Hr.
  - change (trimEnd (String c (s ++ r)) = trimEnd (String c s)).
    cbn [trimEnd all_space]. rewrite all_space_app, Hr, andb_true_r.
    now rewrite IH.
Qed.

Lemma trimStart_all_space (r : string) :
  all_space r = true -> trimStart r = EmptyString.
Proof.
  induction r as [|c r IH]; simpl; [reflexivity|].
  intros H. apply andb_prop in H. destruct H as [Hc Hr].
  rewrite Hc. now apply IH.
Qed.

Lemma trim_blank_right (s r : string) :
  all_space r = true -> trim (s ++ r) = trim s.
Proof.
  intros Hr. unfold trim. induction s as [|c s IH].
  - simpl. now rewrite (trimStart_all_space r Hr).
  - simpl. destruct (is_space c); [exact IH|].
    now apply (trimEnd_blank (String c s) r).
Qed.

Lemma trim_padding (l s r : string) :
  all_space l = true -> all_space r = true -> trim (l ++ s ++ r) = trim s.
Proof.
  intros Hl Hr. unfold trim. rewrite (trimStart_blank l _ Hl).
  now apply trim_blank_right.
Qed.

End Strings.

Section Resolve.
Import JsString JsValue Resolution.

(** Variants are compared as the same header. *)
Lemma variant_normalize (h h' : string) :
  variant h h' -> normalize h = normalize h'.
Proof.
  intros (l & c & r & l' & c' & r' & -> & -> & Hl & Hr & Hl' & Hr' & Hc).
  unfold normalize, blank in *.
  rewrite !toLowerCase_app.
  rewrite trim_padding by (now rewrite all_space_lower).
  rewrite trim_padding by (now rewrite all_space_lower).
  now rewrite Hc.
Qed.

Lemma get_absent (row : ExcelRow) (k : string) :
  ~ In k (keys row) -> get row k = None.
Proof.
  induction row as [|[k' v] row IH]; simpl; [reflexivity|].
  intros Hn. destruct (String.eqb_spec k' k) as [->|Hne].
  - exfalso. apply Hn. now left.
  - apply IH. intros Hin. apply Hn. now right.
Qed.

Lemma first_header_nonempty (row : ExcelRow) (a h : string) :
  ~ In "" (keys row) -> first_header a row = Some h -> is_empty h = false.
Proof.
  intros Hn Hf. apply find_some in Hf. destruct Hf as [Hin _].
  destruct h; [contradiction | reflexivity].
Qed.

Lemma fold_key_or (row : ExcelRow) (als : list string) (acc : option string) :
  ~ In "" (keys row) ->
  (acc = None \/ key_truthy acc = true) ->
  fold_left (fun k a => key_or k (Parsed.getKey row a)) als acc
  = match acc with Some k => Some k | None => winner als row end.
Proof.
  intros Hn. revert acc. induction als as [|a als IH]; intros acc Hacc.
  - simpl. now destruct acc.
  - simpl. destruct Hacc as [->|Hacc].
    + unfold key_or at 2. simpl.
      change (Parsed.getKey row a) with (first_header a row).
      destruct (first_header a row) as [h|] eqn:Hf.
      * rewrite IH; [reflexivity|]. right. simpl.
        now rewrite (first_header_nonempty row a h Hn Hf).
      * rewrite IH; [reflexivity | now left].
    + destruct acc as [k|]; [|discriminate].
      unfold key_or at 2. rewrite Hacc.
      now rewrite IH by (now right).
Qed.

(** On a row without an empty header the handler's lookup is the rule of
    the specification. *)
Lemma lookup_resolve (als : list string) (row : ExcelRow) :
  ~ In "" (keys row) -> lookup als row = resolve als row.
Proof.
  intros Hn. unfold lookup, resolve.
  rewrite (fold_key_or row als None Hn) by now left.
  destruct (winner als row) as [h|] eqn:Hw.
  - assert (Hh : is_empty h = false).
    { clear - Hn Hw. induction als as [|a als IH]; simpl in Hw; [discriminate|].
      destruct (first_header a row) as [h'|] eqn:Hf.
      - injection Hw as <-. exact (first_header_nonempty row a h' Hn Hf).
      - now apply IH. }
    unfold key_or_empty, key_or. simpl. now rewrite Hh.
  - simpl. now apply get_absent.
Qed.

Lemma read_lookup (f : Field) (row : ExcelRow) :
  read f row = lookup (aliases f) row.
Proof. destruct f; reflexivity. Qed.

(** A header that an alias of the table matches is not the empty
    string. *)
Lemma matched_header_nonempty (f : Field) (a h : string) (row : ExcelRow) :
  In a (aliases f) -> first_header a row = Some h -> is_empty h = false.
Proof.
  intros Ha Hf. apply find_some in Hf. destruct Hf as [_ Hm].
  destruct h; [|reflexivity]. exfalso.
  destruct f; simpl in Ha;
    repeat (destruct Ha as [<-|Ha]; [discriminate Hm|]); contradiction.
Qed.

Lemma fold_key_or_table (f : Field) (row : ExcelRow) (als : list string)
  (acc : option string) :
  incl als (aliases f) ->
  (acc = None \/ key_truthy acc = true) ->
  fold_left (fun k a => key_or k (Parsed.getKey row a)) als acc
  = match acc with Some k => Some k | None => winner als row end.
Proof.
  revert acc. induction als as [|a als IH]; intros acc Hincl Hacc.
  - simpl. now destruct acc.
  - assert (Hals : incl als (aliases f)).
    { intros x Hx. apply Hincl. now right. }
    simpl. destruct Hacc as [->|Hacc].
    + unfold key_or at 2. simpl.
      change (Parsed.getKey row a) with (first_header a row).
      destruct (first_header a row) as [h|] eqn:Hf.
      * rewrite IH; [reflexivity | exact Hals |]. right. simpl.
        rewrite (matched_header_nonempty f a h row); [reflexivity| |exact Hf].
        apply Hincl. now left.
      * rewrite IH; [reflexivity | exact Hals | now left].
    + destruct acc as [k|]; [|discriminate].
      unfold key_or at 2. rewrite Hacc.
      now rewrite IH by (assumption || now right).
Qed.

(** What the handler reads for a field, on every row: the cell under the
    header that the rule of the specification finds, and the cell under
    the empty header when the rule finds none. *)
Lemma read_winner (f : Field) (row : ExcelRow) :
  read f row
  = match winner (aliases f) row with
    | Some h => get row h
    | None => get row ""
    end.
Proof.
  rewrite read_lookup. unfold lookup.
  rewrite (fold_key_or_table f row (aliases f) None)
    by (apply incl_refl || now left).
  destruct (winner (aliases f) row) as [h|] eqn:Hw; [|reflexivity].
  assert (Hh : is_empty h = false).
  { assert (Hgen : forall als, incl als (aliases f) ->
                               winner als row = Some h -> is_empty h = false).
    { induction als as [|a als IH]; simpl; intros Hincl Hwin; [discriminate|].
      destruct (first_header a row) as [h'|] eqn:Hf.
      - injection Hwin as <-.
        apply (matched_header_nonempty f a h' row); [|exact Hf].
        apply Hincl. now left.
      - apply IH; [|exact Hwin]. intros x Hx. apply Hincl. now right. }
    apply (Hgen (aliases f)); [apply incl_refl | exact Hw]. }
  unfold key_or_empty, key_or. simpl. now rewrite Hh.
Qed.

(** A cell that the rule of the specification resolves is the cell the
    handler reads, also on a row with an empty header. *)
Lemma read_resolved (f : Field) (row : ExcelRow) (c : cell) :
  resolve (aliases f) row = Some c -> read f row = Some c.
Proof.
  rewrite read_winner. unfold resolve.
  destruct (winner (aliases f) row); [trivial | discriminate].
Qed.

(** On a row without an empty header the handler reads the resolved
    cell. *)
Lemma read_resolve (f : Field) (row : ExcelRow) :
  ~ In "" (keys row) -> read f row = resolve (aliases f) row.
Proof. intros Hn. rewrite read_lookup. now apply lookup_resolve. Qed.

(** In rows that are variants of each other an alias finds headers at the
    same place. *)
Lemma first_header_variant (a : string) (row row' : ExcelRow) :
  row_variant row row' ->
  (first_header a row = None /\ first_header a row' = None)
  \/ (exists h h', first_header a row = Some h
                   /\ first_header a row' = Some h'
                   /\ get row h = get row' h').
Proof.
  unfold first_header.
  induction 1 as [|[k v] [k' v'] row row' [Hk Hv] Hrest IH].
  - now left.
  - simpl in Hk, Hv. subst v'. apply variant_normalize in Hk.
    assert (Hkk : matches a k' = matches a k)
      by (unfold matches; now rewrite Hk).
    simpl. rewrite Hkk.
    destruct (matches a k) eqn:Hm.
    + right. exists k, k'. now rewrite !String.eqb_refl.
    + destruct IH as [[H1 H2]|(h & h' & H1 & H2 & H3)].
      * now left.
      * right. exists h, h'. split; [exact H1|]. split; [exact H2|].
        assert (Hh : matches a h = true) by (apply find_some in H1; tauto).
        assert (Hh' : matches a h' = true) by (apply find_some in H2; tauto).
        destruct (String.eqb_spec k h) as [->|_]; [congruence|].
        destruct (String.eqb_spec k' h') as [->|_]; [congruence|].
        exact H3.
Qed.

Lemma resolve_variant (als : list string) (row row' : ExcelRow) :
  row_variant row row' -> resolve als row' = resolve als row.
Proof.
  intros Hv. unfold resolve. induction als as [|a als IH]; [reflexivity|].
  simpl. destruct (first_header_variant a row row' Hv)
    as [[H1 H2]|(h & h' & H1 & H2 & H3)].
  - rewrite H1, H2. exact IH.
  - rewrite H1, H2. now symmetry.
Qed.

End Resolve.

(** On a row none of whose headers is the empty
    string, every field is read by the rule of the specification: the
    aliases are tried in order, an alias matches a header when the two
    agree after lower-casing and trimming, the first alias that matches
    wins and the field is absent when none does.  Rewriting the headers of
    the row in another case or with other surrounding white space, without
    producing an empty header, does not change what is read. *)
Theorem header_rule (f : Resolution.Field) (row : ExcelRow) :
  ~ In "" (JsValue.keys row) ->
  Resolution.read f row = Resolution.resolve (Resolution.aliases f) row
  /\ (forall row',
         Resolution.row_variant row row' ->
         ~ In "" (JsValue.keys row') ->
         Resolution.read f row' = Resolution.read f row).
Proof.
  intros Hn. split.
  - rewrite read_lookup. now apply lookup_resolve.
  - intros row' Hv Hn'.
    rewrite !read_lookup, !lookup_resolve by assumption.
    now apply resolve_variant.
Qed.


(** [" Item Name "] and ["ITEMNAME"] both resolve to the item name. *)
Lemma header_rule_witness :
  Resolution.read Resolution.ItemName Sample.spaced_header
  = Some (CStr "Widget")
  /\ Resolution.read Resolution.ItemName Sample.upper_header
     = Some (CStr "Widget").
Proof.
  assert (Hn : forall h v, h <> "" -> ~ In "" (JsValue.keys [(h, v)])).
  { intros h v Hh [H|[]]. now apply Hh. }
  split.
  - rewrite (proj2 (header_rule Resolution.ItemName Sample.plain_header
                      (Hn "item name" _ ltac:(discriminate))) Sample.spaced_header).
    + reflexivity.
    + constructor; [|constructor]. split; [|reflexivity].
      exists "", "item name", "", " ", "Item Name", " ".
      repeat split; reflexivity.
    + apply Hn. discriminate.
  - rewrite (proj2 (header_rule Resolution.ItemName Sample.joined_header
                      (Hn "itemname" _ ltac:(discriminate))) Sample.upper_header).
    + reflexivity.
    + constructor; [|constructor]. split; [|reflexivity].
      exists "", "itemname", "", "", "ITEMNAME", "".
      repeat split; reflexivity.
    + apply Hn. discriminate.
Defined.

(** C5.  The handler at the row whose only headers are the empty string
    and [Price]: no alias of the item name matches a header, so the rule
    gives no item name, but the handler reads the cell under the empty
    header as the item name, and as the unit and the status too, and
    creates a record from it.  Also, the empty header and a header of one
    space differ only in white space and are not read alike. *)
Theorem header_resolution_empty_header :
  Resolution.winner (Resolution.aliases Resolution.ItemName) Sample.ghost
  = None
  /\ Resolution.resolve (Resolution.aliases Resolution.ItemName) Sample.ghost
     = None
  /\ Resolution.read Resolution.ItemName Sample.ghost = Some (CStr "Ghost")
  /\ Resolution.read Resolution.UnitType Sample.ghost = Some (CStr "Ghost")
  /\ Resolution.read Resolution.Status Sample.ghost = Some (CStr "Ghost")
  /\ (exists w',
        @ImportRoute.POST no_faults IsoHost.host
          (ImportRoute.Sheet [Sample.ghost]) Sample.start
        = (ImportRoute.Processed "Processed 1 items successfully" 1, w')
        /\ items (store w')
           = [Sample.widget;
              {| id := 2; itemName := "Ghost"; sellingPrice := Dec 1 0;
                 currentQuantity := 0; unitType := Some "Ghost";
                 expiryDate := None; status := "ghost" |}])
  /\ Resolution.row_variant Sample.empty_header Sample.space_header
  /\ Resolution.read Resolution.ItemName Sample.empty_header
     = Some (CStr "Widget")
  /\ Resolution.read Resolution.ItemName Sample.space_header = None.
Proof.
  repeat split; try reflexivity.
  - eexists. split; reflexivity.
  - constructor; [|constructor]. split; [|reflexivity].
    exists "", "", "", " ", "", "". repeat split; reflexivity.
Qed.

(** ** Skipped rows, the count and failures *)

Section Outcomes.
Context {F : StoreFaults} {P : Platform}.
Import JsValue.

(** A row that passes the guard makes a store call, and then either a
    write is committed and the row counted, or the call throws and the
    store is as it was. *)
Lemma process_row_reached (row : ExcelRow) (w : World) :
  truthy (Parsed.itemName row) = true ->
  (exists w', ImportRoute.process_row row w = (Ok true, w')
              /\ calls w' = S (S (calls w)))
  \/ (exists msg w', ImportRoute.process_row row w = (Throw msg, w')
                     /\ store w' = store w /\ (calls w < calls w')%nat).
Proof.
  intros Hn. unfold ImportRoute.process_row. rewrite Hn. simpl.
  unfold bind, findFirst, await.
  destruct (fault (calls w) (store w)
              (FindFirst (String_ (Parsed.itemName row)))) as [msg|] eqn:Hc1.
  - right. exists msg. eexists. split; [reflexivity|]. simpl. split; [reflexivity|lia].
  - destruct (Prisma.find_by_name (String_ (Parsed.itemName row)) (store w))
      as [e|] eqn:Hf; simpl.
    + unfold update, await. simpl.
      destruct (fault (S (calls w)) (store w)
                  (Update (id e) (ImportRoute.update_data row e)))
        as [msg|] eqn:Hc2.
      * right. exists msg. eexists. split; [reflexivity|].
        simpl. split; [reflexivity|lia].
      * destruct (find_by_name_In _ _ _ Hf) as [Hin _].
        destruct (find_by_id_of_In _ _ Hin) as [it [Hit _]].
        unfold Prisma.find_by_id. rewrite Hit.
        left. eexists. split; reflexivity.
    + unfold create, await. simpl.
      destruct (fault (S (calls w)) (store w)
                  (Create (ImportRoute.create_data row))) as [msg|] eqn:Hc2.
      * right. exists msg. eexists. split; [reflexivity|].
        simpl. split; [reflexivity|lia].
      * left. eexists. split; reflexivity.
Qed.

Lemma processed_cons (row : ExcelRow) (rows : list ExcelRow) :
  Count.processed (row :: rows)
  = ((if truthy (Parsed.itemName row) then 1 else 0)
     + Count.processed rows)%nat.
Proof.
  unfold Count.processed, Count.reaches_lookup. simpl.
  destruct (truthy (Parsed.itemName row)); reflexivity.
Qed.

(** The loop either runs to its end, having counted the rows that pass the
    guard, or stops at the first row whose store call throws. *)
Lemma for_rows_outcome (rows : list ExcelRow) (count : nat) (w : World) :
  (exists w', ImportRoute.for_rows rows count w
              = (Ok (count + Count.processed rows)%nat, w'))
  \/ (exists pre row post w1 msg w2,
         rows = (pre ++ row :: post)%list
         /\ ImportRoute.for_rows pre count w
            = (Ok (count + Count.processed pre)%nat, w1)
         /\ ImportRoute.process_row row w1 = (Throw msg, w2)
         /\ store w2 = store w1
         /\ ImportRoute.for_rows rows count w = (Throw msg, w2)).
Proof.
  revert count w. induction rows as [|r rows IH]; intros count w.
  - left. exists w. simpl. unfold ret, Count.processed. simpl.
    now rewrite Nat.add_0_r.
  - destruct (truthy (Parsed.itemName r)) eqn:Hn.
    + destruct (process_row_reached r w Hn)
        as [(w1 & Hrun & _)|(msg & w2 & Hrun & Hst & _)].
      * assert (Hstep : forall rest,
                   ImportRoute.for_rows (r :: rest) count w
                   = ImportRoute.for_rows rest (S count) w1).
        { intros rest. simpl. unfold bind. now rewrite Hrun. }
        destruct (IH (S count) w1)
          as [(w' & Hw')|(pre & row & post & wa & msg & wb & -> & Hpre & Hrow & Hst & Hall)].
        -- left. exists w'. rewrite Hstep, Hw', processed_cons, Hn.
           do 2 f_equal. lia.
        -- right. exists (r :: pre), row, post, wa, msg, wb.
           split; [reflexivity|].
           split; [rewrite Hstep, Hpre, processed_cons, Hn; do 2 f_equal; lia|].
           split; [exact Hrow|]. split; [exact Hst|].
           change ((r :: pre) ++ row :: post)%list
             with (r :: (pre ++ row :: post))%list.
           now rewrite Hstep.
      * right. exists [], r, rows, w, msg, w2.
        split; [reflexivity|].
        split; [simpl; unfold ret, Count.processed; simpl;
                now rewrite Nat.add_0_r|].
        split; [exact Hrun|]. split; [exact Hst|].
        simpl. unfold bind. now rewrite Hrun.
    + assert (Hstep : forall rest,
                 ImportRoute.for_rows (r :: rest) count w
                 = ImportRoute.for_rows rest count w).
      { intros rest. simpl. unfold bind.
        now rewrite (process_row_skip r w Hn). }
      destruct (IH count w)
        as [(w' & Hw')|(pre & row & post & wa & msg & wb & -> & Hpre & Hrow & Hst & Hall)].
      * left. exists w'. now rewrite Hstep, Hw', processed_cons, Hn.
      * right. exists (r :: pre), row, post, wa, msg, wb.
        split; [reflexivity|].
        split; [now rewrite Hstep, Hpre, processed_cons, Hn|].
        split; [exact Hrow|]. split; [exact Hst|].
        change ((r :: pre) ++ row :: post)%list
          with (r :: (pre ++ row :: post))%list.
        now rewrite Hstep.
Qed.

End Outcomes.

Lemma winner_without_header (f : Resolution.Field) (row : ExcelRow) :
  Resolution.has_header f row = false ->
  Resolution.winner (Resolution.aliases f) row = None.
Proof.
  unfold Resolution.has_header.
  induction (Resolution.aliases f) as [|a als IH]; simpl; [reflexivity|].
  intros H. apply orb_false_elim in H. destruct H as [Ha Hals].
  unfold Resolution.first_header.
  destruct (find (Resolution.matches a) (JsValue.keys row)) as [h|] eqn:Hf.
  - apply find_some in Hf. destruct Hf as [Hin Hm].
    assert (Hex : existsb (Resolution.matches a) (JsValue.keys row) = true)
      by (apply existsb_exists; now exists h).
    congruence.
  - now apply IH.
Qed.

Lemma falsy_values (v : value) :
  JsValue.truthy v = false
  <-> v = None \/ v = Some (CStr "") \/ v = Some (CNum NaN)
      \/ exists e, v = Some (CNum (Dec 0 e)).
Proof.
  split.
  - destruct v as [[s|n]|]; simpl.
    + destruct s; simpl; [auto | discriminate].
    + destruct n as [|b|m e]; simpl; [auto | discriminate |].
      intros H. apply negb_false_iff, Z.eqb_eq in H. subst m.
      right. right. right. now exists e.
    + auto.
  - intros [->|[->|[->|[e ->]]]]; reflexivity.
Qed.

(** C4, as the code has it.  On a row none of whose headers is the empty
    string, let [name] be the item name resolved from the headers.  The
    row is skipped, with no store call and without being counted, exactly
    when [name] is falsy: absent, the empty string, the number zero or
    [NaN]; a row with no item-name header is among them.  Every other row
    reaches the store: it is counted after a committed create or update,
    or its store call throws. *)
Theorem skip_rule {F : StoreFaults} {P : Platform}
  (row : ExcelRow) (w : World) :
  ~ In "" (JsValue.keys row) ->
  let name :=
    Resolution.resolve (Resolution.aliases Resolution.ItemName) row in
  (JsValue.truthy name = false
   <-> ImportRoute.process_row row w = (Ok false, w))
  /\ (JsValue.truthy name = true ->
      (exists w', ImportRoute.process_row row w = (Ok true, w')
                  /\ calls w' = S (S (calls w)))
      \/ (exists msg w', ImportRoute.process_row row w = (Throw msg, w')
                         /\ store w' = store w /\ (calls w < calls w')%nat))
  /\ (JsValue.truthy name = false
      <-> name = None \/ name = Some (CStr "") \/ name = Some (CNum NaN)
          \/ exists e, name = Some (CNum (Dec 0 e)))
  /\ (Resolution.has_header Resolution.ItemName row = false -> name = None).
Proof.
  intros Hn name.
  assert (Hname : Parsed.itemName row = name).
  { exact (proj1 (header_rule Resolution.ItemName row Hn)). }
  split; [|split; [|split]].
  - split.
    + intros Hf. apply process_row_skip. now rewrite Hname.
    + intros Hrun. destruct (JsValue.truthy name) eqn:Ht; [|reflexivity].
      rewrite <- Hname in Ht.
      destruct (process_row_reached row w Ht)
        as [(w' & Hr & _)|(msg & w' & Hr & _)]; congruence.
  - intros Ht. rewrite <- Hname in Ht. now apply process_row_reached.
  - apply falsy_values.
  - intros Hh. unfold name, Resolution.resolve.
    now rewrite (winner_without_header _ _ Hh).
Qed.

(** A row with neither an item-name header nor an empty header is skipped;
    a row naming the widget is processed. *)
Lemma skip_rule_witness :
  @ImportRoute.process_row no_faults IsoHost.host Sample.nameless Sample.start
  = (Ok false, Sample.start)
  /\ exists w',
      @ImportRoute.process_row no_faults IsoHost.host Sample.qty_twelve
        Sample.start = (Ok true, w').
Proof.
  assert (Hn1 : ~ In "" (JsValue.keys Sample.nameless)).
  { simpl. intros [H|[H|[]]]; discriminate. }
  assert (Hn2 : ~ In "" (JsValue.keys Sample.qty_twelve)).
  { simpl. intros [H|[H|[H|[]]]]; discriminate. }
  split.
  - apply (proj1 (@skip_rule no_faults IsoHost.host Sample.nameless
                    Sample.start Hn1)).
    reflexivity.
  - destruct (proj1 (proj2 (@skip_rule no_faults IsoHost.host
                              Sample.qty_twelve Sample.start Hn2)) eq_refl)
      as [(w' & Hr & _)|(msg & w' & Hr & _)].
    + now exists w'.
    + discriminate Hr.
Defined.

(** C4 as stated fails.  The first row has an item-name header with a
    value under it, the number 0, and is skipped. *)
Lemma skip_rule_counterexample :
  Resolution.resolvable Resolution.ItemName Sample.zero_name = true
  /\ Resolution.read Resolution.ItemName Sample.zero_name
     = Some (CNum (Dec 0 0))
  /\ @ImportRoute.process_row no_faults IsoHost.host Sample.zero_name
       Sample.start = (Ok false, Sample.start)
  /\ @ImportRoute.POST no_faults IsoHost.host
       (ImportRoute.Sheet [Sample.zero_name]) Sample.start
     = (ImportRoute.Processed "Processed 0 items successfully" 0,
        Sample.start).
Proof. repeat split. Qed.

(** C6, as the code has it.  The import either succeeds, and then returns
    the number of rows whose item-name value is truthy, creates and
    updates alike; or a store call of some row throws, and then the rows
    after it are not run, the store is as the rows before it left it, and
    the response is the one error. *)
Theorem import_outcome {F : StoreFaults} {P : Platform}
  (jsonData : list ExcelRow) (w : World) :
  (exists w',
      ImportRoute.POST (ImportRoute.Sheet jsonData) w
      = (ImportRoute.Processed
           ("Processed "
            ++ JsNumber.string_of_nat_Z (Z.of_nat (Count.processed jsonData))
            ++ " items successfully")
           (Count.processed jsonData), w'))
  \/ (exists pre row post w1 msg w2,
         jsonData = (pre ++ row :: post)%list
         /\ ImportRoute.for_rows pre 0 w = (Ok (Count.processed pre), w1)
         /\ ImportRoute.process_row row w1 = (Throw msg, w2)
         /\ store w2 = store w1
         /\ ImportRoute.POST (ImportRoute.Sheet jsonData) w
            = (ImportRoute.Failed 500 ("Failed to import data: " ++ msg), w2)).
Proof.
  destruct (for_rows_outcome jsonData 0 w)
    as [(w' & Hw')|(pre & row & post & w1 & msg & w2 & Hsplit & Hpre & Hrow & Hst & Hall)].
  - left. exists w'. unfold ImportRoute.POST. now rewrite Hw'.
  - right. exists pre, row, post, w1, msg, w2.
    split; [exact Hsplit|]. split; [exact Hpre|].
    split; [exact Hrow|]. split; [exact Hst|].
    unfold ImportRoute.POST. now rewrite Hall.
Qed.

(** C6 as stated fails on the count: both rows have an item-name header
    with a value under it, one of them the number 0, and the import
    returns 1. *)
Lemma import_count_counterexample :
  Resolution.resolvable Resolution.ItemName Sample.gadget = true
  /\ Resolution.resolvable Resolution.ItemName Sample.zero_name = true
  /\ exists w',
      @ImportRoute.POST no_faults IsoHost.host
        (ImportRoute.Sheet [Sample.gadget; Sample.zero_name]) Sample.start
      = (ImportRoute.Processed "Processed 1 items successfully" 1, w').
Proof. repeat split. eexists. reflexivity. Qed.

(** ** The merge of a row into an existing record *)

Section Cells.
Import JsValue Resolution.

(** On a row without an empty header, each raw value of the handler is
    the cell that the headers resolve. *)
Lemma raw_cells (row : ExcelRow) :
  ~ In "" (keys row) ->
  Parsed.itemName row = resolve (aliases ItemName) row
  /\ Parsed.sellingPriceRaw row = resolve (aliases SellingPrice) row
  /\ Parsed.currentQuantityRaw row = resolve (aliases CurrentQuantity) row
  /\ Parsed.unitType row = resolve (aliases UnitType) row
  /\ Parsed.expiryDateRaw row = resolve (aliases ExpiryDate) row
  /\ Parsed.statusRaw row = resolve (aliases Status) row.
Proof.
  intros Hn.
  repeat split;
    [exact (read_resolve ItemName row Hn)
    | exact (read_resolve SellingPrice row Hn)
    | exact (read_resolve CurrentQuantity row Hn)
    | exact (read_resolve UnitType row Hn)
    | exact (read_resolve ExpiryDate row Hn)
    | exact (read_resolve Status row Hn)].
Qed.

(** A field without a header has no cell. *)
Lemma no_header_no_cell (f : Field) (row : ExcelRow) :
  has_header f row = false -> resolve (aliases f) row = None.
Proof.
  intros Hh. unfold resolve. now rewrite (winner_without_header f row Hh).
Qed.

End Cells.

(** C1, as the code has it.  On a row none of whose headers is the empty
    string: when the row names an existing record and the store accepts
    the two calls, the record's quantity after the update is the coerced
    quantity cell of the row if that is not zero, and the quantity it had
    before if the coercion gave zero; a quantity cell that is missing (no
    header of the row is a quantity header, or there is nothing under it)
    or does not parse coerces to zero and so keeps the stored
    quantity. *)
Theorem quantity_after_update {F : StoreFaults} {P : Platform}
  (row : ExcelRow) (w : World) (e : InventoryItem) :
  ~ In "" (JsValue.keys row) ->
  let name :=
    Resolution.resolve (Resolution.aliases Resolution.ItemName) row in
  JsValue.truthy name = true ->
  Prisma.find_by_name (JsValue.String_ name) (store w) = Some e ->
  fault (calls w) (store w) (FindFirst (JsValue.String_ name)) = None ->
  fault (S (calls w)) (store w)
        (Update (id e) (ImportRoute.update_data row e)) = None ->
  let cell :=
    Resolution.resolve (Resolution.aliases Resolution.CurrentQuantity) row in
  let coerced :=
    match JsNumber.parseInt (JsValue.String_ cell) with
    | Some z => z
    | None => 0
    end in
  exists w' e',
    ImportRoute.process_row row w = (Ok true, w')
    /\ Prisma.find_by_id (id e) (store w') = Some e'
    /\ currentQuantity e'
       = (if coerced =? 0 then currentQuantity e else coerced)
    /\ (Resolution.has_header Resolution.CurrentQuantity row = false ->
        currentQuantity e' = currentQuantity e)
    /\ (cell = None -> currentQuantity e' = currentQuantity e)
    /\ (JsNumber.parseInt (JsValue.String_ cell) = None ->
        currentQuantity e' = currentQuantity e).
Proof.
  intros Hno name Hn Hf Hc1 Hc2 cell coerced.
  assert (Hname : Parsed.itemName row = name)
    by exact (proj1 (raw_cells row Hno)).
  rewrite <- Hname in Hn, Hf, Hc1.
  destruct (raw_cells row Hno) as (_ & _ & Hraw & _).
  destruct (update_effect row w e Hn Hf Hc1 Hc2) as [w' [it [Hrun Hfind]]].
  destruct (find_by_name_In _ _ _ Hf) as [Hin _].
  exists w'. eexists. split; [exact Hrun|]. split; [exact Hfind|].
  assert (Hq : currentQuantity
                 (Prisma.apply_update (ImportRoute.update_data row e) it)
               = (if coerced =? 0 then currentQuantity e else coerced)).
  { simpl. unfold Parsed.currentQuantity. rewrite Hraw. reflexivity. }
  split; [exact Hq|].
  assert (Hnone : cell = None ->
                  currentQuantity
                    (Prisma.apply_update (ImportRoute.update_data row e) it)
                  = currentQuantity e).
  { intros Hcell. rewrite Hq. unfold coerced. rewrite Hcell. reflexivity. }
  split; [|split; [exact Hnone|]].
  - intros Hh. apply Hnone. now apply no_header_no_cell.
  - intros Hnan. rewrite Hq. unfold coerced. now rewrite Hnan.
Qed.

(** A stock of 50 stays 50 under a quantity cell of 0, under a missing
    quantity cell and under one that is not a number, and becomes 12 under
    a cell of 12. *)
Lemma quantity_after_update_witness :
  let after row q :=
    exists w' e',
      @ImportRoute.process_row no_faults IsoHost.host row Sample.start
      = (Ok true, w')
      /\ Prisma.find_by_id 1 (store w') = Some e'
      /\ currentQuantity e' = q in
  after Sample.qty_zero 50 /\ after Sample.qty_blank 50
  /\ after Sample.qty_text 50 /\ after Sample.qty_twelve 12.
Proof.
  assert (Hrow : forall row,
             ~ In "" (JsValue.keys row) ->
             JsValue.truthy
               (Resolution.resolve (Resolution.aliases Resolution.ItemName)
                                   row) = true ->
             Prisma.find_by_name
               (JsValue.String_
                  (Resolution.resolve (Resolution.aliases Resolution.ItemName)
                                      row))
               Sample.shelf = Some Sample.widget ->
             forall q,
               (let cell :=
                  Resolution.resolve
                    (Resolution.aliases Resolution.CurrentQuantity) row in
                let coerced :=
                  match JsNumber.parseInt (JsValue.String_ cell) with
                  | Some z => z
                  | None => 0
                  end in
                (if coerced =? 0 then 50 else coerced) = q) ->
               exists w' e',
                 @ImportRoute.process_row no_faults IsoHost.host row
                   Sample.start = (Ok true, w')
                 /\ Prisma.find_by_id 1 (store w') = Some e'
                 /\ currentQuantity e' = q).
  { intros row Hno Hn Hf q Hq.
    destruct (@quantity_after_update no_faults IsoHost.host row Sample.start
                Sample.widget Hno Hn Hf eq_refl eq_refl)
      as (w' & e' & Hrun & Hfind & Hval & _).
    exists w', e'. split; [exact Hrun|]. split; [exact Hfind|].
    rewrite Hval. exact Hq. }
  repeat split; apply Hrow; try reflexivity;
    simpl; intuition discriminate.
Defined.

(** C1 as stated fails on a row with a column whose header is the empty
    string.  The row below names the widget and has no quantity header, so
    its quantity cell is blank; the handler reads the 7 of the column with
    the empty header as the quantity, and the stock of 50 becomes 7. *)
Lemma quantity_blank_counterexample :
  Resolution.has_header Resolution.CurrentQuantity Sample.widget_stray = false
  /\ Resolution.resolve (Resolution.aliases Resolution.CurrentQuantity)
       Sample.widget_stray = None
  /\ currentQuantity Sample.widget = 50
  /\ exists w' e',
      @ImportRoute.process_row no_faults IsoHost.host Sample.widget_stray
        Sample.start = (Ok true, w')
      /\ Prisma.find_by_id 1 (store w') = Some e'
      /\ currentQuantity e' = 7.
Proof.
  repeat split. eexists. eexists. repeat split.
Qed.

(** C2, as the code has it.  On a row none of whose headers is the empty
    string: when the row names an existing record and the store accepts
    the two calls, the stored status becomes the lower-cased text of the
    status cell exactly when that cell is truthy (a non-empty string, or a
    number other than zero); otherwise (the cell is missing, empty or
    zero) it is the lower-cased status the record had, which is that
    status itself when it already is in lower case. *)
Theorem status_after_update {F : StoreFaults} {P : Platform}
  (row : ExcelRow) (w : World) (e : InventoryItem) :
  ~ In "" (JsValue.keys row) ->
  let name :=
    Resolution.resolve (Resolution.aliases Resolution.ItemName) row in
  JsValue.truthy name = true ->
  Prisma.find_by_name (JsValue.String_ name) (store w) = Some e ->
  fault (calls w) (store w) (FindFirst (JsValue.String_ name)) = None ->
  fault (S (calls w)) (store w)
        (Update (id e) (ImportRoute.update_data row e)) = None ->
  let cell := Resolution.resolve (Resolution.aliases Resolution.Status) row in
  exists w' e',
    ImportRoute.process_row row w = (Ok true, w')
    /\ Prisma.find_by_id (id e) (store w') = Some e'
    /\ status e'
       = (if JsValue.truthy cell
          then JsString.toLowerCase (JsValue.String_ cell)
          else JsString.toLowerCase (status e))
    /\ (JsValue.truthy cell = false ->
        JsString.toLowerCase (status e) = status e ->
        status e' = status e)
    /\ (Resolution.has_header Resolution.Status row = false ->
        status e' = JsString.toLowerCase (status e)).
Proof.
  intros Hno name Hn Hf Hc1 Hc2 cell.
  assert (Hname : Parsed.itemName row = name)
    by exact (proj1 (raw_cells row Hno)).
  rewrite <- Hname in Hn, Hf, Hc1.
  destruct (raw_cells row Hno) as (_ & _ & _ & _ & _ & Hraw).
  destruct (update_effect row w e Hn Hf Hc1 Hc2) as [w' [it [Hrun Hfind]]].
  exists w'. eexists. split; [exact Hrun|]. split; [exact Hfind|].
  simpl. rewrite Hraw. fold cell.
  split; [now destruct (JsValue.truthy cell)|]. split.
  - intros Hfalsy Hlow. now rewrite Hfalsy.
  - intros Hh. assert (Hcell : cell = None) by now apply no_header_no_cell.
    now rewrite Hcell.
Qed.

(** A status cell of [NEW] overwrites a stored [checked] with [new]; an
    empty status cell and a missing one leave it. *)
Lemma status_after_update_witness :
  let after row st :=
    exists w' e',
      @ImportRoute.process_row no_faults IsoHost.host row Sample.start
      = (Ok true, w')
      /\ Prisma.find_by_id 1 (store w') = Some e'
      /\ status e' = st in
  after Sample.status_new "new" /\ after Sample.status_empty "checked"
  /\ after Sample.qty_blank "checked".
Proof.
  assert (Hrow : forall row,
             ~ In "" (JsValue.keys row) ->
             JsValue.truthy
               (Resolution.resolve (Resolution.aliases Resolution.ItemName)
                                   row) = true ->
             Prisma.find_by_name
               (JsValue.String_
                  (Resolution.resolve (Resolution.aliases Resolution.ItemName)
                                      row))
               Sample.shelf = Some Sample.widget ->
             forall st,
               (let cell :=
                  Resolution.resolve (Resolution.aliases Resolution.Status)
                                     row in
                (if JsValue.truthy cell
                 then JsString.toLowerCase (JsValue.String_ cell)
                 else "checked") = st) ->
               exists w' e',
                 @ImportRoute.process_row no_faults IsoHost.host row
                   Sample.start = (Ok true, w')
                 /\ Prisma.find_by_id 1 (store w') = Some e'
                 /\ status e' = st).
  { intros row Hno Hn Hf st Hst.
    destruct (@status_after_update no_faults IsoHost.host row Sample.start
                Sample.widget Hno Hn Hf eq_refl eq_refl)
      as (w' & e' & Hrun & Hfind & Hval & _).
    exists w', e'. split; [exact Hrun|]. split; [exact Hfind|].
    rewrite Hval. exact Hst. }
  repeat split; apply Hrow; try reflexivity;
    simpl; intuition discriminate.
Defined.

(** C2 as stated fails: the two rows below carry a status cell under the
    header [Status] (an empty string, the number 0), yet the stored status
    stays [checked] instead of becoming the lower-cased cell text. *)
Lemma status_presence_counterexample :
  let overwritten row :=
    forall w' e',
      @ImportRoute.process_row no_faults IsoHost.host row Sample.start
      = (Ok true, w') ->
      Prisma.find_by_id 1 (store w') = Some e' ->
      status e' = JsString.toLowerCase (JsValue.String_ (Parsed.statusRaw row)) in
  (Resolution.has_header Resolution.Status Sample.status_empty = true
   /\ Parsed.statusRaw Sample.status_empty = Some (CStr "")
   /\ ~ overwritten Sample.status_empty)
  /\ (Resolution.has_header Resolution.Status Sample.status_zero = true
      /\ Parsed.statusRaw Sample.status_zero = Some (CNum (Dec 0 0))
      /\ ~ overwritten Sample.status_zero).
Proof.
  repeat split; intros H.
  - specialize (H _ _ eq_refl eq_refl). vm_compute in H. discriminate.
  - specialize (H _ _ eq_refl eq_refl). vm_compute in H. discriminate.
Qed.

(** ** Expiry on update *)

(** C8, as the code has it.  On a row none of whose headers is the empty
    string: when the row names an existing record and the store accepts
    the two calls, the stored expiry is the date of the expiry cell if
    that cell gave a valid date, and the expiry the record had otherwise:
    when the expiry cell is missing or falsy, and when it yields an
    invalid date. *)
Theorem expiry_after_update {F : StoreFaults} {P : Platform}
  (row : ExcelRow) (w : World) (e : InventoryItem) :
  ~ In "" (JsValue.keys row) ->
  let name :=
    Resolution.resolve (Resolution.aliases Resolution.ItemName) row in
  JsValue.truthy name = true ->
  Prisma.find_by_name (JsValue.String_ name) (store w) = Some e ->
  fault (calls w) (store w) (FindFirst (JsValue.String_ name)) = None ->
  fault (S (calls w)) (store w)
        (Update (id e) (ImportRoute.update_data row e)) = None ->
  let cell :=
    Resolution.resolve (Resolution.aliases Resolution.ExpiryDate) row in
  let produced :=
    if JsValue.truthy cell then
      match cell with
      | Some (CNum n) => Some (Parsed.serial_date n)
      | raw => Some (Date_of_string (JsValue.String_ raw))
      end
    else None in
  exists w' e',
    ImportRoute.process_row row w = (Ok true, w')
    /\ Prisma.find_by_id (id e) (store w') = Some e'
    /\ (forall t, produced = Some (DateMs t) -> expiryDate e' = Some t)
    /\ (Resolution.has_header Resolution.ExpiryDate row = false ->
        expiryDate e' = expiryDate e)
    /\ (JsValue.truthy cell = false -> expiryDate e' = expiryDate e)
    /\ (produced = Some InvalidDate -> expiryDate e' = expiryDate e)
    /\ (expiryDate e' <> expiryDate e ->
        exists t, produced = Some (DateMs t)).
Proof.
  intros Hno name Hn Hf Hc1 Hc2 cell produced.
  assert (Hname : Parsed.itemName row = name)
    by exact (proj1 (raw_cells row Hno)).
  rewrite <- Hname in Hn, Hf, Hc1.
  destruct (raw_cells row Hno) as (_ & _ & _ & _ & Hraw & _).
  destruct (update_effect row w e Hn Hf Hc1 Hc2) as [w' [it [Hrun Hfind]]].
  assert (Hprod : Parsed.expiryDate row = produced).
  { unfold Parsed.expiryDate, produced, cell. rewrite Hraw.
    destruct (Resolution.resolve (Resolution.aliases Resolution.ExpiryDate)
                                 row) as [[s|s]|]; reflexivity. }
  exists w'. eexists. split; [exact Hrun|]. split; [exact Hfind|].
  simpl. rewrite Hprod.
  assert (Hfalsy : JsValue.truthy cell = false ->
                   ImportRoute.valid_or produced (expiryDate e) = expiryDate e).
  { intros Ht. unfold produced. now rewrite Ht. }
  split; [|split; [|split; [exact Hfalsy|split]]].
  - intros t Ht. now rewrite Ht.
  - intros Hh. apply Hfalsy.
    assert (Hcell : cell = None) by now apply no_header_no_cell.
    now rewrite Hcell.
  - intros Hinv. now rewrite Hinv.
  - intros Hne. destruct produced as [[t|]|]; simpl in Hne.
    + now exists t.
    + contradiction.
    + contradiction.
Qed.

(** An expiry of 2025-01-01 survives a row whose expiry cell does not
    parse and a row without an expiry cell; the serial 45000 replaces
    it. *)
Lemma expiry_after_update_witness :
  IsoHost.parse "2025-01-01" = DateMs 1735689600000
  /\ (exists w' e',
         @ImportRoute.process_row no_faults IsoHost.host Sample.expiry_garbage
           Sample.start = (Ok true, w')
         /\ Prisma.find_by_id 1 (store w') = Some e'
         /\ expiryDate e' = Some 1735689600000)
  /\ (exists w' e',
         @ImportRoute.process_row no_faults IsoHost.host Sample.qty_blank
           Sample.start = (Ok true, w')
         /\ Prisma.find_by_id 1 (store w') = Some e'
         /\ expiryDate e' = Some 1735689600000)
  /\ (exists w' e',
         @ImportRoute.process_row no_faults IsoHost.host Sample.widget_serial
           Sample.start = (Ok true, w')
         /\ Prisma.find_by_id 1 (store w') = Some e'
         /\ expiryDate e' = Some 1678838400000).
Proof.
  split; [reflexivity|]. split; [|split].
  - destruct (@expiry_after_update no_faults IsoHost.host
                Sample.expiry_garbage Sample.start Sample.widget)
      as (w' & e' & Hrun & Hfind & _ & _ & _ & Hinv & _);
      try reflexivity; [simpl; intuition discriminate|].
    exists w', e'. split; [exact Hrun|]. split; [exact Hfind|].
    exact (Hinv eq_refl).
  - destruct (@expiry_after_update no_faults IsoHost.host
                Sample.qty_blank Sample.start Sample.widget)
      as (w' & e' & Hrun & Hfind & _ & Hmiss & _);
      try reflexivity; [simpl; intuition discriminate|].
    exists w', e'. split; [exact Hrun|]. split; [exact Hfind|].
    exact (Hmiss eq_refl).
  - destruct (@expiry_after_update no_faults IsoHost.host
                Sample.widget_serial Sample.start Sample.widget)
      as (w' & e' & Hrun & Hfind & Hdate & _);
      try reflexivity; [simpl; intuition discriminate|].
    exists w', e'. split; [exact Hrun|]. split; [exact Hfind|].
    apply Hdate. vm_compute. reflexivity.
Defined.

(** C8 as stated fails on a row with a column whose header is the empty
    string.  The row below names the widget and has no expiry header, so
    its expiry cell is absent; the handler reads the 7 of the column with
    the empty header as a date serial, and the expiry 2025-01-01 becomes
    1900-01-06. *)
Lemma expiry_absent_counterexample :
  Resolution.has_header Resolution.ExpiryDate Sample.widget_stray = false
  /\ Resolution.resolve (Resolution.aliases Resolution.ExpiryDate)
       Sample.widget_stray = None
  /\ expiryDate Sample.widget = Some 1735689600000
  /\ (7 - 25569) * 86400 * 1000 = -2208556800000
  /\ exists w' e',
      @ImportRoute.process_row no_faults IsoHost.host Sample.widget_stray
        Sample.start = (Ok true, w')
      /\ Prisma.find_by_id 1 (store w') = Some e'
      /\ expiryDate e' = Some (-2208556800000).
Proof.
  repeat split. eexists. eexists. repeat split.
Qed.

(** ** Creation *)

(** C7, as the code has it.  On a row none of whose headers is the empty
    string: when the row names no existing record and the store accepts
    the two calls, one record is appended.  Its name is the text of the
    name cell, its price and quantity are the coerced cells (zero
    included), its unit is the text of the unit cell when that cell is
    truthy and the empty string otherwise, its expiry is the date of the
    expiry cell if that gave a valid date and null otherwise, and its
    status is the lower-cased text of the status cell when that cell is
    truthy and [not yet] otherwise: a unit or status cell that is empty or
    the number zero is defaulted like a missing one. *)
Theorem created_record {F : StoreFaults} {P : Platform}
  (row : ExcelRow) (w : World) :
  ~ In "" (JsValue.keys row) ->
  let name :=
    Resolution.resolve (Resolution.aliases Resolution.ItemName) row in
  JsValue.truthy name = true ->
  Prisma.find_by_name (JsValue.String_ name) (store w) = None ->
  fault (calls w) (store w) (FindFirst (JsValue.String_ name)) = None ->
  fault (S (calls w)) (store w)
        (Create (ImportRoute.create_data row)) = None ->
  let cell f := Resolution.resolve (Resolution.aliases f) row in
  exists w' n,
    ImportRoute.process_row row w = (Ok true, w')
    /\ items (store w') = (items (store w) ++ [n])%list
    /\ id n = nextId (store w)
    /\ itemName n = JsValue.String_ (cell Resolution.ItemName)
    /\ sellingPrice n
       = JsNumber.or_zero
           (JsNumber.parseFloat (JsValue.String_ (cell Resolution.SellingPrice)))
    /\ currentQuantity n
       = match JsNumber.parseInt
                 (JsValue.String_ (cell Resolution.CurrentQuantity)) with
         | Some z => z
         | None => 0
         end
    /\ unitType n
       = Some (if JsValue.truthy (cell Resolution.UnitType)
               then JsValue.String_ (cell Resolution.UnitType) else "")
    /\ expiryDate n
       = (if JsValue.truthy (cell Resolution.ExpiryDate) then
            match cell Resolution.ExpiryDate with
            | Some (CNum s) =>
                match Parsed.serial_date s with
                | DateMs t => Some t
                | InvalidDate => None
                end
            | raw =>
                match Date_of_string (JsValue.String_ raw) with
                | DateMs t => Some t
                | InvalidDate => None
                end
            end
          else None)
    /\ status n
       = JsString.toLowerCase
           (if JsValue.truthy (cell Resolution.Status)
            then JsValue.String_ (cell Resolution.Status) else "not yet")
    /\ (Resolution.has_header Resolution.Status row = false ->
        status n = "not yet")
    /\ (Resolution.has_header Resolution.UnitType row = false ->
        unitType n = Some "").
Proof.
  intros Hno name Hn Hf Hc1 Hc2 cell.
  assert (Hname : Parsed.itemName row = name)
    by exact (proj1 (raw_cells row Hno)).
  rewrite <- Hname in Hn, Hf, Hc1.
  destruct (raw_cells row Hno) as (_ & Hprice & Hqty & Hunit & Hexp & Hst).
  eexists. exists (Prisma.new_item (nextId (store w)) (ImportRoute.create_data row)).
  split; [apply process_row_create; assumption|].
  assert (Hstatus : status (Prisma.new_item (nextId (store w))
                                            (ImportRoute.create_data row))
                    = JsString.toLowerCase
                        (if JsValue.truthy (cell Resolution.Status)
                         then JsValue.String_ (cell Resolution.Status)
                         else "not yet")).
  { simpl. unfold Parsed.status, cell. rewrite Hst.
    destruct (JsValue.truthy
                (Resolution.resolve (Resolution.aliases Resolution.Status)
                                    row)); reflexivity. }
  assert (Hu : unitType (Prisma.new_item (nextId (store w))
                                         (ImportRoute.create_data row))
               = Some (if JsValue.truthy (cell Resolution.UnitType)
                       then JsValue.String_ (cell Resolution.UnitType)
                       else "")).
  { simpl. rewrite Hunit. reflexivity. }
  split; [reflexivity|]. split; [reflexivity|].
  split; [simpl; now rewrite Hname|].
  split; [simpl; unfold Parsed.sellingPrice; now rewrite Hprice|].
  split; [simpl; unfold Parsed.currentQuantity; now rewrite Hqty|].
  split; [exact Hu|].
  split.
  { simpl. unfold Parsed.expiryDate, cell. rewrite Hexp.
    destruct (Resolution.resolve (Resolution.aliases Resolution.ExpiryDate)
                                 row) as [[s|s]|].
    - destruct (JsValue.truthy (Some (CStr s))); reflexivity.
    - destruct (JsValue.truthy (Some (CNum s))); reflexivity.
    - reflexivity. }
  split; [exact Hstatus|]. split.
  - intros Hh. rewrite Hstatus. unfold cell.
    now rewrite (no_header_no_cell _ _ Hh).
  - intros Hh. rewrite Hu. unfold cell.
    now rewrite (no_header_no_cell _ _ Hh).
Qed.

(** A new name with price cell ["19.99"] and quantity cell ["3"] gives a
    record with price 19.99, quantity 3 and status [not yet]; with a unit
    cell [Box], an expiry cell 45000 and a status cell [NEW] besides, the
    record has the unit [Box], the expiry 2023-03-15 and the status
    [new]. *)
Lemma created_record_witness :
  (exists w',
      @ImportRoute.process_row no_faults IsoHost.host Sample.gadget Sample.start
      = (Ok true, w')
      /\ items (store w')
         = [Sample.widget;
            {| id := 2; itemName := "Gadget"; sellingPrice := Dec 1999 (-2);
               currentQuantity := 3; unitType := Some "";
               expiryDate := None; status := "not yet" |}])
  /\ (exists w',
         @ImportRoute.process_row no_faults IsoHost.host Sample.gadget_full
           Sample.start = (Ok true, w')
         /\ items (store w')
            = [Sample.widget;
               {| id := 2; itemName := "Gadget"; sellingPrice := Dec 1999 (-2);
                  currentQuantity := 3; unitType := Some "Box";
                  expiryDate := Some 1678838400000; status := "new" |}]).
Proof.
  assert (Hrow : forall row,
             ~ In "" (JsValue.keys row) ->
             JsValue.truthy
               (Resolution.resolve (Resolution.aliases Resolution.ItemName)
                                   row) = true ->
             Prisma.find_by_name
               (JsValue.String_
                  (Resolution.resolve (Resolution.aliases Resolution.ItemName)
                                      row))
               Sample.shelf = None ->
             forall r,
               (let cell f := Resolution.resolve (Resolution.aliases f) row in
                r = {| id := 2;
                       itemName := JsValue.String_ (cell Resolution.ItemName);
                       sellingPrice :=
                         JsNumber.or_zero
                           (JsNumber.parseFloat
                              (JsValue.String_ (cell Resolution.SellingPrice)));
                       currentQuantity :=
                         match JsNumber.parseInt
                                 (JsValue.String_
                                    (cell Resolution.CurrentQuantity)) with
                         | Some z => z
                         | None => 0
                         end;
                       unitType :=
                         Some (if JsValue.truthy (cell Resolution.UnitType)
                               then JsValue.String_ (cell Resolution.UnitType)
                               else "");
                       expiryDate :=
                         (if JsValue.truthy (cell Resolution.ExpiryDate) then
                            match cell Resolution.ExpiryDate with
                            | Some (CNum s) =>
                                match Parsed.serial_date s with
                                | DateMs t => Some t
                                | InvalidDate => None
                                end
                            | raw =>
                                match IsoHost.parse (JsValue.String_ raw) with
                                | DateMs t => Some t
                                | InvalidDate => None
                                end
                            end
                          else None);
                       status :=
                         JsString.toLowerCase
                           (if JsValue.truthy (cell Resolution.Status)
                            then JsValue.String_ (cell Resolution.Status)
                            else "not yet") |}) ->
               exists w',
                 @ImportRoute.process_row no_faults IsoHost.host row
                   Sample.start = (Ok true, w')
                 /\ items (store w') = [Sample.widget; r]).
  { intros row Hno Hn Hf r Hr.
    destruct (@created_record no_faults IsoHost.host row Sample.start
                Hno Hn Hf eq_refl eq_refl)
      as (w' & n & Hrun & Hitems & Hid & H1 & H2 & H3 & H4 & H5 & H6 & _).
    exists w'. split; [exact Hrun|]. rewrite Hitems. simpl. do 2 f_equal.
    cbv zeta in Hr. rewrite Hr. destruct n. simpl in *.
    now subst. }
  split; apply Hrow; try reflexivity; simpl; intuition discriminate.
Defined.

(** C7 as stated fails: the row below has a unit cell and a status cell,
    both the number 0, and the record is created with the empty unit and
    the status [not yet], not with the texts of the cells. *)
Lemma created_defaults_counterexample :
  Resolution.resolve (Resolution.aliases Resolution.UnitType)
    Sample.gadget_falsy = Some (CNum (Dec 0 0))
  /\ Resolution.resolve (Resolution.aliases Resolution.Status)
       Sample.gadget_falsy = Some (CNum (Dec 0 0))
  /\ JsValue.String_ (Some (CNum (Dec 0 0))) = "0"
  /\ exists w' n,
      @ImportRoute.process_row no_faults IsoHost.host Sample.gadget_falsy
        Sample.start = (Ok true, w')
      /\ items (store w') = [Sample.widget; n]
      /\ unitType n = Some ""
      /\ status n = "not yet".
Proof.
  repeat split. eexists. eexists. repeat split.
Qed.

(** ** Date serials *)

Section Binary64.
Import JsNumber JsArith.

(** An integer below [2^53] in absolute value is a binary64 number. *)
Lemma nearest_small (p : Z) :
  0 < p < 2 ^ 53 ->
  nearest p 1
  = Some (p * 2 ^ (52 - Z.log2 p), Z.log2 p - 52).
Proof.
  intros Hp.
  assert (HL : 0 <= Z.log2 p < 53).
  { split; [apply Z.log2_nonneg|]. apply Z.log2_lt_pow2; lia. }
  destruct (Z.log2_spec p ltac:(lia)) as [Hlo Hhi].
  set (k := 52 - Z.log2 p).
  assert (Hk : 0 <= k) by (unfold k; lia).
  assert (Hpk : 2 ^ 52 <= p * 2 ^ k).
  { replace (2 ^ 52) with (2 ^ Z.log2 p * 2 ^ k)
      by (rewrite <- Z.pow_add_r by lia; f_equal; unfold k; lia).
    apply Z.mul_le_mono_nonneg_r; [apply Z.pow_nonneg|]; lia. }
  assert (H2k : 0 < 2 ^ k) by (apply Z.pow_pos_nonneg; lia).
  unfold nearest. rewrite Z.log2_1.
  replace (Z.log2 p - 0 - 52) with (- k) by (unfold k; lia).
  assert (Hs : scaled p 1 (- k) = (p * 2 ^ k, 1)).
  { unfold scaled. destruct (0 <=? - k) eqn:E.
    - apply Z.leb_le in E. assert (k = 0) by lia. subst k.
      replace (- (52 - Z.log2 p)) with 0 by lia.
      replace (52 - Z.log2 p) with 0 by lia.
      change (2 ^ 0) with 1. f_equal; lia.
    - now rewrite Z.opp_involutive. }
  rewrite Hs. cbv beta iota zeta.
  rewrite Z.div_1_r.
  assert (E1 : (p * 2 ^ k <? 2 ^ 52) = false) by (apply Z.ltb_ge; lia).
  rewrite E1.
  replace (Z.max (- k) (-1074)) with (- k) by lia.
  rewrite Hs. cbv beta iota zeta.
  rewrite Z.div_1_r, Z.mod_1_r.
  change (2 * 0 <? 1) with true. cbv beta iota.
  replace (Z.log2 p - 52) with (- k) by (unfold k; lia).
  destruct (0 <=? - k) eqn:E; [|reflexivity].
  apply Z.leb_le in E. assert (Hk0 : k = 0) by lia.
  rewrite Hk0. change (- 0) with 0. change (2 ^ 0) with 1.
  rewrite !Z.mul_1_r.
  assert (E2 : (2 ^ 1024 <=? p) = false).
  { apply Z.leb_gt. apply Z.lt_trans with (2 ^ 53); [lia|].
    apply Z.pow_lt_mono_r; lia. }
  now rewrite E2.
Qed.

Lemma to_decimal_small (neg : bool) (p : Z) :
  0 < p < 2 ^ 53 ->
  to_decimal neg (p * 2 ^ (52 - Z.log2 p)) (Z.log2 p - 52)
  = Dec (signed neg p) 0.
Proof.
  intros Hp.
  assert (HL : 0 <= Z.log2 p < 53).
  { split; [apply Z.log2_nonneg|]. apply Z.log2_lt_pow2; lia. }
  set (k := 52 - Z.log2 p).
  assert (Hk : 0 <= k) by (unfold k; lia).
  assert (H2k : 0 < 2 ^ k) by (apply Z.pow_pos_nonneg; lia).
  replace (Z.log2 p - 52) with (- k) by (unfold k; lia).
  unfold to_decimal. destruct (0 <=? - k) eqn:E.
  - apply Z.leb_le in E. assert (Hk0 : k = 0) by lia.
    rewrite Hk0. change (- 0) with 0. change (2 ^ 0) with 1.
    now rewrite !Z.mul_1_r.
  - rewrite Z.opp_involutive.
    rewrite Z.mod_mul by lia. rewrite Z.eqb_refl.
    rewrite Z.div_mul by lia. reflexivity.
Qed.

Lemma signed_abs (z : Z) : signed (z <? 0) (Z.abs z) = z.
Proof.
  unfold signed. destruct (z <? 0) eqn:E.
  - apply Z.ltb_lt in E. lia.
  - apply Z.ltb_ge in E. lia.
Qed.

Lemma abs_signed (neg : bool) (z : Z) : Z.abs (signed neg z) = Z.abs z.
Proof. unfold signed. destruct neg; lia. Qed.

Lemma binary64_int (z : Z) :
  Z.abs z < 2 ^ 53 -> binary64 (Dec z 0) = Dec z 0.
Proof.
  intros Hz. unfold binary64.
  destruct (z =? 0) eqn:E0.
  - apply Z.eqb_eq in E0. now subst.
  - apply Z.eqb_neq in E0.
    change (0 <=? 0) with true. cbv iota.
    change (pow10 0) with 1. rewrite Z.mul_1_r.
    rewrite nearest_small by lia.
    rewrite to_decimal_small by lia.
    now rewrite signed_abs.
Qed.

(** An integer from [2^53] on is rounded to an integer from [2^53] on,
    or lies beyond the binary64 numbers. *)
Lemma nearest_large (p : Z) :
  2 ^ 53 <= p ->
  nearest p 1 = None
  \/ exists M t, nearest p 1 = Some (M, t) /\ 0 < t /\ 2 ^ 52 <= M.
Proof.
  intros Hp.
  assert (Hpos : 0 < p) by (assert (0 < 2 ^ 53) by reflexivity; lia).
  assert (HL : 53 <= Z.log2 p).
  { apply Z.log2_le_pow2; lia. }
  destruct (Z.log2_spec p Hpos) as [Hlo Hhi].
  set (t := Z.log2 p - 52).
  assert (Ht : 0 < t) by (unfold t; lia).
  assert (H2t : 0 < 2 ^ t) by (apply Z.pow_pos_nonneg; lia).
  assert (Hq : 2 ^ 52 <= p / 2 ^ t).
  { apply Z.div_le_lower_bound; [lia|].
    replace (2 ^ t * 2 ^ 52) with (2 ^ Z.log2 p); [lia|].
    rewrite <- Z.pow_add_r by lia. f_equal. unfold t. lia. }
  unfold nearest. rewrite Z.log2_1.
  replace (Z.log2 p - 0 - 52) with t by (unfold t; lia).
  assert (Hs : scaled p 1 t = (p, 2 ^ t)).
  { unfold scaled. destruct (0 <=? t) eqn:E.
    - now rewrite Z.mul_1_l.
    - apply Z.leb_gt in E. lia. }
  rewrite Hs. cbv beta iota zeta.
  assert (E1 : (p / 2 ^ t <? 2 ^ 52) = false) by (apply Z.ltb_ge; lia).
  rewrite E1.
  replace (Z.max t (-1074)) with t by lia.
  rewrite Hs. cbv beta iota zeta.
  match goal with
  | |- (if ?c then None else Some (?M, t)) = None \/ _ =>
      destruct c; [now left|];
      right; exists M, t; split; [reflexivity|]; split; [exact Ht|]
  end.
  destruct (2 * (p mod 2 ^ t) <? 2 ^ t); [exact Hq|].
  destruct (2 ^ t <? 2 * (p mod 2 ^ t)); [lia|].
  destruct (Z.even (p / 2 ^ t)); lia.
Qed.

Lemma beyond_le (B B' : Z) (x : number) :
  B' <= B -> beyond B x -> beyond B' x.
Proof.
  intros HB. destruct x as [|neg|z e]; simpl; [tauto|tauto|].
  intros [He Hz]. split; [exact He | lia].
Qed.

Lemma binary64_beyond (B : Z) (x : number) :
  0 < B <= 2 ^ 53 -> beyond B x -> beyond B (binary64 x).
Proof.
  intros HB. destruct x as [|neg|z e]; simpl; [tauto|tauto|].
  intros [He Hz]. subst e.
  destruct (Z_lt_le_dec (Z.abs z) (2 ^ 53)) as [Hs|Hl].
  - fold (binary64 (Dec z 0)). rewrite binary64_int by exact Hs.
    simpl. split; [reflexivity | exact Hz].
  - destruct (z =? 0) eqn:E0; [apply Z.eqb_eq in E0; lia|].
    change (0 <=? 0) with true. cbv iota.
    change (pow10 0) with 1. rewrite Z.mul_1_r.
    destruct (nearest_large (Z.abs z) Hl) as [Hn|[M [t [Hn [Ht HM]]]]];
      rewrite Hn; [exact I|].
    unfold to_decimal.
    assert (E : (0 <=? t) = true) by (apply Z.leb_le; lia).
    rewrite E. simpl. split; [reflexivity|].
    rewrite abs_signed.
    assert (H2 : 2 <= 2 ^ t).
    { change 2 with (2 ^ 1) at 1. apply Z.pow_le_mono_r; lia. }
    assert (2 ^ 53 <= M * 2 ^ t).
    { change (2 ^ 53) with (2 ^ 52 * 2). apply Z.mul_le_mono_nonneg; lia. }
    lia.
Qed.

(** A decimal with a non-negative exponent is read as the integer it
    stands for. *)
Lemma binary64_whole (m e : Z) :
  0 <= e -> binary64 (Dec m e) = binary64 (Dec (m * pow10 e) 0).
Proof.
  intros He. unfold binary64.
  assert (Hp : 0 < pow10 e) by (apply Z.pow_pos_nonneg; lia).
  assert (E : (0 <=? e) = true) by (apply Z.leb_le; lia).
  rewrite E. change (0 <=? 0) with true. cbv iota.
  change (pow10 0) with 1. rewrite Z.mul_1_r.
  destruct (m =? 0) eqn:E0.
  - apply Z.eqb_eq in E0. subst m. reflexivity.
  - apply Z.eqb_neq in E0.
    assert (E1 : (m * pow10 e =? 0) = false) by (apply Z.eqb_neq; nia).
    rewrite E1.
    assert (E2 : (m * pow10 e <? 0) = (m <? 0)).
    { destruct (m <? 0) eqn:Em.
      - apply Z.ltb_lt in Em. apply Z.ltb_lt. nia.
      - apply Z.ltb_ge in Em. apply Z.ltb_ge. nia. }
    rewrite E2, Z.abs_mul, (Z.abs_eq (pow10 e)) by lia.
    reflexivity.
Qed.

Lemma minus_int (a b : Z) : minus (Dec a 0) (Dec b 0) = Dec (a - b) 0.
Proof.
  unfold minus. change (Z.min 0 0) with 0. change (0 - 0) with 0.
  change (pow10 0) with 1. now rewrite !Z.mul_1_r.
Qed.

Lemma times_int (a b : Z) : times (Dec a 0) (Dec b 0) = Dec (a * b) 0.
Proof. reflexivity. Qed.

Lemma minus_beyond (B b : Z) (x : number) :
  0 <= b -> beyond B x -> beyond (B - b) (minus x (Dec b 0)).
Proof.
  intros Hb. destruct x as [|neg|z e]; simpl; [tauto|tauto|].
  intros [He Hz]. subst e. change (Z.min 0 0) with 0. change (0 - 0) with 0.
  change (pow10 0) with 1. rewrite !Z.mul_1_r.
  split; [reflexivity | lia].
Qed.

Lemma times_beyond (B b : Z) (x : number) :
  0 < B -> 0 < b -> beyond B x -> beyond (B * b) (times x (Dec b 0)).
Proof.
  intros HB Hb. destruct x as [|neg|z e]; simpl; [tauto| |].
  - intros _. destruct (b =? 0) eqn:E; [apply Z.eqb_eq in E; lia|exact I].
  - intros [He Hz]. subst e. split; [reflexivity|].
    rewrite Z.abs_mul, (Z.abs_eq b) by lia.
    apply Z.mul_le_mono_nonneg_r; lia.
Qed.

(** The date of a whole serial: the exact product while it is a time
    value, the invalid date beyond. *)
Lemma serial_date_int (z : Z) :
  (Z.abs (z - 25569) <= 100000000 ->
   Parsed.serial_date (Dec z 0) = DateMs ((z - 25569) * 86400 * 1000))
  /\ (100000000 < Z.abs (z - 25569) ->
      Parsed.serial_date (Dec z 0) = InvalidDate).
Proof.
  assert (H53 : 2 ^ 53 = 9007199254740992) by reflexivity.
  unfold Parsed.serial_date, sub, mul, of_Z.
  rewrite (binary64_int 25569), (binary64_int 86400), (binary64_int 1000)
    by (rewrite H53; simpl; lia).
  split; intros Hd.
  - rewrite (binary64_int z) by lia.
    rewrite minus_int.
    rewrite !(binary64_int (z - 25569)) by lia.
    rewrite times_int.
    rewrite !(binary64_int ((z - 25569) * 86400)) by lia.
    rewrite times_int.
    rewrite (binary64_int ((z - 25569) * 86400 * 1000)) by lia.
    unfold Math_round, JsDateOps.of_number.
    change (0 <=? 0) with true. cbv iota.
    change (pow10 0) with 1. rewrite !Z.mul_1_r.
    unfold JsDateOps.time_clip, JsDateOps.max_time.
    change (0 <=? 0) with true. cbv iota.
    assert (E : (Z.abs ((z - 25569) * 86400 * 1000) <=? 8640000000000000)
                = true) by (apply Z.leb_le; lia).
    now rewrite E.
  - assert (Hsub : beyond 100000001
                     (minus (binary64 (Dec z 0)) (Dec 25569 0))).
    { destruct (Z_lt_le_dec (Z.abs z) (2 ^ 53)) as [Hs|Hl].
      - rewrite binary64_int by exact Hs. rewrite minus_int.
        simpl. split; [reflexivity | lia].
      - apply beyond_le with (B := 2 ^ 53 - 25569); [lia|].
        apply minus_beyond; [lia|].
        apply binary64_beyond; [lia|].
        simpl. split; [reflexivity | lia]. }
    assert (Hfinal :
              beyond 8640000086400000
                (binary64
                   (times
                      (binary64
                         (binary64
                            (times
                               (binary64
                                  (binary64
                                     (minus (binary64 (Dec z 0))
                                            (Dec 25569 0))))
                               (Dec 86400 0))))
                      (Dec 1000 0)))).
    { apply binary64_beyond; [lia|].
      change 8640000086400000 with (8640000086400 * 1000).
      apply times_beyond; [lia|lia|].
      do 2 (apply binary64_beyond; [lia|]).
      change 8640000086400 with (100000001 * 86400).
      apply times_beyond; [lia|lia|].
      do 2 (apply binary64_beyond; [lia|]).
      exact Hsub. }
    destruct (binary64 (times _ (Dec 1000 0))) as [|neg|t e];
      simpl in Hfinal; [contradiction|reflexivity|].
    destruct Hfinal as [He Ht]. subst e.
    unfold Math_round, JsDateOps.of_number.
    change (0 <=? 0) with true. cbv iota.
    change (pow10 0) with 1. rewrite !Z.mul_1_r.
    unfold JsDateOps.time_clip, JsDateOps.max_time.
    change (0 <=? 0) with true. cbv iota.
    assert (E : (Z.abs t <=? 8640000000000000) = false)
      by (apply Z.leb_gt; lia).
    now rewrite E.
Qed.

Lemma serial_date_whole (m e : Z) :
  0 <= e ->
  Parsed.serial_date (Dec m e) = Parsed.serial_date (Dec (m * 10 ^ e) 0).
Proof.
  intros He. unfold Parsed.serial_date, sub.
  now rewrite (binary64_whole m e He).
Qed.

End Binary64.

(** C9, as the code has it.  A numeric expiry cell of 0 gives no date.  A
    numeric expiry cell holding a whole number [s] other than 0 gives the
    date [(s - 25569) * 86400] seconds after 1970-01-01 exactly, as long
    as that is a time value (at most 100,000,000 days from the epoch), and
    an invalid date beyond. *)
Theorem serial_expiry {P : Platform} (row : ExcelRow) (m e : Z) :
  Resolution.resolve (Resolution.aliases Resolution.ExpiryDate) row
  = Some (CNum (Dec m e)) ->
  (m = 0 -> Parsed.expiryDate row = None)
  /\ (m <> 0 -> 0 <= e ->
      let days := m * 10 ^ e - 25569 in
      (Z.abs days <= 100000000 ->
       Parsed.expiryDate row = Some (DateMs (days * 86400 * 1000)))
      /\ (100000000 < Z.abs days ->
          Parsed.expiryDate row = Some InvalidDate)).
Proof.
  intros Hres.
  assert (Hraw : Parsed.expiryDateRaw row = Some (CNum (Dec m e)))
    by exact (read_resolved Resolution.ExpiryDate row _ Hres).
  unfold Parsed.expiryDate. rewrite Hraw.
  cbn [JsValue.truthy JsNumber.truthy]. split.
  - intros ->. reflexivity.
  - intros Hm He. apply Z.eqb_neq in Hm. rewrite Hm.
    cbn [negb]. rewrite (serial_date_whole m e He).
    destruct (serial_date_int (m * 10 ^ e)) as [Hin Hout].
    split; intros Hd.
    + now rewrite (Hin Hd).
    + now rewrite (Hout Hd).
Qed.

(** A numeric expiry cell of 45000 gives 1970-01-01 plus 45000 - 25569
    days; a cell of 0 gives no date. *)
Lemma serial_expiry_witness :
  @Parsed.expiryDate IsoHost.host Sample.expiry_zero = None
  /\ @Parsed.expiryDate IsoHost.host Sample.expiry_serial
     = Some (DateMs ((45000 - 25569) * 86400 * 1000)).
Proof.
  split.
  - exact (proj1 (@serial_expiry IsoHost.host Sample.expiry_zero 0 0 eq_refl)
                 eq_refl).
  - apply (proj2 (@serial_expiry IsoHost.host Sample.expiry_serial 45000 0
                    eq_refl)); [discriminate | lia | simpl; lia].
Defined.

(** C9 as stated fails.  A numeric cell of 0 gives no date, not the date
    25569 days before the epoch.  A serial out of range gives an invalid
    date.  The serial 45000.0072407581, which has a time of day, gives the
    time value 1678839025602, which is neither the stated product nor the
    integer nearest to it (1678839025601): the subtraction and the
    products are rounded to binary64. *)
Lemma serial_expiry_counterexample :
  (Resolution.resolve (Resolution.aliases Resolution.ExpiryDate)
     Sample.expiry_zero = Some (CNum (Dec 0 0))
   /\ @Parsed.expiryDate IsoHost.host Sample.expiry_zero = None
   /\ @Parsed.expiryDate IsoHost.host Sample.expiry_zero
      <> Some (DateMs ((0 - 25569) * 86400 * 1000)))
  /\ @Parsed.expiryDate IsoHost.host Sample.expiry_huge = Some InvalidDate
  /\ (Resolution.resolve (Resolution.aliases Resolution.ExpiryDate)
        Sample.expiry_time = Some (CNum (Dec 450000072407581 (-10)))
      /\ @Parsed.expiryDate IsoHost.host Sample.expiry_time
         = Some (DateMs 1678839025602)
      /\ let product := (450000072407581 - 25569 * 10 ^ 10) * 86400 * 1000 in
         1678839025602 * 10 ^ 10 <> product
         /\ 10 ^ 10 < 2 * (1678839025602 * 10 ^ 10 - product)).
Proof.
  repeat split; try (vm_compute; reflexivity); vm_compute; discriminate.
Qed.

(** A store that fails at the create of the second row: the update of the
    first row stays, and the caller gets the error. *)
Example import_failure_keeps_commits :
  @ImportRoute.POST Sample.flaky IsoHost.host
    (ImportRoute.Sheet [Sample.qty_twelve; Sample.gadget; Sample.qty_zero])
    Sample.start
  = (ImportRoute.Failed 500 "Failed to import data: connection lost",
     {| store :=
          {| items :=
               [{| id := 1; itemName := "Widget"; sellingPrice := Dec 5 0;
                   currentQuantity := 12; unitType := Some "box";
                   expiryDate := Some 1735689600000; status := "checked" |}];
             nextId := 2 |};
        calls := 4 |}).
Proof. reflexivity. Qed.

(** ** What the write paths store *)

Lemma or_zero_not_NaN (x : number) : JsNumber.isNaN (JsNumber.or_zero x) = false.
Proof.
  unfold JsNumber.or_zero. destruct x as [|b|m e]; simpl; try reflexivity.
  destruct (m =? 0); reflexivity.
Qed.

(** *** The columns of a call of an endpoint *)

Section ColumnFacts.
Context {C : Client}.
Import Columns.

Lemma stored_written {A : Type} (a b : A) : stored (Written a) b -> b = a.
Proof. intros [H|H]; congruence. Qed.

Lemma stored_map {A B : Type} (f : A -> B) (c : Column A) (b : B) :
  stored (map f c) b -> exists a, stored c a /\ b = f a.
Proof.
  unfold stored. destruct c as [|a|a]; simpl; intros [H|H];
    try discriminate; injection H as <-; exists a; auto.
Qed.

Lemma stored_both {A B : Type} (a : Column A) (b : Column B) (p : A * B) :
  stored (both a b) p -> stored a (fst p) /\ stored b (snd p).
Proof.
  unfold stored. destruct a as [|x|x], b as [|y|y]; simpl; intros [H|H];
    try discriminate; injection H as <-; simpl; auto.
Qed.

Lemma stored_text (s x : string) : stored (text (JStr s)) x -> x = s.
Proof. apply stored_written. Qed.

Lemma stored_float (x y : number) :
  finite x = true -> stored (float x) y -> y = x.
Proof. unfold float. intros ->. apply stored_written. Qed.

Lemma stored_int (x : number) (z y : Z) :
  Validate.int x = Some z -> int32 z = true -> stored (int x) y -> y = z.
Proof. unfold int. intros -> ->. apply stored_written. Qed.

Lemma stored_optional_undefined {A : Type} (column : json -> Column A)
  (x : option A) :
  stored (optional column JUndefined) x -> x = None.
Proof. apply stored_written. Qed.

Lemma stored_optional_text (s : string) (x : option string) :
  stored (optional text (JStr s)) x -> x = Some s.
Proof. apply stored_written. Qed.

Lemma stored_date_null (x : option Z) : stored (date None) x -> x = None.
Proof. apply stored_written. Qed.

(** The fields of the [data] of the create endpoint. *)
Lemma create_data_stored {P : Platform} (body : Body) (d : CreateData) :
  stored (ItemsRoute.create_data body) d ->
  stored (text (b_itemName body)) (c_itemName d)
  /\ stored (float (Json.Number (b_sellingPrice body))) (c_sellingPrice d)
  /\ stored (int (Json.Number (b_currentQuantity body))) (c_currentQuantity d)
  /\ stored (nullable_text (ItemsRoute.or_else (b_unitType body) ""))
            (c_unitType d)
  /\ stored (date (ItemsRoute.date_or_null (b_expiryDate body)))
            (c_expiryDate d)
  /\ stored (text (ItemsRoute.or_else (b_status body) "not yet"))
            (c_status d).
Proof.
  unfold ItemsRoute.create_data. intros H.
  apply stored_map in H.
  destruct H as [[name [price [qty [unit [expiry st]]]]] [H ->]].
  apply stored_both in H. destruct H as [H1 H].
  apply stored_both in H. destruct H as [H2 H].
  apply stored_both in H. destruct H as [H3 H].
  apply stored_both in H. destruct H as [H4 H].
  apply stored_both in H. destruct H as [H5 H6].
  simpl in *. auto 10.
Qed.

(** The fields of the [data] of the update endpoint. *)
Lemma update_data_stored {P : Platform} (body : Body) (d : UpdateData) :
  stored (ItemsRoute.update_data body) d ->
  stored (optional text (b_itemName body)) (u_itemName d)
  /\ (exists price,
         u_sellingPrice d = Some price
         /\ stored (float (JsNumber.parseFloat
                             (Json.String_ (b_sellingPrice body)))) price)
  /\ (exists qty,
         u_currentQuantity d = Some qty
         /\ stored (int (ItemsRoute.parseInt_number
                           (Json.String_ (b_currentQuantity body)))) qty)
  /\ stored (optional nullable_text (b_unitType body)) (u_unitType d)
  /\ stored (optional text (b_status body)) (u_status d)
  /\ (exists expiry,
         u_expiryDate d = Some expiry
         /\ stored (date (ItemsRoute.date_or_null (b_expiryDate body)))
                   expiry).
Proof.
  unfold ItemsRoute.update_data. intros H.
  apply stored_map in H.
  destruct H as [[name [price [qty [unit [st expiry]]]]] [H ->]].
  apply stored_both in H. destruct H as [H1 H].
  apply stored_both in H. destruct H as [H2 H].
  apply stored_both in H. destruct H as [H3 H].
  apply stored_both in H. destruct H as [H4 H].
  apply stored_both in H. destruct H as [H5 H6].
  simpl in *. repeat split; eauto.
Qed.


Lemma update_data_typed {P : Platform} (body : Body) :
  ItemsRoute.typed_update body ->
  exists d, ItemsRoute.update_data body = Written d.
Proof.
  intros (Hn & Hp & (z & Hz & H32) & Hu & Hs & Hd).
  unfold ItemsRoute.update_data, float, int, ItemsRoute.parseInt_number.
  rewrite Hp, Hz.
  assert (Hint : Validate.int (JsNumber.of_Z z) = Some z).
  { unfold JsNumber.of_Z, Validate.int. simpl. now rewrite Z.mul_1_r. }
  rewrite Hint, H32.
  destruct (ItemsRoute.date_or_null (b_expiryDate body)) as [[t|]|];
    [| contradiction |];
    destruct Hn as [-> | [name ->]];
    destruct Hu as [-> | [-> | [unit ->]]];
    destruct Hs as [-> | [st ->]]; simpl; eexists; reflexivity.
Qed.

(** An array of integers is an array of keys, whatever the client. *)
Lemma keys_int_keys (elements : list json) (ks : list Z) :
  CollectionRoute.int_keys elements = Some ks -> keys elements = Written ks.
Proof.
  revert ks. induction elements as [|v rest IH]; intros ks; simpl.
  - intros H. now injection H as <-.
  - destruct v as [| |b|n|s]; try discriminate.
    destruct (Validate.int n) as [k|] eqn:Hk; [|discriminate].
    destruct (CollectionRoute.int_keys rest) as [ks'|]; [|discriminate].
    intros H. injection H as <-. rewrite (IH ks' eq_refl).
    unfold key. rewrite Hk. reflexivity.
Qed.

End ColumnFacts.

(** C3, as the code has it.  A record created or updated by the import has
    a lower-case status, a price that is never [NaN] and is zero when the
    price cell does not parse, and the coerced quantity: zero on create
    when the quantity cell does not parse (on update zero keeps the stored
    quantity), and negative only when the cell parses to a negative
    integer; on a row none of whose headers is the empty string a missing
    price or quantity cell is one that does not parse.  The create and
    update endpoints hand the status of the body and its numbers as
    converted by [Number], [parseFloat] and [parseInt] to the client:
    whatever the client, a status that is a text is written as submitted,
    without lower-casing, a finite price and a quantity that is an integer
    of the 32-bit range are written as they are, whatever their sign, and
    with a client that rejects [NaN] a price or quantity that is not a
    number is rejected, not written as zero. *)
Theorem write_paths {C : Client} {P : Platform} (row : ExcelRow)
  (e : InventoryItem) (key : Z) (body : Body) :
  let created := Prisma.new_item key (ImportRoute.create_data row) in
  let updated := Prisma.apply_update (ImportRoute.update_data row e) e in
  let price := JsNumber.parseFloat (JsValue.String_ (Parsed.sellingPriceRaw row)) in
  let quantity := JsNumber.parseInt (JsValue.String_ (Parsed.currentQuantityRaw row)) in
  let cell f := Resolution.resolve (Resolution.aliases f) row in
  (JsString.toLowerCase (status created) = status created
   /\ JsString.toLowerCase (status updated) = status updated)
  /\ (JsNumber.isNaN (sellingPrice created) = false
      /\ JsNumber.isNaN (sellingPrice updated) = false)
  /\ (sellingPrice created = JsNumber.or_zero price
      /\ sellingPrice updated = JsNumber.or_zero price)
  /\ (price = NaN ->
      sellingPrice created = Dec 0 0 /\ sellingPrice updated = Dec 0 0)
  /\ (quantity = None ->
      currentQuantity created = 0
      /\ currentQuantity updated = currentQuantity e)
  /\ (currentQuantity created < 0 ->
      exists z, quantity = Some z /\ z < 0)
  /\ (currentQuantity updated < 0 ->
      currentQuantity e < 0 \/ exists z, quantity = Some z /\ z < 0)
  /\ (~ In "" (JsValue.keys row) ->
      price = JsNumber.parseFloat
                (JsValue.String_ (cell Resolution.SellingPrice))
      /\ quantity = JsNumber.parseInt
                      (JsValue.String_ (cell Resolution.CurrentQuantity))
      /\ (cell Resolution.SellingPrice = None ->
          sellingPrice created = Dec 0 0 /\ sellingPrice updated = Dec 0 0)
      /\ (cell Resolution.CurrentQuantity = None ->
          currentQuantity created = 0
          /\ currentQuantity updated = currentQuantity e))
  /\ (forall d, Columns.stored (ItemsRoute.create_data body) d ->
        (forall s, ItemsRoute.or_else (b_status body) "not yet" = JStr s ->
                   c_status d = s)
        /\ (Columns.finite (Json.Number (b_sellingPrice body)) = true ->
            c_sellingPrice d = Json.Number (b_sellingPrice body))
        /\ (forall z,
              Validate.int (Json.Number (b_currentQuantity body)) = Some z ->
              Columns.int32 z = true ->
              c_currentQuantity d = z))
  /\ (forall d, Columns.stored (ItemsRoute.update_data body) d ->
        (forall s, b_status body = JStr s -> u_status d = Some s)
        /\ (b_status body = JUndefined -> u_status d = None)
        /\ (Columns.finite
              (JsNumber.parseFloat (Json.String_ (b_sellingPrice body)))
            = true ->
            u_sellingPrice d
            = Some (JsNumber.parseFloat (Json.String_ (b_sellingPrice body))))
        /\ (forall z,
              JsNumber.parseInt (Json.String_ (b_currentQuantity body))
              = Some z ->
              Columns.int32 z = true ->
              u_currentQuantity d = Some z))
  /\ (other_float NaN = Rejected ->
      (Json.Number (b_sellingPrice body) = NaN ->
       ItemsRoute.create_data body = Rejected)
      /\ (JsNumber.parseFloat (Json.String_ (b_sellingPrice body)) = NaN ->
          ItemsRoute.update_data body = Rejected))
  /\ (other_int (JNum NaN) = Rejected ->
      (Json.Number (b_currentQuantity body) = NaN ->
       ItemsRoute.create_data body = Rejected)
      /\ (JsNumber.parseInt (Json.String_ (b_currentQuantity body)) = None ->
          ItemsRoute.update_data body = Rejected)).
Proof.
  intros created updated price quantity cell.
  split; [|split; [|split; [|split; [|split; [|split; [|split; [|split;
    [|split; [|split; [|split]]]]]]]]]].
  - split; simpl; apply toLowerCase_idem.
  - split; simpl; apply or_zero_not_NaN.
  - now split.
  - intros Hp. simpl. unfold Parsed.sellingPrice. fold price.
    rewrite Hp. now split.
  - intros Hq. simpl. unfold Parsed.currentQuantity. fold quantity.
    rewrite Hq. now split.
  - simpl. unfold Parsed.currentQuantity. fold quantity.
    destruct quantity as [z|]; intros Hneg; [now exists z | lia].
  - simpl. unfold Parsed.currentQuantity. fold quantity.
    destruct quantity as [z|]; simpl.
    + destruct (z =? 0) eqn:Hz; intros Hneg; [now left|].
      right. now exists z.
    + intros Hneg. now left.
  - intros Hno.
    destruct (raw_cells row Hno) as (_ & Hprice & Hqty & _).
    assert (Hp : price = JsNumber.parseFloat
                           (JsValue.String_ (cell Resolution.SellingPrice)))
      by (unfold price, cell; now rewrite Hprice).
    assert (Hq : quantity
                 = JsNumber.parseInt
                     (JsValue.String_ (cell Resolution.CurrentQuantity)))
      by (unfold quantity, cell; now rewrite Hqty).
    split; [exact Hp|]. split; [exact Hq|]. split.
    + intros Hc. simpl. unfold Parsed.sellingPrice. fold price.
      rewrite Hp, Hc. now split.
    + intros Hc. simpl. unfold Parsed.currentQuantity. fold quantity.
      rewrite Hq, Hc. now split.
  - intros d Hd.
    destruct (create_data_stored body d Hd) as (_ & Hp & Hq & _ & _ & Hs).
    split; [|split].
    + intros s Hst. rewrite Hst in Hs. now apply stored_text.
    + intros Hfin. now apply stored_float.
    + intros z Hz H32. exact (stored_int _ z _ Hz H32 Hq).
  - intros d Hd.
    destruct (update_data_stored body d Hd)
      as (_ & (p & Hp & Hsp) & (q & Hq & Hsq) & _ & Hs & _).
    split; [|split; [|split]].
    + intros s Hst. rewrite Hst in Hs. now apply stored_optional_text.
    + intros Hst. rewrite Hst in Hs.
      now apply (stored_optional_undefined Columns.text).
    + intros Hfin. rewrite Hp. f_equal. now apply stored_float.
    + intros z Hz H32. rewrite Hq. f_equal.
      refine (stored_int _ z q _ H32 Hsq).
      unfold ItemsRoute.parseInt_number. rewrite Hz.
      unfold JsNumber.of_Z, Validate.int. simpl.
      now rewrite Z.mul_1_r.
  - intros Hrej. split; intros Hnan.
    + unfold ItemsRoute.create_data, Columns.float. rewrite Hnan.
      simpl. rewrite Hrej.
      destruct (Columns.text (b_itemName body)); reflexivity.
    + unfold ItemsRoute.update_data, Columns.float. rewrite Hnan.
      simpl. rewrite Hrej.
      destruct (Columns.optional Columns.text (b_itemName body)); reflexivity.
  - intros Hrej. split; intros Hnan.
    + unfold ItemsRoute.create_data, Columns.int. rewrite Hnan.
      simpl. rewrite Hrej.
      destruct (Columns.text (b_itemName body));
        destruct (Columns.float (Json.Number (b_sellingPrice body)));
        reflexivity.
    + unfold ItemsRoute.update_data, Columns.int, ItemsRoute.parseInt_number.
      rewrite Hnan. simpl. rewrite Hrej.
      destruct (Columns.optional Columns.text (b_itemName body));
        destruct (Columns.float _); reflexivity.
Qed.

(** A row with the price cell ["-2.5"] and the quantity cell -5; a body
    with the status ["NEW"], the price -5 and the quantity -3, which is
    written as it is; a body whose price and quantity are ["abc"], which a
    client that rejects what is not of the type of the column rejects. *)
Lemma write_paths_witness :
  let created := Prisma.new_item 2 (@ImportRoute.create_data IsoHost.host
                                      Sample.gadget_negative) in
  status created = "not yet"
  /\ sellingPrice created = Dec (-25) (-1)
  /\ (exists z, JsNumber.parseInt
                  (JsValue.String_
                     (Parsed.currentQuantityRaw Sample.gadget_negative))
                = Some z /\ z < 0)
  /\ (forall d,
         Columns.stored (@ItemsRoute.create_data strict IsoHost.host
                           Sample.body_shout) d ->
         c_status d = "NEW" /\ c_sellingPrice d = Dec (-5) 0
         /\ c_currentQuantity d = -3)
  /\ (forall d,
         Columns.stored (@ItemsRoute.update_data strict IsoHost.host
                           Sample.body_shout) d ->
         u_status d = Some "NEW" /\ u_sellingPrice d = Some (Dec (-5) 0)
         /\ u_currentQuantity d = Some (-3))
  /\ @ItemsRoute.create_data strict IsoHost.host Sample.body_malformed
     = Rejected
  /\ @ItemsRoute.update_data strict IsoHost.host Sample.body_malformed
     = Rejected.
Proof.
  pose proof (@write_paths strict IsoHost.host Sample.gadget_negative
                Sample.widget 2 Sample.body_shout) as H.
  pose proof (@write_paths strict IsoHost.host Sample.gadget_negative
                Sample.widget 2 Sample.body_malformed) as H'.
  cbv zeta in H, H'.
  destruct H as (_ & _ & _ & _ & _ & Hneg & _ & _ & Hcreate & Hupdate & _).
  destruct H' as (_ & _ & _ & _ & _ & _ & _ & _ & _ & _ & Hfloat & _).
  split; [reflexivity|]. split; [reflexivity|].
  split; [apply Hneg; reflexivity|].
  split; [|split; [|split]].
  - intros d Hd. destruct (Hcreate d Hd) as (Hs & Hp & Hq).
    split; [apply Hs; reflexivity|].
    split; [apply Hp; reflexivity | apply Hq; reflexivity].
  - intros d Hd. destruct (Hupdate d Hd) as (Hs & _ & Hp & Hq).
    split; [apply Hs; reflexivity|].
    split; [apply Hp; reflexivity | apply Hq; reflexivity].
  - apply (proj1 (Hfloat eq_refl)). reflexivity.
  - apply (proj2 (Hfloat eq_refl)). reflexivity.
Defined.

(** C3 as stated fails on every write path.  The import stores a negative
    price and a negative quantity on create and on update; the create and
    update endpoints, whatever the client, store the status [NEW] as it
    is, and negative numbers. *)
Lemma write_paths_counterexample :
  (exists w',
      @ImportRoute.POST no_faults IsoHost.host
        (ImportRoute.Sheet [Sample.gadget_negative; Sample.widget_negative])
        Sample.start
      = (ImportRoute.Processed "Processed 2 items successfully" 2, w')
      /\ items (store w')
         = [{| id := 1; itemName := "Widget"; sellingPrice := Dec (-1) 0;
               currentQuantity := -5; unitType := Some "box";
               expiryDate := Some 1735689600000; status := "checked" |};
            {| id := 2; itemName := "Gadget"; sellingPrice := Dec (-25) (-1);
               currentQuantity := -5; unitType := Some "";
               expiryDate := None; status := "not yet" |}])
  /\ (forall C : Client,
         exists w',
           @ItemsRoute.POST no_faults C IsoHost.host Sample.body_shout
             Sample.start
           = (ItemsRoute.Item 201
                {| id := 2; itemName := "Gadget"; sellingPrice := Dec (-5) 0;
                   currentQuantity := -3; unitType := Some "";
                   expiryDate := None; status := "NEW" |}, w')
           /\ JsString.toLowerCase "NEW" <> "NEW")
  /\ (forall C : Client,
         exists w',
           @ItemsRoute.PUT no_faults C IsoHost.host "1" Sample.body_shout
             Sample.start
           = (ItemsRoute.Item 200
                {| id := 1; itemName := "Gadget"; sellingPrice := Dec (-5) 0;
                   currentQuantity := -3; unitType := Some "box";
                   expiryDate := None; status := "NEW" |}, w')).
Proof.
  repeat split.
  - eexists. split; reflexivity.
  - intros C. eexists. split; [reflexivity | discriminate].
  - intros C. eexists. reflexivity.
Qed.

(** ** Importing a sheet again *)

Section ReplayFacts.
Context {P : Platform}.
Import JsString JsValue Replay.

(** *** Records *)

Lemma or_empty_idem (u : option string) :
  ImportRoute.or_empty (Some (ImportRoute.or_empty u)) = ImportRoute.or_empty u.
Proof. destruct u as [[|c r]|]; reflexivity. Qed.

Lemma agree_refl (row : ExcelRow) (x : InventoryItem) : agree row x x.
Proof. unfold agree. intuition. Qed.

Lemma agree_merge (row : ExcelRow) (x : InventoryItem) :
  agree row (merge row x) x.
Proof.
  unfold agree, merge. simpl. repeat split.
  - destruct (Parsed.currentQuantity row =? 0) eqn:Hq; [now right|].
    left. now apply Z.eqb_neq.
  - destruct (truthy (Parsed.unitType row)); [now left|].
    right. apply or_empty_idem.
  - destruct (Parsed.expiryDate row) as [[t|]|]; simpl;
      [left; now exists t | now right | now right].
  - destruct (truthy (Parsed.statusRaw row)); [now left|].
    right. apply toLowerCase_idem.
Qed.

Lemma agree_step (row row' : ExcelRow) (x y : InventoryItem) :
  agree row x y -> agree row (merge row' x) (merge row' y).
Proof.
  intros (Hid & Hname & Hq & Hu & He & Hs).
  unfold agree, merge. simpl. repeat split; try assumption.
  - destruct (Parsed.currentQuantity row' =? 0); [exact Hq | now right].
  - destruct (truthy (Parsed.unitType row')); [now right|].
    destruct Hu as [Hu|Hu]; [now left|]. right. simpl. now rewrite Hu.
  - destruct (Parsed.expiryDate row') as [[t|]|]; simpl;
      [now right | exact He | exact He].
  - destruct (truthy (Parsed.statusRaw row')); [now right|].
    destruct Hs as [Hs|Hs]; [now left|]. right. now rewrite Hs.
Qed.

Lemma agree_collapse (row : ExcelRow) (x y : InventoryItem) :
  agree row x y -> merge row x = merge row y.
Proof.
  intros (Hid & Hname & Hq & Hu & He & Hs).
  unfold merge, Prisma.apply_update. simpl. f_equal; try assumption.
  - destruct (Parsed.currentQuantity row =? 0) eqn:Hz; [|reflexivity].
    apply Z.eqb_eq in Hz. destruct Hq as [Hq|Hq]; [contradiction|exact Hq].
  - destruct (truthy (Parsed.unitType row)); [reflexivity|].
    destruct Hu as [Hu|Hu]; [discriminate | now rewrite Hu].
  - destruct (Parsed.expiryDate row) as [[t|]|]; simpl; try reflexivity;
      (destruct He as [[t He]|He]; [discriminate | exact He]).
  - destruct (truthy (Parsed.statusRaw row)); [reflexivity|].
    destruct Hs as [Hs|Hs]; [discriminate | now rewrite Hs].
Qed.

(** Updating the record a row has just created changes nothing. *)
Lemma merge_created (row : ExcelRow) (key : Z) :
  merge row (Prisma.new_item key (ImportRoute.create_data row))
  = Prisma.new_item key (ImportRoute.create_data row).
Proof.
  unfold merge, Prisma.apply_update, Prisma.new_item. simpl. f_equal.
  - destruct (Parsed.currentQuantity row =? 0); reflexivity.
  - destruct (truthy (Parsed.unitType row)); reflexivity.
  - destruct (Parsed.expiryDate row) as [[t|]|]; reflexivity.
  - unfold Parsed.status.
    destruct (truthy (Parsed.statusRaw row)); [reflexivity|].
    apply toLowerCase_idem.
Qed.

(** *** Lists of records *)

Lemma find_name_absent (n : string) (l : list InventoryItem) :
  find (fun it => String.eqb (itemName it) n) l = None <-> ~ In n (names l).
Proof.
  induction l as [|x l IH]; simpl; [tauto|].
  destruct (String.eqb_spec (itemName x) n) as [Hx|Hx].
  - split; [discriminate | intros H; exfalso; apply H; now left].
  - rewrite IH. tauto.
Qed.

Lemma find_name_present (n : string) (l : list InventoryItem) :
  In n (names l) ->
  exists e, find (fun it => String.eqb (itemName it) n) l = Some e.
Proof.
  intros Hin.
  destruct (find (fun it => String.eqb (itemName it) n) l) as [e|] eqn:Hf.
  - now exists e.
  - apply find_name_absent in Hf. contradiction.
Qed.

Lemma update_items_fresh (key : Z) (d : UpdateData) (l : list InventoryItem) :
  ~ In key (map id l) -> Prisma.update_items key d l = l.
Proof.
  unfold Prisma.update_items.
  induction l as [|x l IH]; simpl; [reflexivity|].
  intros Hn. destruct (Z.eqb_spec (id x) key) as [Hx|Hx].
  - exfalso. apply Hn. now left.
  - f_equal. apply IH. intros Hin. apply Hn. now right.
Qed.

(** With distinct keys, the update by the key of the record found by name
    touches that record only. *)
Lemma update_items_first (row : ExcelRow) (n : string)
  (l : list InventoryItem) (e : InventoryItem) :
  NoDup (map id l) ->
  find (fun it => String.eqb (itemName it) n) l = Some e ->
  Prisma.update_items (id e) (ImportRoute.update_data row e) l
  = upd_first n (merge row) l.
Proof.
  induction l as [|x l IH]; simpl; [discriminate|].
  intros Hnd Hf. inversion Hnd as [|? ? Hx Hl]; subst.
  destruct (String.eqb (itemName x) n) eqn:Hn.
  - injection Hf as ->. rewrite Z.eqb_refl. f_equal.
    now apply update_items_fresh.
  - assert (Hin : In (id e) (map id l)).
    { apply find_some in Hf. apply in_map. tauto. }
    destruct (Z.eqb_spec (id x) (id e)) as [Heq|_].
    + rewrite Heq in Hx. contradiction.
    + f_equal. now apply IH.
Qed.

Lemma upd_first_ids (n : string) (f : InventoryItem -> InventoryItem)
  (l : list InventoryItem) :
  (forall x, id (f x) = id x) -> map id (upd_first n f l) = map id l.
Proof.
  intros Hf. induction l as [|x l IH]; simpl; [reflexivity|].
  destruct (String.eqb (itemName x) n); simpl; [now rewrite Hf | now rewrite IH].
Qed.

Lemma upd_first_names (n : string) (f : InventoryItem -> InventoryItem)
  (l : list InventoryItem) :
  (forall x, itemName (f x) = itemName x) ->
  names (upd_first n f l) = names l.
Proof.
  intros Hf. unfold names. induction l as [|x l IH]; simpl; [reflexivity|].
  destruct (String.eqb (itemName x) n); simpl; [now rewrite Hf | now rewrite IH].
Qed.

Lemma upd_first_app (n : string) (f : InventoryItem -> InventoryItem)
  (l z : list InventoryItem) :
  In n (names l) -> upd_first n f (l ++ z) = (upd_first n f l ++ z)%list.
Proof.
  induction l as [|x l IH]; simpl; [contradiction|].
  intros Hin. destruct (String.eqb_spec (itemName x) n) as [Hx|Hx];
    [reflexivity|].
  simpl. f_equal. apply IH. destruct Hin; [contradiction | assumption].
Qed.

Lemma upd_first_last (n : string) (f : InventoryItem -> InventoryItem)
  (l : list InventoryItem) (z : InventoryItem) :
  ~ In n (names l) -> itemName z = n ->
  upd_first n f (l ++ [z]) = (l ++ [f z])%list.
Proof.
  intros Hn Hz. induction l as [|x l IH]; simpl.
  - now rewrite Hz, String.eqb_refl.
  - destruct (String.eqb_spec (itemName x) n) as [Hx|Hx].
    + exfalso. apply Hn. now left.
    + f_equal. apply IH. intros Hin. apply Hn. now right.
Qed.

Lemma NoDup_snoc (l : list Z) (a : Z) :
  NoDup l -> ~ In a l -> NoDup (l ++ [a]).
Proof.
  induction l as [|x l IH]; simpl; intros Hnd Hn.
  - constructor; [tauto | constructor].
  - inversion Hnd as [|? ? Hx Hl]; subst. constructor.
    + rewrite in_app_iff. simpl. intros [H|[H|[]]]; [tauto|].
      apply Hn. now left.
    + apply IH; [exact Hl|]. intros H. apply Hn. now right.
Qed.

(** *** One row *)

Lemma step_skip (row : ExcelRow) (s : Store) :
  truthy (Parsed.itemName row) = false -> step row s = s.
Proof. intros Hn. unfold step. now rewrite Hn. Qed.

Lemma step_update (row : ExcelRow) (s : Store) :
  well_formed s ->
  truthy (Parsed.itemName row) = true ->
  In (String_ (Parsed.itemName row)) (names (items s)) ->
  step row s
  = {| items := upd_first (String_ (Parsed.itemName row)) (merge row) (items s);
       nextId := nextId s |}.
Proof.
  intros [Hnd _] Hn Hin. unfold step. rewrite Hn. simpl.
  destruct (find_name_present _ _ Hin) as [e He].
  unfold Prisma.find_by_name. rewrite He. unfold Prisma.modify.
  now rewrite (update_items_first row _ _ e Hnd He).
Qed.

Lemma step_create (row : ExcelRow) (s : Store) :
  truthy (Parsed.itemName row) = true ->
  ~ In (String_ (Parsed.itemName row)) (names (items s)) ->
  step row s = Prisma.insert (ImportRoute.create_data row) s.
Proof.
  intros Hn Hin. unfold step. rewrite Hn. simpl.
  apply find_name_absent in Hin.
  unfold Prisma.find_by_name. now rewrite Hin.
Qed.

Lemma in_names_dec (n : string) (l : list InventoryItem) :
  {In n (names l)} + {~ In n (names l)}.
Proof. apply in_dec, string_dec. Qed.

Lemma step_well_formed (row : ExcelRow) (s : Store) :
  well_formed s -> well_formed (step row s).
Proof.
  intros Hwf. destruct (truthy (Parsed.itemName row)) eqn:Hn.
  - destruct (in_names_dec (String_ (Parsed.itemName row)) (items s))
      as [Hin|Hin].
    + rewrite (step_update row s Hwf Hn Hin). destruct Hwf as [Hnd Hlt].
      split; simpl.
      * now rewrite upd_first_ids.
      * apply Forall_forall. intros it Hit.
        apply (in_map id) in Hit. rewrite upd_first_ids in Hit by reflexivity.
        apply in_map_iff in Hit. destruct Hit as (it' & <- & Hit').
        rewrite Forall_forall in Hlt. now apply Hlt.
    + rewrite (step_create row s Hn Hin). destruct Hwf as [Hnd Hlt].
      rewrite Forall_forall in Hlt.
      split; simpl.
      * rewrite map_app. simpl. apply NoDup_snoc; [exact Hnd|].
        intros Hin'.
        apply in_map_iff in Hin'. destruct Hin' as (it & Hid & Hit).
        specialize (Hlt it Hit). lia.
      * apply Forall_app. split.
        -- apply Forall_forall. intros it Hit. specialize (Hlt it Hit). lia.
        -- constructor; [simpl; lia | constructor].
  - now rewrite step_skip.
Qed.

Lemma run_well_formed (rows : list ExcelRow) (s : Store) :
  well_formed s -> well_formed (run rows s).
Proof.
  revert s. induction rows as [|r rows IH]; intros s Hwf; [exact Hwf|].
  simpl. apply IH. now apply step_well_formed.
Qed.

Lemma run_snoc (rows : list ExcelRow) (row : ExcelRow) (s : Store) :
  run (rows ++ [row]) s = step row (run rows s).
Proof. unfold run. now rewrite fold_left_app. Qed.

End ReplayFacts.

Section Absorb.
Import Replay.

Variable name : string.
Variable R : InventoryItem -> InventoryItem -> Prop.
Hypothesis R_refl : forall x, R x x.
Hypothesis R_name : forall x y, R x y -> itemName x = itemName y.

Lemma near_same (l : list InventoryItem) : near name R l l.
Proof.
  induction l as [|x l IH]; [constructor|].
  destruct (string_dec (itemName x) name) as [Hx|Hx].
  - now apply near_here.
  - now apply near_skip.
Qed.

Lemma near_names (l1 l2 : list InventoryItem) :
  near name R l1 l2 -> names l1 = names l2.
Proof.
  induction 1 as [|x y l Hx HR|x l1 l2 Hx Hn IH]; simpl.
  - reflexivity.
  - now rewrite (R_name x y HR).
  - now rewrite IH.
Qed.

Lemma near_upd_other (other : string) (f : InventoryItem -> InventoryItem)
  (l1 l2 : list InventoryItem) :
  other <> name -> (forall x, itemName (f x) = itemName x) ->
  near name R l1 l2 ->
  near name R (upd_first other f l1) (upd_first other f l2).
Proof.
  intros Hne Hf. induction 1 as [|x y l Hx HR|x l1 l2 Hx Hn IH]; simpl.
  - constructor.
  - rewrite <- (R_name x y HR), Hx.
    destruct (String.eqb_spec name other) as [Heq|_]; [congruence|].
    now apply near_here.
  - destruct (String.eqb (itemName x) other).
    + apply near_skip; [now rewrite Hf | exact Hn].
    + now apply near_skip.
Qed.

Lemma near_upd_same (g : InventoryItem -> InventoryItem)
  (l1 l2 : list InventoryItem) :
  (forall x y, R x y -> R (g x) (g y)) ->
  (forall x, itemName (g x) = itemName x) ->
  near name R l1 l2 ->
  near name R (upd_first name g l1) (upd_first name g l2).
Proof.
  intros Hg Hgn. induction 1 as [|x y l Hx HR|x l1 l2 Hx Hn IH]; simpl.
  - constructor.
  - rewrite <- (R_name x y HR), Hx, String.eqb_refl.
    apply near_here; [now rewrite Hgn | now apply Hg].
  - destruct (String.eqb_spec (itemName x) name) as [Heq|_]; [contradiction|].
    now apply near_skip.
Qed.

Lemma near_snoc (z : InventoryItem) (l1 l2 : list InventoryItem) :
  near name R l1 l2 -> near name R (l1 ++ [z]) (l2 ++ [z]).
Proof.
  induction 1 as [|x y l Hx HR|x l1 l2 Hx Hn IH]; simpl.
  - apply near_same.
  - now apply near_here.
  - now apply near_skip.
Qed.

Lemma near_collapse (g : InventoryItem -> InventoryItem)
  (l1 l2 : list InventoryItem) :
  (forall x y, R x y -> g x = g y) ->
  near name R l1 l2 -> upd_first name g l1 = upd_first name g l2.
Proof.
  intros Hg. induction 1 as [|x y l Hx HR|x l1 l2 Hx Hn IH]; simpl.
  - reflexivity.
  - rewrite <- (R_name x y HR), Hx, String.eqb_refl. f_equal. now apply Hg.
  - destruct (String.eqb_spec (itemName x) name) as [Heq|_]; [contradiction|].
    now rewrite IH.
Qed.

Lemma near_after (g : InventoryItem -> InventoryItem)
  (l : list InventoryItem) :
  (forall x, R (g x) x) -> (forall x, itemName (g x) = itemName x) ->
  near name R (upd_first name g l) l.
Proof.
  intros Hg Hgn. induction l as [|x l IH]; simpl; [constructor|].
  destruct (String.eqb_spec (itemName x) name) as [Hx|Hx].
  - apply near_here; [now rewrite Hgn | apply Hg].
  - now apply near_skip.
Qed.

Lemma near_absent (l1 l2 : list InventoryItem) :
  near name R l1 l2 -> ~ In name (names l1) -> l1 = l2.
Proof.
  induction 1 as [|x y l Hx HR|x l1 l2 Hx Hn IH]; simpl; intros Hnot.
  - reflexivity.
  - exfalso. apply Hnot. now left.
  - f_equal. apply IH. intros Hin. apply Hnot. now right.
Qed.

End Absorb.

Section Idempotence.
Context {P : Platform}.
Import JsString JsValue Replay.

Lemma agree_name (row : ExcelRow) (x y : InventoryItem) :
  agree row x y -> itemName x = itemName y.
Proof. unfold agree. tauto. Qed.

Lemma store_eq (s1 s2 : Store) :
  items s1 = items s2 -> nextId s1 = nextId s2 -> s1 = s2.
Proof. destruct s1, s2. simpl. now intros -> ->. Qed.

(** A row acts alike on two stores that are close for [r]. *)
Lemma step_close (r row : ExcelRow) (s1 s2 : Store) :
  well_formed s1 -> well_formed s2 ->
  close r s1 s2 -> close r (step row s1) (step row s2).
Proof.
  intros Hwf1 Hwf2 [Hnear Hnext].
  pose proof (near_names _ _ (agree_name r) _ _ Hnear) as Hnames.
  destruct (truthy (Parsed.itemName row)) eqn:Hn.
  - destruct (in_names_dec (String_ (Parsed.itemName row)) (items s1))
      as [Hin|Hin].
    + rewrite (step_update row s1 Hwf1 Hn Hin).
      rewrite (step_update row s2 Hwf2 Hn) by (now rewrite <- Hnames).
      split; [simpl | exact Hnext].
      destruct (string_dec (String_ (Parsed.itemName row))
                           (String_ (Parsed.itemName r))) as [Heq|Hne].
      * rewrite Heq. apply near_upd_same; try assumption.
        -- apply agree_name.
        -- intros x y. apply agree_step.
        -- reflexivity.
      * apply near_upd_other; try assumption.
        -- apply agree_name.
        -- reflexivity.
    + rewrite (step_create row s1 Hn Hin).
      rewrite (step_create row s2 Hn) by (now rewrite <- Hnames).
      unfold Prisma.insert. rewrite Hnext.
      split; [simpl | simpl; reflexivity].
      apply near_snoc; [apply agree_refl | exact Hnear].
  - rewrite !step_skip by assumption. now split.
Qed.

Lemma run_close (r : ExcelRow) (rows : list ExcelRow) (s1 s2 : Store) :
  well_formed s1 -> well_formed s2 ->
  close r s1 s2 -> close r (run rows s1) (run rows s2).
Proof.
  revert s1 s2. induction rows as [|row rows IH]; intros s1 s2 H1 H2 Hc;
    [exact Hc|].
  simpl. apply IH; try now apply step_well_formed.
  now apply step_close.
Qed.

(** The row [r] brings two stores that are close for [r] to the same
    store. *)
Lemma step_collapse (r : ExcelRow) (s1 s2 : Store) :
  well_formed s1 -> well_formed s2 ->
  truthy (Parsed.itemName r) = true ->
  close r s1 s2 -> step r s1 = step r s2.
Proof.
  intros Hwf1 Hwf2 Hn [Hnear Hnext].
  pose proof (near_names _ _ (agree_name r) _ _ Hnear) as Hnames.
  destruct (in_names_dec (String_ (Parsed.itemName r)) (items s1))
    as [Hin|Hin].
  - rewrite (step_update r s1 Hwf1 Hn Hin).
    rewrite (step_update r s2 Hwf2 Hn) by (now rewrite <- Hnames).
    rewrite Hnext. f_equal.
    apply (near_collapse _ _ (agree_name r)); [|exact Hnear].
    intros x y. apply agree_collapse.
  - f_equal. apply store_eq; [|exact Hnext].
    now apply (near_absent _ _ _ _ Hnear).
Qed.

(** *** The names of the store *)

Lemma update_items_names (key : Z) (row : ExcelRow) (e : InventoryItem)
  (l : list InventoryItem) :
  names (Prisma.update_items key (ImportRoute.update_data row e) l) = names l.
Proof.
  unfold names, Prisma.update_items. induction l as [|x l IH]; simpl;
    [reflexivity|].
  rewrite IH. now destruct (id x =? key).
Qed.

Lemma step_names_incl (row : ExcelRow) (s : Store) (n : string) :
  In n (names (items s)) -> In n (names (items (step row s))).
Proof.
  intros Hin. unfold step.
  destruct (negb (truthy (Parsed.itemName row))); [exact Hin|].
  destruct (Prisma.find_by_name (String_ (Parsed.itemName row)) s) as [e|].
  - simpl. now rewrite update_items_names.
  - simpl. unfold names. rewrite map_app, in_app_iff. now left.
Qed.

Lemma step_names_has (row : ExcelRow) (s : Store) :
  truthy (Parsed.itemName row) = true ->
  In (String_ (Parsed.itemName row)) (names (items (step row s))).
Proof.
  intros Hn. unfold step. rewrite Hn. simpl.
  destruct (Prisma.find_by_name (String_ (Parsed.itemName row)) s)
    as [e|] eqn:Hf.
  - simpl. rewrite update_items_names.
    destruct (find_by_name_In _ _ _ Hf) as [Hin Hname].
    rewrite <- Hname. now apply in_map.
  - simpl. unfold names. rewrite map_app, in_app_iff. right. now left.
Qed.

Lemma run_names_incl (rows : list ExcelRow) (s : Store) (n : string) :
  In n (names (items s)) -> In n (names (items (run rows s))).
Proof.
  revert s. induction rows as [|row rows IH]; intros s Hin; [exact Hin|].
  simpl. apply IH. now apply step_names_incl.
Qed.

(** After a run every row that passes the guard names a record. *)
Lemma run_covered (rows : list ExcelRow) (s : Store) :
  covered rows (items (run rows s)).
Proof.
  revert s. induction rows as [|row rows IH]; intros s r Hin Hn.
  - contradiction.
  - simpl. destruct Hin as [->|Hin].
    + apply run_names_incl. now apply step_names_has.
    + now apply IH.
Qed.

(** *** A record at the end that no row names *)

Lemma step_extend (row : ExcelRow) (s : Store) (z : InventoryItem) (next : Z) :
  well_formed s -> well_formed (extend s z next) ->
  (truthy (Parsed.itemName row) = true ->
   In (String_ (Parsed.itemName row)) (names (items s))) ->
  step row (extend s z next) = extend (step row s) z next.
Proof.
  intros Hwf Hwfx Hcov. destruct (truthy (Parsed.itemName row)) eqn:Hn.
  - specialize (Hcov eq_refl).
    rewrite (step_update row s Hwf Hn Hcov).
    rewrite (step_update row (extend s z next) Hwfx Hn).
    + unfold extend. simpl. now rewrite upd_first_app.
    + simpl. unfold names. rewrite map_app, in_app_iff. now left.
  - now rewrite !step_skip.
Qed.

Lemma run_extend (rows : list ExcelRow) (s : Store) (z : InventoryItem)
  (next : Z) :
  well_formed s -> well_formed (extend s z next) ->
  covered rows (items s) ->
  run rows (extend s z next) = extend (run rows s) z next.
Proof.
  revert s. induction rows as [|row rows IH]; intros s Hwf Hwfx Hcov;
    [reflexivity|].
  simpl. rewrite (step_extend row s z next Hwf Hwfx).
  - apply IH.
    + now apply step_well_formed.
    + rewrite <- (step_extend row s z next Hwf Hwfx).
      * now apply step_well_formed.
      * intros Hn. apply Hcov; [now left | exact Hn].
    + intros r Hin Hn. apply step_names_incl. apply Hcov; [now right | exact Hn].
  - intros Hn. apply Hcov; [now left | exact Hn].
Qed.

(** *** Running the rows twice *)

Lemma run_twice (rows : list ExcelRow) (s : Store) :
  well_formed s -> run rows (run rows s) = run rows s.
Proof.
  revert s. induction rows as [|r rows IH] using rev_ind; intros s Hwf;
    [reflexivity|].
  rewrite !run_snoc.
  set (u := run rows s).
  assert (Hu : well_formed u) by (now apply run_well_formed).
  assert (Hfix : run rows u = u) by (now apply IH).
  destruct (truthy (Parsed.itemName r)) eqn:Hn.
  - destruct (in_names_dec (String_ (Parsed.itemName r)) (items u))
      as [Hin|Hin].
    + (* the row updates: a second pass over the rows absorbs the update *)
      assert (Hclose : close r (step r u) u).
      { rewrite (step_update r u Hu Hn Hin). split; [simpl | reflexivity].
        apply near_after; [apply agree_merge | reflexivity]. }
      assert (Ht : well_formed (step r u)) by (now apply step_well_formed).
      pose proof (run_close r rows _ _ Ht Hu Hclose) as Hrun.
      rewrite Hfix in Hrun.
      apply step_collapse; try assumption.
      now apply run_well_formed.
    + (* the row creates: the other rows leave the new record alone *)
      assert (Ht : well_formed (step r u)) by (now apply step_well_formed).
      rewrite (step_create r u Hn Hin) in *.
      set (z := Prisma.new_item (nextId u) (ImportRoute.create_data r)) in *.
      change (Prisma.insert (ImportRoute.create_data r) u)
        with (extend u z (nextId u + 1)) in *.
      rewrite (run_extend rows u z _ Hu Ht) by (apply run_covered).
      rewrite Hfix.
      rewrite (step_update r _ Ht Hn).
      * unfold extend. simpl. f_equal.
        rewrite (upd_first_last _ _ _ z Hin eq_refl).
        unfold z. now rewrite merge_created.
      * simpl. unfold names. rewrite map_app, in_app_iff. right. now left.
  - now rewrite !step_skip.
Qed.

End Idempotence.

(** *** The handler and the replay *)

Section HandlerReplay.
Context {P : Platform}.
Import JsValue.

(** Whatever the store refuses elsewhere, a pass through the loop body
    that returns has done what the replay does. *)
Lemma process_row_replay {F : StoreFaults} (row : ExcelRow) (w w' : World)
  (b : bool) :
  ImportRoute.process_row row w = (Ok b, w') ->
  store w' = Replay.step row (store w)
  /\ b = truthy (Parsed.itemName row).
Proof.
  destruct (truthy (Parsed.itemName row)) eqn:Hn.
  - unfold ImportRoute.process_row, Replay.step. rewrite Hn. simpl.
    unfold bind, findFirst, await.
    destruct (fault (calls w) (store w) _); [discriminate|].
    destruct (Prisma.find_by_name (String_ (Parsed.itemName row)) (store w))
      as [e|] eqn:Hf; simpl.
    + unfold update, await. simpl.
      destruct (fault (S (calls w)) (store w) _); [discriminate|].
      destruct (Prisma.find_by_id (id e) (store w)); [|discriminate].
      intros H. injection H as <- <-. now split.
    + unfold create, await. simpl.
      destruct (fault (S (calls w)) (store w) _); [discriminate|].
      intros H. injection H as <- <-. now split.
  - rewrite (process_row_skip row w Hn). intros H. injection H as <- <-.
    now rewrite step_skip.
Qed.


Lemma for_rows_replay {F : StoreFaults} (rows : list ExcelRow)
  (count n : nat) (w w' : World) :
  ImportRoute.for_rows rows count w = (Ok n, w') ->
  store w' = Replay.run rows (store w)
  /\ n = (count + Count.processed rows)%nat.
Proof.
  revert count w. induction rows as [|r rows IH]; intros count w.
  - simpl. unfold ret. intros H. injection H as <- <-.
    unfold Count.processed. simpl. split; [reflexivity | lia].
  - simpl. unfold bind.
    destruct (ImportRoute.process_row r w) as [[b|msg] w1] eqn:Hr;
      [|discriminate].
    apply process_row_replay in Hr. destruct Hr as [Hs Hb].
    intros H. apply IH in H. destruct H as [Hs' Hn'].
    rewrite Hs' , Hs, Hn', processed_cons, <- Hb.
    split; [reflexivity|]. destruct b; lia.
Qed.

(** On a store that accepts every call the loop body returns. *)
Lemma process_row_no_faults (row : ExcelRow) (w : World) :
  exists w',
    @ImportRoute.process_row no_faults P row w
    = (Ok (truthy (Parsed.itemName row)), w').
Proof.
  destruct (truthy (Parsed.itemName row)) eqn:Hn.
  - unfold ImportRoute.process_row. rewrite Hn. simpl.
    unfold bind, findFirst, await. simpl.
    destruct (Prisma.find_by_name (String_ (Parsed.itemName row)) (store w))
      as [e|] eqn:Hf; simpl.
    + destruct (find_by_name_In _ _ _ Hf) as [Hin _].
      destruct (find_by_id_of_In _ _ Hin) as [it [Hit _]].
      unfold update, await, Prisma.find_by_id. simpl. rewrite Hit.
      eexists. reflexivity.
    + eexists. reflexivity.
  - exists w. now apply process_row_skip.
Qed.

Lemma for_rows_no_faults (rows : list ExcelRow) (count : nat) (w : World) :
  exists w',
    @ImportRoute.for_rows no_faults P rows count w
    = (Ok (count + Count.processed rows)%nat, w').
Proof.
  revert count w. induction rows as [|r rows IH]; intros count w.
  - exists w. simpl. unfold ret, Count.processed. simpl.
    now rewrite Nat.add_0_r.
  - destruct (process_row_no_faults r w) as [w1 H1].
    simpl. unfold bind. rewrite H1.
    destruct (IH (if truthy (Parsed.itemName r) then S count else count) w1)
      as [w' Hw'].
    exists w'. rewrite Hw', processed_cons. do 2 f_equal.
    destruct (truthy (Parsed.itemName r)); lia.
Qed.

End HandlerReplay.

(** *** Sheets whose rows name different items *)

Section DistinctNames.
Context {P : Platform}.
Import JsString JsValue Replay.

Lemma upd_first_comm (a b : string) (f g : InventoryItem -> InventoryItem)
  (l : list InventoryItem) :
  a <> b ->
  (forall x, itemName (f x) = itemName x) ->
  (forall x, itemName (g x) = itemName x) ->
  upd_first a f (upd_first b g l) = upd_first b g (upd_first a f l).
Proof.
  intros Hab Hf Hg. induction l as [|x l IH]; simpl; [reflexivity|].
  destruct (String.eqb_spec (itemName x) b) as [Hb|Hb];
    destruct (String.eqb_spec (itemName x) a) as [Ha|Ha]; simpl.
  - congruence.
  - rewrite Hg. destruct (String.eqb_spec (itemName x) a); [contradiction|].
    destruct (String.eqb_spec (itemName x) b); [reflexivity | contradiction].
  - rewrite Hf. destruct (String.eqb_spec (itemName x) b); [contradiction|].
    destruct (String.eqb_spec (itemName x) a); [reflexivity | contradiction].
  - destruct (String.eqb_spec (itemName x) a); [contradiction|].
    destruct (String.eqb_spec (itemName x) b); [contradiction|].
    now rewrite IH.
Qed.

(** An update commutes with a row of another name. *)
Lemma step_comm (r row : ExcelRow) (s : Store) :
  well_formed s ->
  truthy (Parsed.itemName r) = true ->
  In (String_ (Parsed.itemName r)) (names (items s)) ->
  (truthy (Parsed.itemName row) = true ->
   String_ (Parsed.itemName row) <> String_ (Parsed.itemName r)) ->
  step r (step row s) = step row (step r s).
Proof.
  intros Hwf Hn Hin Hne.
  assert (Hwr : well_formed (step r s)) by (now apply step_well_formed).
  assert (Hwo : well_formed (step row s)) by (now apply step_well_formed).
  destruct (truthy (Parsed.itemName row)) eqn:Hrow.
  - specialize (Hne eq_refl).
    rewrite (step_update r (step row s) Hwo Hn) by (now apply step_names_incl).
    destruct (in_names_dec (String_ (Parsed.itemName row)) (items s))
      as [Hb|Hb].
    + rewrite (step_update row (step r s) Hwr Hrow) by (now apply step_names_incl).
      rewrite (step_update row s Hwf Hrow Hb), (step_update r s Hwf Hn Hin).
      simpl. f_equal. now apply upd_first_comm.
    + rewrite (step_create row s Hrow Hb).
      rewrite (step_update r s Hwf Hn Hin).
      rewrite step_create; [|exact Hrow|].
      * unfold Prisma.insert. simpl. f_equal. now apply upd_first_app.
      * simpl. now rewrite upd_first_names.
  - now rewrite !(step_skip row).
Qed.

(** A row whose update changes nothing still changes nothing after a row
    of another name. *)
Lemma step_fixed_after (r row : ExcelRow) (s : Store) :
  well_formed s ->
  truthy (Parsed.itemName r) = true ->
  (truthy (Parsed.itemName row) = true ->
   String_ (Parsed.itemName row) <> String_ (Parsed.itemName r)) ->
  step r s = s -> step r (step row s) = step row s.
Proof.
  intros Hwf Hn Hne Hfix.
  assert (Hin : In (String_ (Parsed.itemName r)) (names (items s))).
  { rewrite <- Hfix. now apply step_names_has. }
  now rewrite (step_comm r row s Hwf Hn Hin Hne), Hfix.
Qed.

Lemma run_fixed_after (r : ExcelRow) (rows : list ExcelRow) (s : Store) :
  well_formed s ->
  truthy (Parsed.itemName r) = true ->
  (forall row, In row rows -> truthy (Parsed.itemName row) = true ->
               String_ (Parsed.itemName row) <> String_ (Parsed.itemName r)) ->
  step r s = s -> step r (run rows s) = run rows s.
Proof.
  revert s. induction rows as [|row rows IH]; intros s Hwf Hn Hne Hfix;
    [exact Hfix|].
  simpl. apply IH.
  - now apply step_well_formed.
  - exact Hn.
  - intros row' Hin. apply Hne. now right.
  - apply step_fixed_after; try assumption. apply Hne. now left.
Qed.

(** After a run of rows that name different items, running any one of the
    rows again rewrites what is stored. *)
Lemma run_rows_fixed (rows : list ExcelRow) (s : Store) (r : ExcelRow) :
  well_formed s -> distinct_names rows -> In r rows ->
  step r (run rows s) = run rows s.
Proof.
  intros Hwf Hnd Hin.
  destruct (truthy (Parsed.itemName r)) eqn:Hn; [|now apply step_skip].
  revert s Hwf Hnd Hin. induction rows as [|x rows IH]; intros s Hwf Hnd Hin;
    [contradiction|].
  simpl. unfold distinct_names in Hnd. simpl in Hnd.
  destruct Hin as [->|Hin].
  - rewrite Hn in Hnd. simpl in Hnd. inversion Hnd as [|? ? Hfresh Hrest]; subst.
    apply run_fixed_after.
    + now apply step_well_formed.
    + exact Hn.
    + intros row Hrow Ht Heq. apply Hfresh. rewrite <- Heq.
      apply (in_map (fun row => String_ (Parsed.itemName row))).
      apply filter_In. now split.
    + exact (run_twice [r] s Hwf).
  - apply IH.
    + now apply step_well_formed.
    + destruct (truthy (Parsed.itemName x)); [|exact Hnd].
      now inversion Hnd.
    + exact Hin.
Qed.

End DistinctNames.

(** C10, as the code has it.  Let an import of a sheet into a store with
    distinct keys succeed.  Then it leaves what the replay of the rows
    leaves and returns the number of rows that pass the guard.  Importing
    the same sheet again into that store, with a store that accepts every
    call, succeeds with the same message and count and leaves the store as
    it is; and however the store behaves, a second import that succeeds
    returns the same count and leaves the store as it is.  In the second
    import every row that passes the guard finds a record, and when no two
    such rows have the same item name each row rewrites exactly what is
    stored. *)
Theorem import_twice {F : StoreFaults} {P : Platform}
  (jsonData : list ExcelRow) (w w1 : World) (message : string) (count : nat) :
  Replay.well_formed (store w) ->
  ImportRoute.POST (ImportRoute.Sheet jsonData) w
  = (ImportRoute.Processed message count, w1) ->
  store w1 = Replay.run jsonData (store w)
  /\ count = Count.processed jsonData
  /\ (forall w2, store w2 = store w1 ->
        exists w3,
          @ImportRoute.POST no_faults P (ImportRoute.Sheet jsonData) w2
          = (ImportRoute.Processed message count, w3)
          /\ store w3 = store w1)
  /\ (forall (F' : StoreFaults) (w2 w3 : World) message' count',
        store w2 = store w1 ->
        @ImportRoute.POST F' P (ImportRoute.Sheet jsonData) w2
        = (ImportRoute.Processed message' count', w3) ->
        store w3 = store w1 /\ count' = count /\ message' = message)
  /\ (forall row, In row jsonData ->
        JsValue.truthy (Parsed.itemName row) = true ->
        exists e,
          Prisma.find_by_name (JsValue.String_ (Parsed.itemName row)) (store w1)
          = Some e)
  /\ (Replay.distinct_names jsonData ->
      forall row, In row jsonData -> Replay.step row (store w1) = store w1).
Proof.
  intros Hwf Hpost.
  assert (Hpost_inv :
            forall (G : StoreFaults) (v v' : World) m c,
              @ImportRoute.POST G P (ImportRoute.Sheet jsonData) v
              = (ImportRoute.Processed m c, v') ->
              store v' = Replay.run jsonData (store v)
              /\ c = Count.processed jsonData
              /\ m = ("Processed "
                      ++ JsNumber.string_of_nat_Z
                           (Z.of_nat (Count.processed jsonData))
                      ++ " items successfully")).
  { intros G v v' m c. unfold ImportRoute.POST.
    destruct (ImportRoute.for_rows jsonData 0 v) as [[n|msg] v''] eqn:Hrun;
      [|discriminate].
    apply for_rows_replay in Hrun. destruct Hrun as [Hs Hn]. simpl in Hn.
    intros H. injection H as <- <- <-. now rewrite Hn. }
  destruct (Hpost_inv F w w1 message count Hpost) as (Hs & Hc & Hm).
  assert (Hfix : Replay.run jsonData (store w1) = store w1).
  { rewrite Hs. now apply run_twice. }
  split; [exact Hs|]. split; [exact Hc|].
  split; [|split; [|split]].
  - intros w2 Hw2.
    destruct (@for_rows_no_faults P jsonData 0 w2) as [w3 Hrun].
    exists w3. unfold ImportRoute.POST. rewrite Hrun.
    apply for_rows_replay in Hrun. destruct Hrun as [Hs3 _].
    simpl. rewrite Hm, Hc. split; [reflexivity|].
    now rewrite Hs3, Hw2.
  - intros F' w2 w3 message' count' Hw2 Hpost'.
    destruct (Hpost_inv F' w2 w3 message' count' Hpost') as (Hs' & Hc' & Hm').
    split; [now rewrite Hs', Hw2 | now rewrite Hc', Hm', Hc, Hm].
  - intros row Hin Hn. unfold Prisma.find_by_name.
    apply find_name_present. rewrite Hs. now apply run_covered.
  - intros Hnd row Hin. rewrite Hs. now apply run_rows_fixed.
Qed.

(** A sheet with an update, a create, a status change and a second row for
    the created name: the second import returns the same answer and leaves
    the store of the first. *)
Lemma import_twice_witness :
  let sheet := [Sample.qty_twelve; Sample.gadget; Sample.status_new;
                Sample.gadget_negative] in
  let first :=
    @ImportRoute.POST no_faults IsoHost.host (ImportRoute.Sheet sheet)
      Sample.start in
  fst first = ImportRoute.Processed "Processed 4 items successfully" 4
  /\ exists w3,
      @ImportRoute.POST no_faults IsoHost.host (ImportRoute.Sheet sheet)
        (snd first)
      = (ImportRoute.Processed "Processed 4 items successfully" 4, w3)
      /\ store w3 = store (snd first).
Proof.
  intros sheet first.
  assert (Hwf : Replay.well_formed (store Sample.start)).
  { split.
    - constructor; [intros [] | constructor].
    - constructor; [reflexivity | constructor]. }
  split; [reflexivity|].
  destruct (@import_twice no_faults IsoHost.host sheet Sample.start
              (snd first) "Processed 4 items successfully" 4 Hwf eq_refl)
    as (_ & _ & Hagain & _ & _ & _).
  exact (Hagain (snd first) eq_refl).
Defined.

(** C10 as stated fails in its last part.  The two rows name the same new
    item with different prices.  After the first import the stored price
    is that of the second row, and in the second import the first row,
    which created the record, rewrites the price to its own; the second
    row then restores it. *)
Lemma import_twice_counterexample :
  let sheet := [Sample.gadget; Sample.gadget_negative] in
  exists w1 w2 w3,
    @ImportRoute.POST no_faults IsoHost.host (ImportRoute.Sheet sheet)
      Sample.start
    = (ImportRoute.Processed "Processed 2 items successfully" 2, w1)
    /\ option_map sellingPrice (Prisma.find_by_name "Gadget" (store w1))
       = Some (Dec (-25) (-1))
    /\ @ImportRoute.process_row no_faults IsoHost.host Sample.gadget w1
       = (Ok true, w2)
    /\ option_map sellingPrice (Prisma.find_by_name "Gadget" (store w2))
       = Some (Dec 1999 (-2))
    /\ store w2 <> store w1
    /\ @ImportRoute.process_row no_faults IsoHost.host Sample.gadget_negative
         w2 = (Ok true, w3)
    /\ store w3 = store w1.
Proof.
  do 3 eexists.
  split; [reflexivity|]. split; [reflexivity|]. split; [reflexivity|].
  split; [reflexivity|]. split; [discriminate|]. split; reflexivity.
Qed.

(** * Further properties of the import route *)

(** ** Price and unit on update *)

(** X1. On a row none of whose headers is the empty string: when the
    row names an existing record and the store accepts the two calls, the
    stored price becomes the coerced price cell of the row whatever it
    was: a row whose price cell is missing (no header of the row is a
    price header, or there is nothing under it) or does not parse sets the
    price to zero. *)
Theorem price_after_update {F : StoreFaults} {P : Platform}
  (row : ExcelRow) (w : World) (e : InventoryItem) :
  ~ In "" (JsValue.keys row) ->
  let name :=
    Resolution.resolve (Resolution.aliases Resolution.ItemName) row in
  JsValue.truthy name = true ->
  Prisma.find_by_name (JsValue.String_ name) (store w) = Some e ->
  fault (calls w) (store w) (FindFirst (JsValue.String_ name)) = None ->
  fault (S (calls w)) (store w)
        (Update (id e) (ImportRoute.update_data row e)) = None ->
  let cell :=
    Resolution.resolve (Resolution.aliases Resolution.SellingPrice) row in
  exists w' e',
    ImportRoute.process_row row w = (Ok true, w')
    /\ Prisma.find_by_id (id e) (store w') = Some e'
    /\ sellingPrice e'
       = JsNumber.or_zero (JsNumber.parseFloat (JsValue.String_ cell))
    /\ (JsNumber.parseFloat (JsValue.String_ cell) = NaN ->
        sellingPrice e' = Dec 0 0)
    /\ (cell = None -> sellingPrice e' = Dec 0 0)
    /\ (Resolution.has_header Resolution.SellingPrice row = false ->
        sellingPrice e' = Dec 0 0).
Proof.
  intros Hno name Hn Hf Hc1 Hc2 cell.
  assert (Hname : Parsed.itemName row = name)
    by exact (proj1 (raw_cells row Hno)).
  rewrite <- Hname in Hn, Hf, Hc1.
  destruct (raw_cells row Hno) as (_ & Hraw & _).
  destruct (update_effect row w e Hn Hf Hc1 Hc2) as [w' [it [Hrun Hfind]]].
  exists w'. eexists. split; [exact Hrun|]. split; [exact Hfind|].
  simpl. unfold Parsed.sellingPrice. rewrite Hraw. fold cell.
  split; [reflexivity|]. split; [|split].
  - intros Hnan. now rewrite Hnan.
  - intros Hcell. now rewrite Hcell.
  - intros Hh. assert (Hcell : cell = None) by now apply no_header_no_cell.
    now rewrite Hcell.
Qed.

(** A row that names the widget and has no price cell sets its price of 5
    to 0. *)
Lemma price_after_update_witness :
  exists w' e',
    @ImportRoute.process_row no_faults IsoHost.host Sample.plain_header
      Sample.start = (Ok true, w')
    /\ Prisma.find_by_id 1 (store w') = Some e'
    /\ sellingPrice e' = Dec 0 0.
Proof.
  destruct (@price_after_update no_faults IsoHost.host Sample.plain_header
              Sample.start Sample.widget)
    as (w' & e' & Hrun & Hfind & _ & _ & _ & Hmiss);
    try reflexivity; [simpl; intuition discriminate|].
  exists w', e'. split; [exact Hrun|]. split; [exact Hfind|].
  exact (Hmiss eq_refl).
Defined.

(** X2. On a row none of whose headers is the empty string: when the row
    names an existing record and the store accepts the two calls, the
    stored unit is never null afterwards: it is the text of the unit cell
    when that cell is truthy, and otherwise (the cell is missing, empty or
    zero) the unit the record had, with null turned into the empty
    string. *)
Theorem unit_after_update {F : StoreFaults} {P : Platform}
  (row : ExcelRow) (w : World) (e : InventoryItem) :
  ~ In "" (JsValue.keys row) ->
  let name :=
    Resolution.resolve (Resolution.aliases Resolution.ItemName) row in
  JsValue.truthy name = true ->
  Prisma.find_by_name (JsValue.String_ name) (store w) = Some e ->
  fault (calls w) (store w) (FindFirst (JsValue.String_ name)) = None ->
  fault (S (calls w)) (store w)
        (Update (id e) (ImportRoute.update_data row e)) = None ->
  let cell :=
    Resolution.resolve (Resolution.aliases Resolution.UnitType) row in
  let kept := match unitType e with Some old => old | None => "" end in
  exists w' e',
    ImportRoute.process_row row w = (Ok true, w')
    /\ Prisma.find_by_id (id e) (store w') = Some e'
    /\ unitType e'
       = Some (if JsValue.truthy cell then JsValue.String_ cell else kept)
    /\ (Resolution.has_header Resolution.UnitType row = false ->
        unitType e' = Some kept).
Proof.
  intros Hno name Hn Hf Hc1 Hc2 cell kept.
  assert (Hname : Parsed.itemName row = name)
    by exact (proj1 (raw_cells row Hno)).
  rewrite <- Hname in Hn, Hf, Hc1.
  destruct (raw_cells row Hno) as (_ & _ & _ & Hraw & _).
  destruct (update_effect row w e Hn Hf Hc1 Hc2) as [w' [it [Hrun Hfind]]].
  exists w'. eexists. split; [exact Hrun|]. split; [exact Hfind|].
  assert (Hu : unitType
                 (Prisma.apply_update (ImportRoute.update_data row e) it)
               = Some (if JsValue.truthy cell then JsValue.String_ cell
                       else kept)).
  { simpl. rewrite Hraw. fold cell. unfold kept.
    destruct (JsValue.truthy cell); [reflexivity|].
    destruct (unitType e) as [[|c r]|]; reflexivity. }
  split; [exact Hu|].
  intros Hh. rewrite Hu.
  assert (Hcell : cell = None) by now apply no_header_no_cell.
  now rewrite Hcell.
Qed.

(** A row without a unit cell keeps the unit [box] of the widget. *)
Lemma unit_after_update_witness :
  exists w' e',
    @ImportRoute.process_row no_faults IsoHost.host Sample.qty_twelve
      Sample.start = (Ok true, w')
    /\ Prisma.find_by_id 1 (store w') = Some e'
    /\ unitType e' = Some "box".
Proof.
  destruct (@unit_after_update no_faults IsoHost.host Sample.qty_twelve
              Sample.start Sample.widget)
    as (w' & e' & Hrun & Hfind & _ & Hmiss);
    try reflexivity; [simpl; intuition discriminate|].
  exists w', e'. split; [exact Hrun|]. split; [exact Hfind|].
  exact (Hmiss eq_refl).
Defined.

(** ** What the import leaves alone *)

Section ImportFrame.
Context {P : Platform}.
Import JsValue Replay.

Lemma update_items_ids (key : Z) (d : UpdateData) (l : list InventoryItem) :
  map id (Prisma.update_items key d l) = map id l.
Proof.
  unfold Prisma.update_items. induction l as [|x l IH]; simpl; [reflexivity|].
  rewrite IH. now destruct (id x =? key).
Qed.

(** The keys and names of the records, in store order. *)
Lemma step_grows (row : ExcelRow) (s : Store) :
  exists created,
    map id (items (step row s)) = (map id (items s) ++ map id created)%list
    /\ names (items (step row s)) = (names (items s) ++ names created)%list
    /\ (List.length created
        <= if truthy (Parsed.itemName row) then 1 else 0)%nat
    /\ Forall (fun it => nextId s <= id it
                         /\ ~ In (itemName it) (names (items s))) created
    /\ nextId s <= nextId (step row s).
Proof.
  unfold step. destruct (truthy (Parsed.itemName row)) eqn:Hn; simpl.
  - destruct (Prisma.find_by_name (String_ (Parsed.itemName row)) s)
      as [e|] eqn:Hf.
    + exists []. simpl. rewrite update_items_ids, update_items_names.
      rewrite !app_nil_r. repeat split; try lia. constructor.
    + exists [Prisma.new_item (nextId s) (ImportRoute.create_data row)].
      simpl. unfold names. rewrite !map_app. simpl.
      repeat split; try lia.
      constructor; [|constructor]. split; [simpl; lia|].
      now apply find_name_absent.
  - exists []. simpl. rewrite !app_nil_r. repeat split; try lia. constructor.
Qed.

Lemma run_cons (row : ExcelRow) (rows : list ExcelRow) (s : Store) :
  run (row :: rows) s = run rows (step row s).
Proof. reflexivity. Qed.

Lemma run_grows (rows : list ExcelRow) (s : Store) :
  exists created,
    map id (items (run rows s)) = (map id (items s) ++ map id created)%list
    /\ names (items (run rows s)) = (names (items s) ++ names created)%list
    /\ (List.length created <= Count.processed rows)%nat
    /\ Forall (fun it => nextId s <= id it) created.
Proof.
  revert s. induction rows as [|row rows IH]; intros s.
  - exists []. simpl. rewrite !app_nil_r. repeat split; [reflexivity|constructor].
  - rewrite run_cons.
    destruct (step_grows row s) as (c1 & Hid1 & Hn1 & Hl1 & Hf1 & Hnext).
    destruct (IH (step row s)) as (c2 & Hid2 & Hn2 & Hl2 & Hf2).
    exists (c1 ++ c2)%list. rewrite Hid2, Hn2, Hid1, Hn1.
    unfold names. rewrite !map_app, <- !app_assoc.
    split; [reflexivity|]. split; [reflexivity|]. split.
    + rewrite length_app, processed_cons.
      destruct (truthy (Parsed.itemName row)); lia.
    + apply Forall_app. split.
      * eapply Forall_impl; [|exact Hf1]. simpl. tauto.
      * eapply Forall_impl; [|exact Hf2]. simpl. intros it Hit. lia.
Qed.

(** Names that are distinct stay distinct. *)
Lemma step_names_distinct (row : ExcelRow) (s : Store) :
  NoDup (names (items s)) -> NoDup (names (items (step row s))).
Proof.
  intros Hnd. unfold step. destruct (truthy (Parsed.itemName row)); simpl;
    [|exact Hnd].
  destruct (Prisma.find_by_name (String_ (Parsed.itemName row)) s)
    as [e|] eqn:Hf; simpl.
  - now rewrite update_items_names.
  - apply find_name_absent in Hf. unfold names in *. rewrite map_app. simpl.
    clear - Hnd Hf. induction (map itemName (items s)) as [|x l IH]; simpl.
    + constructor; [tauto | constructor].
    + inversion Hnd as [|? ? Hx Hl]; subst. constructor.
      * rewrite in_app_iff. simpl. intros [H|[H|[]]]; [tauto|].
        apply Hf. now left.
      * apply IH; [exact Hl|]. intros H. apply Hf. now right.
Qed.

Lemma run_names_distinct (rows : list ExcelRow) (s : Store) :
  NoDup (names (items s)) -> NoDup (names (items (run rows s))).
Proof.
  revert s. induction rows as [|row rows IH]; intros s Hnd; [exact Hnd|].
  rewrite run_cons. apply IH. now apply step_names_distinct.
Qed.

End ImportFrame.

Section ImportAnyOutcome.
Context {F : StoreFaults} {P : Platform}.

(** Whatever the answer of the handler, the store it leaves is the replay
    of the leading rows that were committed. *)
Lemma POST_store (request : ImportRoute.Upload) (w : World) :
  exists pre,
    store (snd (ImportRoute.POST request w)) = Replay.run pre (store w)
    /\ (Count.processed pre
        <= match request with
           | ImportRoute.Sheet jsonData => Count.processed jsonData
           | _ => 0
           end)%nat.
Proof.
  destruct request as [|msg|jsonData]; simpl.
  - exists []. now split.
  - exists []. now split.
  - destruct (for_rows_outcome jsonData 0 w)
      as [(w' & Hw')|(pre & row & post & w1 & msg & w2 & -> & Hpre & Hrow & Hst & Hall)].
    + exists jsonData. rewrite Hw'. simpl.
      apply for_rows_replay in Hw'. now destruct Hw'.
    + exists pre. rewrite Hall. simpl. rewrite Hst.
      apply for_rows_replay in Hpre. destruct Hpre as [Hs _].
      split; [exact Hs|].
      unfold Count.processed. rewrite filter_app, length_app. lia.
Qed.

End ImportAnyOutcome.

(** X3. Whatever the upload and whatever the store refuses, the import
    leaves every record that was in the store in its place with its key
    and its name: the keys and names of the store afterwards are those
    before, followed by those of the created records, which are at most as
    many as the rows that pass the guard and have keys from the next key of
    the sequence on.  The import deletes, renames and renumbers nothing. *)
Theorem import_keeps_records {F : StoreFaults} {P : Platform}
  (request : ImportRoute.Upload) (w : World) :
  let after := store (snd (ImportRoute.POST request w)) in
  exists created,
    map id (items after)
    = (map id (items (store w)) ++ map id created)%list
    /\ map itemName (items after)
       = (map itemName (items (store w)) ++ map itemName created)%list
    /\ (List.length created
        <= match request with
           | ImportRoute.Sheet jsonData => Count.processed jsonData
           | _ => 0
           end)%nat
    /\ Forall (fun it => nextId (store w) <= id it) created.
Proof.
  intros after. unfold after.
  destruct (POST_store request w) as (pre & Hs & Hle).
  rewrite Hs.
  destruct (run_grows pre (store w)) as (created & Hid & Hn & Hl & Hf).
  exists created. split; [exact Hid|]. split; [exact Hn|].
  split; [lia | exact Hf].
Qed.

(** X4. Whatever the upload and whatever the store refuses, an import into
    a store whose item names are pairwise distinct leaves them pairwise
    distinct: the import never creates a second record of a name, also
    when several rows of the sheet carry the same new name. *)
Theorem import_keeps_names_distinct {F : StoreFaults} {P : Platform}
  (request : ImportRoute.Upload) (w : World) :
  NoDup (map itemName (items (store w))) ->
  NoDup (map itemName (items (store (snd (ImportRoute.POST request w))))).
Proof.
  intros Hnd. destruct (POST_store request w) as (pre & Hs & _).
  rewrite Hs. now apply run_names_distinct.
Qed.

(** Two rows with the same new name give one record. *)
Lemma import_keeps_names_distinct_witness :
  NoDup (map itemName
           (items (store (snd (@ImportRoute.POST no_faults IsoHost.host
                                 (ImportRoute.Sheet
                                    [Sample.gadget; Sample.gadget_negative])
                                 Sample.start)))))
  /\ map itemName
       (items (store (snd (@ImportRoute.POST no_faults IsoHost.host
                             (ImportRoute.Sheet
                                [Sample.gadget; Sample.gadget_negative])
                             Sample.start))))
     = ["Widget"; "Gadget"].
Proof.
  split; [|reflexivity].
  apply (@import_keeps_names_distinct no_faults IsoHost.host).
  simpl. constructor; [intros [] | constructor].
Defined.

(** X5. Whatever the upload and whatever the store refuses, an import into
    a store with distinct keys below the next key of the sequence leaves
    such a store. *)
Theorem import_keeps_keys_distinct {F : StoreFaults} {P : Platform}
  (request : ImportRoute.Upload) (w : World) :
  Replay.well_formed (store w) ->
  Replay.well_formed (store (snd (ImportRoute.POST request w))).
Proof.
  intros Hwf. destruct (POST_store request w) as (pre & Hs & _).
  rewrite Hs. now apply run_well_formed.
Qed.

Lemma import_keeps_keys_distinct_witness :
  Replay.well_formed
    (store (snd (@ImportRoute.POST Sample.flaky IsoHost.host
                   (ImportRoute.Sheet [Sample.gadget; Sample.qty_twelve;
                                       Sample.ghost])
                   Sample.start))).
Proof.
  apply (@import_keeps_keys_distinct Sample.flaky IsoHost.host).
  split.
  - constructor; [intros [] | constructor].
  - constructor; [reflexivity | constructor].
Defined.

(** ** Store calls of an import *)

Lemma for_rows_calls {F : StoreFaults} {P : Platform}
  (rows : list ExcelRow) (count n : nat) (w w' : World) :
  ImportRoute.for_rows rows count w = (Ok n, w') ->
  calls w' = (calls w + 2 * Count.processed rows)%nat.
Proof.
  revert count w. induction rows as [|r rows IH]; intros count w.
  - simpl. unfold ret. intros H. injection H as <- <-.
    unfold Count.processed. simpl. lia.
  - simpl. unfold bind.
    destruct (JsValue.truthy (Parsed.itemName r)) eqn:Hn.
    + destruct (process_row_reached r w Hn)
        as [(w1 & Hrun & Hc)|(msg & w1 & Hrun & _)];
        rewrite Hrun; [|discriminate].
      intros H. apply IH in H. rewrite H, Hc, processed_cons, Hn. lia.
    + rewrite (process_row_skip r w Hn).
      intros H. apply IH in H. rewrite H, processed_cons, Hn. lia.
Qed.

(** X6. An import that succeeds has made two store calls, a lookup and a
    write, for each row it counted and none for the rows it skipped. *)
Theorem import_calls {F : StoreFaults} {P : Platform}
  (jsonData : list ExcelRow) (w w' : World) (message : string) (count : nat) :
  ImportRoute.POST (ImportRoute.Sheet jsonData) w
  = (ImportRoute.Processed message count, w') ->
  calls w' = (calls w + 2 * count)%nat
  /\ count = Count.processed jsonData.
Proof.
  unfold ImportRoute.POST.
  destruct (ImportRoute.for_rows jsonData 0 w) as [[n|msg] v] eqn:Hrun;
    [|discriminate].
  intros H. injection H as _ <- <-.
  pose proof (for_rows_calls _ _ _ _ _ Hrun) as Hc.
  apply for_rows_replay in Hrun. destruct Hrun as [_ Hn]. simpl in Hn.
  subst n. now split.
Qed.

Lemma import_calls_witness :
  calls (snd (@ImportRoute.POST no_faults IsoHost.host
                (ImportRoute.Sheet [Sample.qty_twelve; Sample.nameless;
                                    Sample.gadget])
                Sample.start)) = 4%nat
  /\ 2%nat = Count.processed [Sample.qty_twelve; Sample.nameless; Sample.gadget].
Proof.
  exact (@import_calls no_faults IsoHost.host
           [Sample.qty_twelve; Sample.nameless; Sample.gadget]
           Sample.start _ _ _ eq_refl).
Defined.

(** * The list, create, update and delete routes *)

(** ** The list *)

Section ListRoute.
Import PrismaQuery.

Lemma insert_by_id_perm (x : InventoryItem) (l : list InventoryItem) :
  Permutation (insert_by_id x l) (x :: l).
Proof.
  induction l as [|y l IH]; simpl; [reflexivity|].
  destruct (id x <=? id y); [reflexivity|].
  rewrite IH. apply perm_swap.
Qed.

Lemma order_by_id_perm (l : list InventoryItem) :
  Permutation (order_by_id l) l.
Proof.
  induction l as [|x l IH]; simpl; [reflexivity|].
  rewrite insert_by_id_perm. now constructor.
Qed.

Lemma insert_by_id_sorted (x : InventoryItem) (l : list InventoryItem) :
  Sorted (fun a b => id a <= id b) l ->
  Sorted (fun a b => id a <= id b) (insert_by_id x l).
Proof.
  induction l as [|y l IH]; simpl; intros Hs.
  - repeat constructor.
  - destruct (Z.leb_spec (id x) (id y)) as [Hle|Hgt].
    + constructor; [exact Hs | now constructor].
    + inversion Hs as [|? ? Hs' Hhd]; subst.
      constructor; [now apply IH|].
      destruct l as [|z l]; simpl.
      * constructor. lia.
      * destruct (Z.leb_spec (id x) (id z)); constructor;
          [lia | now inversion Hhd].
Qed.

Lemma order_by_id_sorted (l : list InventoryItem) :
  Sorted (fun a b => id a <= id b) (order_by_id l).
Proof.
  induction l as [|x l IH]; simpl; [constructor|].
  now apply insert_by_id_sorted.
Qed.

End ListRoute.

(** X7. The list route never changes the store.  It asks the store for
    the records under the filters of the request, where an empty search
    text is no filter and a status that is missing, empty or [all] is no
    filter either.  When the store refuses the query it answers 500
    [Failed to fetch inventory]; when the store accepts the query it
    answers with the records that match the filters, each once, in
    ascending order of their keys. *)
Theorem list_route {Q : QueryFaults} {T : TextSearch}
  (search by_status : option string) (w : World) :
  let answer := CollectionRoute.GET search by_status w in
  let where_itemName :=
    match search with
    | Some text => if JsString.is_empty text then None else Some text
    | None => None
    end in
  let where_status :=
    match by_status with
    | Some st =>
        if JsString.is_empty st || String.eqb st "all" then None else Some st
    | None => None
    end in
  let refused :=
    refuses (calls w) (store w) (FindMany where_itemName where_status) in
  store (snd answer) = store w
  /\ (forall msg,
         refused = Some msg ->
         fst answer = CollectionRoute.ListError 500 "Failed to fetch inventory")
  /\ (refused = None ->
      exists found,
        fst answer = CollectionRoute.Items found
        /\ StronglySorted (fun a b => id a <= id b) found
        /\ Permutation found
             (filter
                (fun it =>
                   match search with
                   | Some text =>
                       JsString.is_empty text || contains (itemName it) text
                   | None => true
                   end
                   && match by_status with
                      | Some st =>
                          JsString.is_empty st || String.eqb st "all"
                          || String.eqb (status it) st
                      | None => true
                      end)
                (items (store w)))).
Proof.
  intros answer where_itemName where_status refused.
  assert (Hst : where_status
                = match by_status with
                  | Some st =>
                      if negb (JsString.is_empty st)
                         && negb (String.eqb st "all")
                      then Some st else None
                  | None => None
                  end).
  { unfold where_status. destruct by_status as [st|]; [|reflexivity].
    destruct (JsString.is_empty st), (String.eqb st "all"); reflexivity. }
  unfold answer, CollectionRoute.GET, findMany, await_query.
  fold where_itemName. rewrite <- Hst. fold refused.
  destruct refused as [msg|]; simpl.
  - split; [reflexivity|]. split; [reflexivity | discriminate].
  - split; [reflexivity|]. split; [discriminate|]. intros _.
    eexists. split; [reflexivity|]. split.
    + apply Sorted_StronglySorted.
      * intros a b c Hab Hbc. lia.
      * apply order_by_id_sorted.
    + unfold PrismaQuery.find_many. rewrite order_by_id_perm.
      erewrite filter_ext; [reflexivity|].
      intros it. unfold PrismaQuery.matches_where, where_itemName, where_status.
      f_equal.
      * destruct search as [[|c r]|]; reflexivity.
      * destruct by_status as [st|]; [|reflexivity].
        destruct st as [|c r]; [reflexivity|].
        change (JsString.is_empty (String c r)) with false.
        rewrite !orb_false_l.
        destruct (String.eqb (String c r) "all"); reflexivity.
Qed.

(** The whole room in the order of the keys, the checked records with a W
    in their name, and a store that refuses the query. *)
Lemma list_route_witness :
  fst (@CollectionRoute.GET no_refusals PrismaQuery.case_sensitive
         None (Some "all") Stock.start)
  = CollectionRoute.Items [Sample.widget; Stock.wire; Stock.tape]
  /\ fst (@CollectionRoute.GET no_refusals PrismaQuery.case_sensitive
            (Some "W") (Some "checked") Stock.start)
     = CollectionRoute.Items [Sample.widget; Stock.wire]
  /\ fst (@CollectionRoute.GET Stock.locked PrismaQuery.case_sensitive
            (Some "W") None Stock.start)
     = CollectionRoute.ListError 500 "Failed to fetch inventory".
Proof.
  split; [reflexivity|]. split; [reflexivity|].
  exact (proj1 (proj2 (@list_route Stock.locked PrismaQuery.case_sensitive
                         (Some "W") None Stock.start))
               "database is locked" eq_refl).
Defined.

(** ** Deleting one record *)

Section DeleteFacts.

Lemma find_by_id_some (key : Z) (s : Store) (it : InventoryItem) :
  Prisma.find_by_id key s = Some it -> In it (items s) /\ id it = key.
Proof.
  unfold Prisma.find_by_id. intros Hf. apply find_some in Hf.
  destruct Hf as [Hin Heq]. split; [exact Hin | now apply Z.eqb_eq].
Qed.

Lemma find_by_id_none (key : Z) (s : Store) :
  Prisma.find_by_id key s = None <-> ~ In key (map id (items s)).
Proof.
  unfold Prisma.find_by_id. induction (items s) as [|x l IH]; simpl; [tauto|].
  destruct (Z.eqb_spec (id x) key) as [Hx|Hx].
  - split; [discriminate | intros H; exfalso; apply H; now left].
  - rewrite IH. tauto.
Qed.

Lemma keep_other_absent (key : Z) (s : Store) :
  ~ In key (map id (items (PrismaQuery.keep_other key s))).
Proof.
  simpl. intros Hin. apply in_map_iff in Hin. destruct Hin as (it & Hid & Hit).
  apply filter_In in Hit. destruct Hit as [_ Hne].
  apply negb_true_iff, Z.eqb_neq in Hne. contradiction.
Qed.

Lemma keep_other_length (key : Z) (l : list InventoryItem) :
  NoDup (map id l) -> In key (map id l) ->
  S (List.length (filter (fun it => negb (id it =? key)) l)) = List.length l.
Proof.
  induction l as [|x l IH]; simpl; intros Hnd Hin; [contradiction|].
  inversion Hnd as [|? ? Hx Hl]; subst.
  destruct (Z.eqb_spec (id x) key) as [Heq|Hne]; simpl.
  - f_equal. rewrite <- Heq in *.
    clear - Hx. induction l as [|y l IH]; simpl; [reflexivity|].
    destruct (Z.eqb_spec (id y) (id x)) as [Hy|Hy]; simpl.
    + exfalso. apply Hx. simpl. now left.
    + f_equal. apply IH. intros H. apply Hx. simpl. now right.
  - f_equal. apply IH; [exact Hl|]. destruct Hin; [contradiction | assumption].
Qed.

Lemma DELETE_found {Q : QueryFaults} (param_id : string) (key : Z)
  (w : World) :
  JsNumber.parseInt param_id = Some key ->
  In key (map id (items (store w))) ->
  refuses (calls w) (store w) (Delete key) = None ->
  exists w',
    ItemRoute.DELETE param_id w
    = (ItemRoute.Message "Item deleted successfully", w')
    /\ store w' = PrismaQuery.keep_other key (store w).
Proof.
  intros Hp Hin Hq.
  destruct (Prisma.find_by_id key (store w)) as [it|] eqn:Hf.
  - eexists. unfold ItemRoute.DELETE, delete, await_query.
    rewrite Hp, Hq, Hf. simpl. split; reflexivity.
  - apply find_by_id_none in Hf. contradiction.
Qed.

End DeleteFacts.

(** X8. When the path parameter parses to the key of a record, the keys of
    the store are distinct and the store accepts the call, the delete of
    one record answers with the success message and leaves the store with
    exactly that record removed: the other records stay, in their order,
    the key is gone, there is one record fewer, and the key sequence is
    untouched. *)
Theorem delete_removes {Q : QueryFaults} (param_id : string) (key : Z)
  (w : World) :
  JsNumber.parseInt param_id = Some key ->
  In key (map id (items (store w))) ->
  NoDup (map id (items (store w))) ->
  refuses (calls w) (store w) (Delete key) = None ->
  exists w',
    ItemRoute.DELETE param_id w
    = (ItemRoute.Message "Item deleted successfully", w')
    /\ items (store w')
       = filter (fun it => negb (id it =? key)) (items (store w))
    /\ ~ In key (map id (items (store w')))
    /\ (forall it, In it (items (store w)) -> id it <> key ->
                   In it (items (store w')))
    /\ S (List.length (items (store w'))) = List.length (items (store w))
    /\ nextId (store w') = nextId (store w).
Proof.
  intros Hp Hin Hnd Hq.
  destruct (Prisma.find_by_id key (store w)) as [it|] eqn:Hf.
  - eexists. unfold ItemRoute.DELETE, delete, await_query.
    rewrite Hp, Hq, Hf. simpl. split; [reflexivity|].
    split; [reflexivity|]. split; [apply keep_other_absent|].
    split; [|split; [now apply keep_other_length | reflexivity]].
    intros x Hx Hne. apply filter_In. split; [exact Hx|].
    now apply negb_true_iff, Z.eqb_neq.
  - apply find_by_id_none in Hf. contradiction.
Qed.

Lemma delete_removes_witness :
  exists w',
    @ItemRoute.DELETE no_refusals "1" Stock.start
    = (ItemRoute.Message "Item deleted successfully", w')
    /\ items (store w') = [Stock.tape; Stock.wire]
    /\ ~ In 1 (map id (items (store w')))
    /\ (forall it, In it (items Stock.room) -> id it <> 1 ->
                   In it (items (store w')))
    /\ S (List.length (items (store w'))) = 3%nat
    /\ nextId (store w') = 4.
Proof.
  apply (@delete_removes no_refusals "1" 1 Stock.start eq_refl).
  - simpl. tauto.
  - simpl. repeat constructor; simpl; intuition discriminate.
  - reflexivity.
Defined.

(** X9. The delete of one record answers with the error, and leaves the
    store as it is, when the path parameter is not a number, when no
    record has the key and when the store refuses the call; so after a
    delete that succeeded, the same delete again is answered with the
    error. *)
Theorem delete_missing {Q : QueryFaults} (param_id : string) (w : World) :
  (JsNumber.parseInt param_id = None
   \/ (exists key, JsNumber.parseInt param_id = Some key
                   /\ (~ In key (map id (items (store w)))
                       \/ refuses (calls w) (store w) (Delete key) <> None))
   <-> fst (ItemRoute.DELETE param_id w)
       = ItemRoute.Error 500 "Failed to delete item")
  /\ (fst (ItemRoute.DELETE param_id w)
      = ItemRoute.Error 500 "Failed to delete item" ->
      store (snd (ItemRoute.DELETE param_id w)) = store w)
  /\ (forall w' w'' r,
         ItemRoute.DELETE param_id w
         = (ItemRoute.Message "Item deleted successfully", w') ->
         ItemRoute.DELETE param_id w' = (r, w'') ->
         r = ItemRoute.Error 500 "Failed to delete item"
         /\ store w'' = store w').
Proof.
  assert (Hcases :
            forall v,
              match JsNumber.parseInt param_id with
              | None =>
                  ItemRoute.DELETE param_id v
                  = (ItemRoute.Error 500 "Failed to delete item", v)
              | Some key =>
                  match refuses (calls v) (store v) (Delete key),
                        Prisma.find_by_id key (store v) with
                  | None, Some it =>
                      ItemRoute.DELETE param_id v
                      = (ItemRoute.Message "Item deleted successfully",
                         {| store := PrismaQuery.keep_other key (store v);
                            calls := S (calls v) |})
                  | _, _ =>
                      ItemRoute.DELETE param_id v
                      = (ItemRoute.Error 500 "Failed to delete item",
                         {| store := store v; calls := S (calls v) |})
                  end
              end).
  { intros v. unfold ItemRoute.DELETE, delete, await_query.
    destruct (JsNumber.parseInt param_id) as [key|]; [|reflexivity].
    destruct (refuses (calls v) (store v) (Delete key)); [reflexivity|].
    destruct (Prisma.find_by_id key (store v)); reflexivity. }
  split; [|split].
  - specialize (Hcases w).
    destruct (JsNumber.parseInt param_id) as [key|].
    + destruct (refuses (calls w) (store w) (Delete key)) as [msg|] eqn:Hq.
      * rewrite Hcases. simpl. split; [reflexivity|]. intros _. right.
        exists key. split; [reflexivity|]. right. rewrite Hq. discriminate.
      * destruct (Prisma.find_by_id key (store w)) as [it|] eqn:Hf;
          rewrite Hcases; simpl.
        -- split; [|discriminate].
           intros [H|(k & Hk & [Hn|Hr])]; [discriminate| |].
           ++ injection Hk as <-. apply find_by_id_none in Hn. congruence.
           ++ injection Hk as <-. rewrite Hq in Hr. now contradiction Hr.
        -- split; [reflexivity|]. intros _. right. exists key.
           split; [reflexivity|]. left. now apply find_by_id_none.
    + rewrite Hcases. simpl. split; [reflexivity | intros _; now left].
  - specialize (Hcases w).
    destruct (JsNumber.parseInt param_id) as [key|].
    + destruct (refuses (calls w) (store w) (Delete key));
        [rewrite Hcases; reflexivity|].
      destruct (Prisma.find_by_id key (store w));
        rewrite Hcases; [discriminate | reflexivity].
    + rewrite Hcases. reflexivity.
  - intros w' w'' r H1 H2.
    pose proof (Hcases w) as Hw. pose proof (Hcases w') as Hw'.
    destruct (JsNumber.parseInt param_id) as [key|].
    + destruct (refuses (calls w) (store w) (Delete key));
        [rewrite Hw in H1; discriminate|].
      destruct (Prisma.find_by_id key (store w)) as [it|];
        [|rewrite Hw in H1; discriminate].
      rewrite Hw in H1. injection H1 as <-.
      assert (Hgone : Prisma.find_by_id key
                        (PrismaQuery.keep_other key (store w)) = None).
      { apply find_by_id_none, keep_other_absent. }
      simpl in Hw'. rewrite Hgone in Hw'.
      destruct (refuses _ _ _); rewrite Hw' in H2;
        injection H2 as <- <-; now split.
    + rewrite Hw in H1. discriminate.
Qed.

(** ** Deleting several records *)

Section BulkFacts.
Import PrismaQuery.

Lemma filter_split_length {A : Type} (f : A -> bool) (l : list A) :
  (List.length (filter f l) + List.length (filter (fun x => negb (f x)) l)
   = List.length l)%nat.
Proof.
  induction l as [|x l IH]; simpl; [reflexivity|].
  destruct (f x); simpl; lia.
Qed.

Lemma in_keys_In (keys : list Z) (it : InventoryItem) :
  in_keys keys it = true <-> In (id it) keys.
Proof.
  unfold in_keys. rewrite existsb_exists. split.
  - intros (k & Hk & Heq). apply Z.eqb_eq in Heq. now subst.
  - intros Hin. exists (id it). split; [exact Hin | apply Z.eqb_refl].
Qed.

Lemma keep_others_again (keys : list Z) (s : Store) :
  count_in keys (keep_others keys s) = 0%nat
  /\ keep_others keys (keep_others keys s) = keep_others keys s.
Proof.
  unfold count_in, keep_others. simpl. split.
  - induction (items s) as [|x l IH]; simpl; [reflexivity|].
    destruct (in_keys keys x) eqn:Hx; simpl; [exact IH|].
    now rewrite Hx.
  - f_equal. induction (items s) as [|x l IH]; simpl; [reflexivity|].
    destruct (in_keys keys x) eqn:Hx; simpl; [exact IH|].
    rewrite Hx. simpl. now f_equal.
Qed.

End BulkFacts.

(** X10. When the [ids] of the body are a non-empty array of integers and
    the store accepts the call, the bulk delete removes exactly the
    records whose key is in the array and answers with their number: the
    other records stay in their order, keys of the array that no record
    has are ignored, and a second bulk delete of the same keys would
    remove nothing. *)
Theorem bulk_delete {Q : QueryFaults} {C : Client} (elements : list json)
  (keys : list Z) (w : World) :
  elements <> [] ->
  CollectionRoute.int_keys elements = Some keys ->
  refuses (calls w) (store w) (DeleteMany keys) = None ->
  exists w' count,
    CollectionRoute.DELETE (CollectionRoute.IdArray elements) w
    = (CollectionRoute.Deleted
         (JsNumber.string_of_nat_Z (Z.of_nat count)
          ++ " items deleted successfully") count, w')
    /\ items (store w')
       = filter (fun it => negb (PrismaQuery.in_keys keys it))
                (items (store w))
    /\ (forall it, In it (items (store w'))
                   <-> In it (items (store w)) /\ ~ In (id it) keys)
    /\ (count + List.length (items (store w'))
        = List.length (items (store w)))%nat
    /\ nextId (store w') = nextId (store w)
    /\ PrismaQuery.count_in keys (store w') = 0%nat.
Proof.
  intros Hne Hk Hq.
  exists {| store := PrismaQuery.keep_others keys (store w);
            calls := S (calls w) |},
         (PrismaQuery.count_in keys (store w)).
  split.
  - unfold CollectionRoute.DELETE. destruct elements as [|e l];
      [contradiction|].
    rewrite (keys_int_keys _ _ Hk). unfold deleteMany, await_query.
    now rewrite Hq.
  - simpl. split; [reflexivity|]. split; [|split; [|split]].
    + intros it. rewrite filter_In, negb_true_iff.
      rewrite <- in_keys_In. destruct (PrismaQuery.in_keys keys it);
        intuition congruence.
    + apply filter_split_length.
    + reflexivity.
    + apply (keep_others_again keys (store w)).
Qed.

Lemma bulk_delete_witness :
  exists w' count,
    @CollectionRoute.DELETE no_refusals strict
      (CollectionRoute.IdArray [JNum (Dec 1 0); JNum (Dec 9 0); JNum (Dec 3 0)])
      Stock.start
    = (CollectionRoute.Deleted
         (JsNumber.string_of_nat_Z (Z.of_nat count)
          ++ " items deleted successfully") count, w')
    /\ items (store w') = [Stock.wire]
    /\ (forall it, In it (items (store w'))
                   <-> In it (items Stock.room) /\ ~ In (id it) [1; 9; 3])
    /\ (count + List.length (items (store w')) = 3)%nat
    /\ nextId (store w') = 4
    /\ PrismaQuery.count_in [1; 9; 3] (store w') = 0%nat.
Proof.
  apply (@bulk_delete no_refusals strict _ [1; 9; 3] Stock.start).
  - discriminate.
  - reflexivity.
  - reflexivity.
Defined.



(** With a client that takes a key with a fraction without the fraction,
    the array [[1.5]] deletes the record 1. *)
Example bulk_delete_fraction :
  exists w',
    @CollectionRoute.DELETE no_refusals Sample.truncating
      (CollectionRoute.IdArray [JNum (Dec 15 (-1))]) Stock.start
    = (CollectionRoute.Deleted "1 items deleted successfully" 1, w')
    /\ items (store w') = [Stock.tape; Stock.wire].
Proof. eexists. split; reflexivity. Qed.

(** ** Creating a record *)

Lemma POST_item {F : StoreFaults} {C : Client} {P : Platform} (body : Body)
  (w w1 : World) (code : Z) (newItem : InventoryItem) :
  ItemsRoute.POST body w = (ItemsRoute.Item code newItem, w1) ->
  code = 201
  /\ items (store w1) = (items (store w) ++ [newItem])%list
  /\ id newItem = nextId (store w)
  /\ nextId (store w1) = nextId (store w) + 1
  /\ exists d,
      ItemsRoute.create_data body = Written d
      /\ newItem = Prisma.new_item (nextId (store w)) d.
Proof.
  unfold ItemsRoute.POST.
  destruct (negb (Json.truthy (b_itemName body))
            || ItemsRoute.is_undefined (b_sellingPrice body)
            || ItemsRoute.is_undefined (b_currentQuantity body));
    [discriminate|].
  destruct (ItemsRoute.create_data body) as [|d|d] eqn:Hd;
    [discriminate| |discriminate].
  unfold create, await.
  destruct (fault (calls w) (store w) (Create d)); simpl; [discriminate|].
  intros H. injection H as <- <- <-. simpl.
  repeat split. now exists d.
Qed.




(** With a client that takes a quantity with a fraction without the
    fraction and throws after it has written a quantity beyond the 32-bit
    range, the quantity 2.5 is stored as 2, and the quantity 2^53 is
    answered with an error although the record is written. *)
Example create_route_client :
  fst (@ItemsRoute.POST no_faults Sample.truncating IsoHost.host
         Sample.body_fraction Sample.start)
  = ItemsRoute.Item 201
      {| id := 2; itemName := "Gadget"; sellingPrice := Dec 5 0;
         currentQuantity := 2; unitType := Some "";
         expiryDate := None; status := "not yet" |}
  /\ exists w',
      @ItemsRoute.POST no_faults Sample.truncating IsoHost.host
        Sample.body_large Sample.start
      = (ItemsRoute.Error 500 "Failed to create item", w')
      /\ items (store w')
         = [Sample.widget;
            {| id := 2; itemName := "Gadget"; sellingPrice := Dec 5 0;
               currentQuantity := 9007199254740992; unitType := Some "";
               expiryDate := None; status := "not yet" |}].
Proof. split; [reflexivity|]. eexists. split; reflexivity. Qed.

(** X13. In a store with distinct keys below the next key of the sequence,
    deleting the record that a create has just returned brings back the
    records of before the create; the key sequence has moved on. *)
Theorem create_then_delete {F : StoreFaults} {C : Client} {P : Platform}
  {Q : QueryFaults}
  (body : Body) (w w1 : World) (newItem : InventoryItem) (param_id : string) :
  Replay.well_formed (store w) ->
  ItemsRoute.POST body w = (ItemsRoute.Item 201 newItem, w1) ->
  JsNumber.parseInt param_id = Some (id newItem) ->
  refuses (calls w1) (store w1) (Delete (id newItem)) = None ->
  exists w2,
    ItemRoute.DELETE param_id w1
    = (ItemRoute.Message "Item deleted successfully", w2)
    /\ items (store w2) = items (store w)
    /\ nextId (store w2) = nextId (store w) + 1.
Proof.
  intros [Hnd Hlt] Hpost Hp Hq.
  destruct (POST_item body w w1 201 newItem Hpost)
    as (_ & Hitems & Hid & Hnext & _).
  assert (Hin : In (id newItem) (map id (items (store w1)))).
  { rewrite Hitems, map_app, in_app_iff. right. now left. }
  destruct (DELETE_found param_id (id newItem) w1 Hp Hin Hq)
    as (w2 & Hdel & Hkeep).
  exists w2. split; [exact Hdel|]. rewrite Hkeep. simpl.
  split; [|exact Hnext].
  rewrite Hitems, filter_app. simpl.
  rewrite Z.eqb_refl. simpl. rewrite app_nil_r.
  rewrite Forall_forall in Hlt.
  clear - Hlt Hid. induction (items (store w)) as [|x l IH]; [reflexivity|].
  simpl. destruct (Z.eqb_spec (id x) (id newItem)) as [Heq|_].
  - specialize (Hlt x (or_introl eq_refl)). lia.
  - simpl. f_equal. apply IH. intros y Hy. apply Hlt. now right.
Qed.

Lemma create_then_delete_witness :
  exists w2,
    @ItemRoute.DELETE no_refusals "4"
      (snd (@ItemsRoute.POST no_faults strict IsoHost.host Stock.body_nut
              Stock.start))
    = (ItemRoute.Message "Item deleted successfully", w2)
    /\ items (store w2) = items Stock.room
    /\ nextId (store w2) = 4 + 1.
Proof.
  refine (@create_then_delete no_faults strict IsoHost.host no_refusals
            Stock.body_nut Stock.start _ _ "4" _ eq_refl eq_refl eq_refl).
  split.
  - simpl. repeat constructor; simpl; intuition discriminate.
  - repeat constructor.
Defined.

(** ** Updating a record *)

Lemma update_items_other (key : Z) (d : UpdateData) (l : list InventoryItem)
  (x : InventoryItem) :
  In x l -> id x <> key -> In x (Prisma.update_items key d l).
Proof.
  intros Hin Hne. unfold Prisma.update_items. apply in_map_iff.
  exists x. split; [|exact Hin].
  destruct (Z.eqb_spec (id x) key); [contradiction | reflexivity].
Qed.

Lemma modify_ids (key : Z) (d : UpdateData) (s : Store) :
  map id (items (Prisma.modify key d s)) = map id (items s)
  /\ nextId (Prisma.modify key d s) = nextId s
  /\ forall x, In x (items s) -> id x <> key ->
               In x (items (Prisma.modify key d s)).
Proof.
  split; [apply update_items_ids|]. split; [reflexivity|].
  intros x Hx Hne. now apply update_items_other.
Qed.

(** What an update that answers with an error leaves behind. *)
Lemma PUT_error {F : StoreFaults} {C : Client} {P : Platform}
  (param_id : string) (body : Body) (w w1 : World) (code : Z)
  (error : string) :
  ItemsRoute.PUT param_id body w = (ItemsRoute.Error code error, w1) ->
  store w1 = store w
  \/ exists key d,
      JsNumber.parseInt param_id = Some key
      /\ ItemsRoute.update_data body = WrittenThenThrown d
      /\ store w1 = Prisma.modify key d (store w).
Proof.
  unfold ItemsRoute.PUT.
  destruct (JsNumber.parseInt param_id) as [key|];
    [|intros H; injection H as <- <- <-; now left].
  destruct (ItemsRoute.update_data body) as [|d|d] eqn:Hd.
  - intros H. injection H as <- <- <-. now left.
  - unfold update, await.
    destruct (fault (calls w) (store w) (Update key d));
      [intros H; injection H as <- <- <-; now left|].
    destruct (Prisma.find_by_id key (store w)); simpl; [discriminate|].
    intros H. injection H as <- <- <-. now left.
  - unfold update, await.
    destruct (fault (calls w) (store w) (Update key d));
      [intros H; injection H as <- <- <-; now left|].
    destruct (Prisma.find_by_id key (store w)); simpl;
      intros H; injection H as <- <- <-.
    + right. exists key, d. now repeat split.
    + now left.
Qed.

(** X14. When the update endpoint answers with a record, that record is
    stored under the key of the path parameter, the keys of the store and
    their order are as before, the records with other keys are untouched,
    and the expiry of the record is null whenever the body has no truthy
    [expiryDate].  When it answers with an error the keys of the store,
    their order and the key sequence are as before and the records with
    other keys than that of the path parameter are untouched: the client
    can throw after it has written.  With a body whose values are of the
    types of their columns an error leaves the store as it was. *)
Theorem update_route {F : StoreFaults} {C : Client} {P : Platform}
  (param_id : string) (body : Body) (w : World) :
  let answer := ItemsRoute.PUT param_id body w in
  (forall code updated,
      fst answer = ItemsRoute.Item code updated ->
      code = 200
      /\ JsNumber.parseInt param_id = Some (id updated)
      /\ Prisma.find_by_id (id updated) (store (snd answer)) = Some updated
      /\ map id (items (store (snd answer))) = map id (items (store w))
      /\ (forall x, In x (items (store w)) -> id x <> id updated ->
                    In x (items (store (snd answer))))
      /\ nextId (store (snd answer)) = nextId (store w)
      /\ (Json.truthy (b_expiryDate body) = false ->
          expiryDate updated = None))
  /\ (forall code error,
         fst answer = ItemsRoute.Error code error ->
         map id (items (store (snd answer))) = map id (items (store w))
         /\ nextId (store (snd answer)) = nextId (store w)
         /\ (forall key x,
                JsNumber.parseInt param_id = Some key ->
                In x (items (store w)) -> id x <> key ->
                In x (items (store (snd answer))))
         /\ (JsNumber.parseInt param_id = None ->
             store (snd answer) = store w))
  /\ (ItemsRoute.typed_update body ->
      forall code error,
        fst answer = ItemsRoute.Error code error ->
        store (snd answer) = store w).
Proof.
  intros answer.
  assert (Hanswer : ItemsRoute.PUT param_id body w = (fst answer, snd answer))
    by (unfold answer; now destruct (ItemsRoute.PUT param_id body w)).
  split; [|split].
  - unfold answer, ItemsRoute.PUT.
    destruct (JsNumber.parseInt param_id) as [key|]; [|simpl; discriminate].
    destruct (ItemsRoute.update_data body) as [|d|d] eqn:Hd;
      [simpl; discriminate | | simpl; discriminate].
    unfold update, await.
    destruct (fault (calls w) (store w) (Update key d));
      [simpl; discriminate|].
    destruct (Prisma.find_by_id key (store w)) as [it|] eqn:Hf;
      [|simpl; discriminate].
    simpl. intros code updated H. injection H as <- <-.
    destruct (find_by_id_some _ _ _ Hf) as [Hin Hid].
    assert (Hkey : id (Prisma.apply_update d it) = key) by exact Hid.
    rewrite Hkey.
    split; [reflexivity|]. split; [reflexivity|].
    split; [now apply find_by_id_modify|].
    split; [apply update_items_ids|].
    split; [intros x Hx Hne; now apply update_items_other|].
    split; [reflexivity|].
    intros Hfalsy. simpl.
    destruct (update_data_stored body d (or_introl Hd))
      as (_ & _ & _ & _ & _ & (expiry & -> & Hexp)).
    unfold ItemsRoute.date_or_null in Hexp. rewrite Hfalsy in Hexp.
    simpl. now apply stored_date_null.
  - intros code error Herr. rewrite Herr in Hanswer.
    destruct (PUT_error param_id body w _ code error Hanswer)
      as [Hs | (key & d & Hp & _ & Hs)]; rewrite Hs.
    + repeat split; auto.
    + destruct (modify_ids key d (store w)) as (Hids & Hnext & Hother).
      split; [exact Hids|]. split; [exact Hnext|]. split.
      * intros key' x Hp' Hx Hne. apply Hother; [exact Hx | congruence].
      * intros Hnone. congruence.
  - intros Htyped code error Herr. rewrite Herr in Hanswer.
    destruct (update_data_typed body Htyped) as [d Hd].
    destruct (PUT_error param_id body w _ code error Hanswer)
      as [Hs | (key & d' & _ & Hd' & _)]; [exact Hs | congruence].
Qed.

(** The widget, which has an expiry, is updated by a body without one,
    whatever the client; an update of a record that is not there leaves
    the room as it is. *)
Lemma update_route_witness :
  (forall C : Client,
      fst (@ItemsRoute.PUT no_faults C IsoHost.host "1" Stock.body_nut
             Stock.start)
      = ItemsRoute.Item 200
          {| id := 1; itemName := "Nut"; sellingPrice := Dec 25 (-2);
             currentQuantity := 0; unitType := Some "pcs";
             expiryDate := None; status := "checked" |}
      /\ map id (items (store (snd (@ItemsRoute.PUT no_faults C IsoHost.host
                                      "1" Stock.body_nut Stock.start))))
         = [3; 1; 2])
  /\ store (snd (@ItemsRoute.PUT no_faults strict IsoHost.host "9"
                   Stock.body_nut Stock.start))
     = Stock.room.
Proof.
  split; [intros C; split; reflexivity|].
  apply (proj2 (proj2 (@update_route no_faults strict IsoHost.host "9"
                         Stock.body_nut Stock.start)))
    with (code := 500) (error := "Failed to update item").
  - split; [right; now exists "Nut"|].
    split; [reflexivity|].
    split; [exists 0; split; reflexivity|].
    split; [right; right; now exists "pcs"|].
    split; [now left | discriminate].
  - reflexivity.
Defined.

(** With a client that throws after it has written a quantity beyond the
    32-bit range, an update with the quantity 2^53 is answered with an
    error although the record is written. *)
Example update_route_client :
  exists w',
    @ItemsRoute.PUT no_faults Sample.truncating IsoHost.host "1"
      Sample.body_large Sample.start
    = (ItemsRoute.Error 500 "Failed to update item", w')
    /\ items (store w')
       = [{| id := 1; itemName := "Gadget"; sellingPrice := Dec 5 0;
             currentQuantity := 9007199254740992; unitType := Some "box";
             expiryDate := None; status := "checked" |}].
Proof. eexists. split; reflexivity. Qed.

(** * The inventory page *)

(** ** Unit options of the edit and add forms *)

(** X15. Whatever the current value, the unit options have pairwise
    distinct values (they are used as keys of the rendered options), every
    fixed option is among them, and the trimmed current text is among the
    values whenever the current value is a text that is not blank. *)
Theorem unit_options (currentValue : json) :
  let options := Page.getUnitTypeOptions currentValue in
  NoDup (map fst options)
  /\ (forall opt, In opt Page.UNIT_TYPE_OPTIONS -> In opt options)
  /\ (forall s, currentValue = JStr s -> JsString.trim s <> "" ->
                In (JsString.trim s) (map fst options)).
Proof.
  assert (Hfixed : NoDup (map fst Page.UNIT_TYPE_OPTIONS)).
  { simpl. repeat constructor; simpl; intuition discriminate. }
  assert (Hcustom : forall current,
             let options :=
               if negb (negb (Nat.eqb (String.length current) 0)
                        && negb (existsb (fun opt => String.eqb (fst opt) current)
                                         Page.UNIT_TYPE_OPTIONS))
               then Page.UNIT_TYPE_OPTIONS
               else (current, current) :: Page.UNIT_TYPE_OPTIONS in
             NoDup (map fst options)
             /\ (forall opt, In opt Page.UNIT_TYPE_OPTIONS -> In opt options)
             /\ (current <> "" -> In current (map fst options))).
  { intros current.
    destruct (existsb (fun opt => String.eqb (fst opt) current)
                      Page.UNIT_TYPE_OPTIONS) eqn:Hknown.
    - rewrite andb_false_r. cbv zeta. unfold negb at 1.
      split; [exact Hfixed|]. split; [auto|]. intros _.
      apply existsb_exists in Hknown. destruct Hknown as (opt & Hin & Heq).
      apply String.eqb_eq in Heq. subst current. now apply in_map.
    - destruct current as [|c r].
      + simpl. split; [exact Hfixed|]. split; [auto|]. now intros H.
      + change (negb (negb (Nat.eqb (String.length (String c r)) 0) && negb false))
          with false. cbv zeta.
        split; [|split; [intros opt H; now right | intros _; now left]].
        change (map fst ((String c r, String c r) :: Page.UNIT_TYPE_OPTIONS))
          with (String c r :: map fst Page.UNIT_TYPE_OPTIONS).
        constructor; [|exact Hfixed].
        intros Hin. apply in_map_iff in Hin. destruct Hin as (opt & Heq & Hin).
        assert (Hex : existsb (fun opt => String.eqb (fst opt) (String c r))
                              Page.UNIT_TYPE_OPTIONS = true).
        { apply existsb_exists. exists opt. split; [exact Hin|].
          now apply String.eqb_eq. }
        rewrite Hex in Hknown. discriminate. }
  intros options. unfold options, Page.getUnitTypeOptions.
  destruct currentValue as [| |b|n|s];
    try (destruct (Hcustom "") as (H1 & H2 & _);
         split; [exact H1|]; split; [exact H2|]; intros; discriminate).
  destruct (Hcustom (JsString.trim s)) as (H1 & H2 & H3).
  split; [exact H1|]. split; [exact H2|].
  intros s' Heq Hne. injection Heq as <-. now apply H3.
Qed.

(** A unit that is not in the fixed list comes first, trimmed; a known
    unit and a blank text add nothing. *)
Example unit_options_example :
  map fst (Page.getUnitTypeOptions (JStr " roll "))
  = "roll" :: map fst Page.UNIT_TYPE_OPTIONS
  /\ Page.getUnitTypeOptions (JStr " kg") = Page.UNIT_TYPE_OPTIONS
  /\ Page.getUnitTypeOptions (JStr "  ") = Page.UNIT_TYPE_OPTIONS
  /\ Page.getUnitTypeOptions JNull = Page.UNIT_TYPE_OPTIONS.
Proof. repeat split; reflexivity. Qed.

(** ** Sorting state *)

Lemma key_eqb_eq (a b : Key) : Page.key_eqb a b = true <-> a = b.
Proof. destruct a, b; simpl; split; intros H; try reflexivity; discriminate. Qed.

(** X16. Clicking the header of a column starts an ascending sort on it
    unless that column is already the sorted one; on the sorted column the
    clicks go from ascending to descending to unsorted, so three clicks on
    one header bring back the state before them whenever that state was
    unsorted or a sort on that column. *)
Theorem sort_cycle (key : Key) :
  Page.handleSort key None = Some (key, asc)
  /\ Page.handleSort key (Some (key, asc)) = Some (key, desc)
  /\ Page.handleSort key (Some (key, desc)) = None
  /\ (forall other direction,
         other <> key ->
         Page.handleSort key (Some (other, direction)) = Some (key, asc))
  /\ (forall prev,
         (forall other direction, prev = Some (other, direction) -> other = key) ->
         Page.handleSort key (Page.handleSort key (Page.handleSort key prev))
         = prev).
Proof.
  assert (Hk : Page.key_eqb key key = true) by now apply key_eqb_eq.
  assert (H1 : Page.handleSort key (Some (key, asc)) = Some (key, desc)).
  { unfold Page.handleSort. now rewrite Hk. }
  assert (H2 : Page.handleSort key (Some (key, desc)) = None).
  { unfold Page.handleSort. now rewrite Hk. }
  split; [reflexivity|]. split; [exact H1|]. split; [exact H2|]. split.
  - intros other direction Hne. unfold Page.handleSort.
    destruct (Page.key_eqb other key) eqn:He; [|reflexivity].
    apply key_eqb_eq in He. contradiction.
  - intros [[other direction]|] Hsame.
    + rewrite (Hsame other direction eq_refl).
      destruct direction.
      * rewrite H1, H2. reflexivity.
      * rewrite H2.
        change (Page.handleSort key None) with (Some (key, asc)). exact H1.
    + change (Page.handleSort key None) with (Some (key, asc)).
      rewrite H1. exact H2.
Qed.

(** Three clicks on the name header from a descending sort on the name;
    and a click on it while the price is sorted. *)
Example sort_cycle_example :
  Page.handleSort k_itemName
    (Page.handleSort k_itemName
       (Page.handleSort k_itemName (Some (k_itemName, desc))))
  = Some (k_itemName, desc)
  /\ Page.handleSort k_itemName (Some (k_sellingPrice, desc))
     = Some (k_itemName, asc).
Proof. split; reflexivity. Qed.

(** ** Pagination *)

Section Pages.
Context {A : Type}.

Lemma firstn_min_length (n : nat) (l : list A) :
  firstn (Nat.min n (List.length l)) l = firstn n l.
Proof.
  destruct (Nat.le_gt_cases n (List.length l)) as [H|H].
  - now rewrite Nat.min_l.
  - rewrite Nat.min_r by lia. rewrite firstn_all.
    symmetry. apply firstn_all2. lia.
Qed.

(** A page from the first on is the block of fifty records after those of
    the pages before it. *)
Lemma paginatedItems_block (l : list A) (page : nat) :
  Page.paginatedItems l (Z.of_nat (S page))
  = firstn 50 (skipn (50 * page) l).
Proof.
  unfold Page.paginatedItems, Page.slice, Page.itemsPerPage.
  set (len := Z.of_nat (List.length l)).
  replace (Z.of_nat (S page) - 1) with (Z.of_nat page) by lia.
  destruct (Z.ltb_spec (Z.of_nat page * 50) 0) as [H|_]; [lia|].
  destruct (Z.ltb_spec (Z.of_nat (S page) * 50) 0) as [H|_]; [lia|].
  destruct (Z_lt_le_dec (Z.of_nat page * 50) len) as [Hin|Hout].
  - rewrite (Z.min_l (Z.of_nat page * 50)) by lia.
    replace (Z.to_nat (Z.of_nat page * 50)) with (50 * page)%nat by lia.
    rewrite <- (firstn_min_length 50). f_equal.
    rewrite length_skipn. unfold len in *. lia.
  - rewrite !Z.min_r by lia. rewrite Z.sub_diag.
    rewrite (skipn_all2 l (n := (50 * page)%nat)) by (unfold len in Hout; lia).
    now rewrite firstn_nil.
Qed.

Lemma blocks_concat (n : nat) : forall l : list A,
  (List.length l <= 50 * n)%nat ->
  List.concat (map (fun k => firstn 50 (skipn (50 * k) l)) (seq 0 n)) = l.
Proof.
  induction n as [|n IH]; intros l Hlen.
  - destruct l; [reflexivity | simpl in Hlen; lia].
  - change (seq 0 (S n)) with (0%nat :: seq 1 n).
    cbn [map List.concat]. rewrite <- seq_shift, map_map.
    change (skipn (50 * 0) l) with l.
    rewrite (map_ext _ (fun k => firstn 50 (skipn (50 * k) (skipn 50 l)))).
    + rewrite IH by (rewrite length_skipn; lia). apply firstn_skipn.
    + intros k. rewrite skipn_skipn. do 2 f_equal. lia.
Qed.

Lemma totalPages_bounds (l : list A) :
  let len := Z.of_nat (List.length l) in
  len <= 50 * Page.totalPages l < len + 50.
Proof.
  unfold Page.totalPages, Page.itemsPerPage. cbv zeta.
  pose proof (Z.div_mod (Z.of_nat (List.length l) + 50 - 1) 50 ltac:(lia)).
  pose proof (Z.mod_pos_bound (Z.of_nat (List.length l) + 50 - 1) 50 ltac:(lia)).
  lia.
Qed.

End Pages.

(** X17. The pages from the first to the last one, in this order, make up
    the sorted list: every record is on exactly one page, in list order.
    Each of these pages has between one and fifty records; a page after
    the last one is empty; and there is no page exactly when there is no
    record. *)
Theorem pages_partition {A : Type} (sortedItems : list A) :
  let total := Page.totalPages sortedItems in
  List.concat (map (fun page => Page.paginatedItems sortedItems (Z.of_nat page))
              (seq 1 (Z.to_nat total)))
  = sortedItems
  /\ (forall page,
         1 <= page <= total ->
         (1 <= List.length (Page.paginatedItems sortedItems page) <= 50)%nat)
  /\ (forall page,
         total < page -> Page.paginatedItems sortedItems page = [])
  /\ (total = 0 <-> sortedItems = []).
Proof.
  intros total. pose proof (totalPages_bounds sortedItems) as Hb.
  cbv zeta in Hb. fold total in Hb.
  split; [|split; [|split]].
  - rewrite <- seq_shift, map_map.
    rewrite (map_ext _ (fun k => firstn 50 (skipn (50 * k) sortedItems)))
      by (intros k; apply paginatedItems_block).
    apply blocks_concat. lia.
  - intros page Hp.
    replace page with (Z.of_nat (S (Z.to_nat (page - 1)))) by lia.
    rewrite paginatedItems_block, length_firstn, length_skipn. lia.
  - intros page Hp.
    replace page with (Z.of_nat (S (Z.to_nat (page - 1)))) by lia.
    rewrite paginatedItems_block, skipn_all2 by lia. reflexivity.
  - split; intros H.
    + rewrite H in Hb. destruct sortedItems; [reflexivity|].
      cbn [List.length] in Hb. lia.
    + subst sortedItems. reflexivity.
Qed.

(** A list of 120 records has three pages, of 50, 50 and 20 records. *)
Example pages_partition_example :
  let l := seq 0 120 in
  Page.totalPages l = 3
  /\ Page.paginatedItems l 1 = seq 0 50
  /\ Page.paginatedItems l 3 = seq 100 20
  /\ Page.paginatedItems l 4 = [].
Proof. repeat split; reflexivity. Qed.

(** X18. From a page number of at least one, the Previous and the Next
    button give a page number of at least one; Previous goes one page
    back except on the first page, Next goes one page on while a later
    page exists, and a page number within the pages stays within them. *)
Theorem page_navigation {A : Type} (sortedItems : list A) (currentPage : Z) :
  let total := Page.totalPages sortedItems in
  1 <= currentPage ->
  1 <= Page.previousPage currentPage
  /\ 1 <= Page.nextPage total currentPage
  /\ (1 < currentPage -> Page.previousPage currentPage = currentPage - 1)
  /\ (currentPage < total -> Page.nextPage total currentPage = currentPage + 1)
  /\ (currentPage <= Z.max total 1 ->
      Page.nextPage total currentPage <= Z.max total 1)
  /\ (total <= currentPage -> Page.nextPage total currentPage <= currentPage).
Proof.
  intros total Hp. pose proof (totalPages_bounds sortedItems) as Hb.
  cbv zeta in Hb. fold total in Hb.
  assert (Ht : 0 <= total) by lia.
  unfold Page.previousPage, Page.nextPage.
  destruct (Z.eqb_spec currentPage 1), (Z.eqb_spec currentPage total),
    (Z.eqb_spec total 0); simpl; lia.
Qed.

Lemma page_navigation_witness :
  1 <= Page.previousPage 3
  /\ 1 <= Page.nextPage (Page.totalPages (seq 0 120)) 3
  /\ (1 < 3 -> Page.previousPage 3 = 3 - 1)
  /\ (3 < Page.totalPages (seq 0 120) ->
      Page.nextPage (Page.totalPages (seq 0 120)) 3 = 3 + 1)
  /\ (3 <= Z.max (Page.totalPages (seq 0 120)) 1 ->
      Page.nextPage (Page.totalPages (seq 0 120)) 3
      <= Z.max (Page.totalPages (seq 0 120)) 1)
  /\ (Page.totalPages (seq 0 120) <= 3 ->
      Page.nextPage (Page.totalPages (seq 0 120)) 3 <= 3).
Proof.
  apply (page_navigation (seq 0 120) 3). lia.
Defined.

(** ** Selection of rows *)

Section Selection.

Lemma has_In (s : Page.IdSet) (x : Z) : Page.has s x = true <-> In x s.
Proof.
  unfold Page.has. rewrite existsb_exists. split.
  - intros (y & Hy & Heq). apply Z.eqb_eq in Heq. now subst.
  - intros H. exists x. split; [exact H | apply Z.eqb_refl].
Qed.

Lemma has_app (s t : Page.IdSet) (x : Z) :
  Page.has (s ++ t)%list x = Page.has s x || Page.has t x.
Proof. unfold Page.has. apply existsb_app. Qed.

Lemma has_add (s : Page.IdSet) (x y : Z) :
  Page.has (Page.add s x) y = (y =? x) || Page.has s y.
Proof.
  unfold Page.add. destruct (Page.has s x) eqn:Hx.
  - destruct (Z.eqb_spec y x) as [->|_]; [now rewrite Hx | reflexivity].
  - rewrite has_app. simpl. rewrite orb_false_r. apply orb_comm.
Qed.

Lemma has_delete (s : Page.IdSet) (x y : Z) :
  Page.has (Page.delete s x) y = negb (y =? x) && Page.has s y.
Proof.
  unfold Page.delete, Page.has. induction s as [|z s IH]; simpl.
  - now rewrite andb_false_r.
  - destruct (Z.eqb_spec z x) as [Hz|Hz]; simpl; rewrite IH.
    + destruct (Z.eqb_spec y z) as [Hy|Hy], (Z.eqb_spec y x) as [Hx|Hx];
        simpl; try reflexivity; congruence.
    + destruct (Z.eqb_spec y z) as [Hy|Hy], (Z.eqb_spec y x) as [Hx|Hx];
        simpl; try reflexivity; congruence.
Qed.

Lemma NoDup_add (s : Page.IdSet) (x : Z) : NoDup s -> NoDup (Page.add s x).
Proof.
  intros Hnd. unfold Page.add. destruct (Page.has s x) eqn:Hx; [exact Hnd|].
  apply NoDup_snoc; [exact Hnd|]. intros Hin. apply has_In in Hin. congruence.
Qed.

Lemma NoDup_delete (s : Page.IdSet) (x : Z) :
  NoDup s -> NoDup (Page.delete s x).
Proof. apply NoDup_filter. Qed.

Lemma size_delete (s : Page.IdSet) (x : Z) :
  NoDup s -> In x s -> S (Page.size (Page.delete s x)) = Page.size s.
Proof.
  unfold Page.size, Page.delete.
  induction s as [|z s IH]; simpl; intros Hnd Hin; [contradiction|].
  inversion Hnd as [|? ? Hz Hs]; subst.
  destruct (Z.eqb_spec z x) as [->|Hne]; simpl.
  - f_equal. clear - Hz. induction s as [|y s IH]; simpl; [reflexivity|].
    destruct (Z.eqb_spec y x) as [->|_]; simpl.
    + exfalso. apply Hz. now left.
    + f_equal. apply IH. intros H. apply Hz. now right.
  - f_equal. apply IH; [exact Hs|]. destruct Hin; [contradiction | assumption].
Qed.

Lemma add_all_has (page : list PageItem) : forall (acc : Page.IdSet) (y : Z),
  Page.has (fold_left (fun acc item => Page.add acc (p_id item)) page acc) y
  = Page.has acc y || existsb (fun item => y =? p_id item) page.
Proof.
  induction page as [|item page IH]; intros acc y; simpl.
  - now rewrite orb_false_r.
  - rewrite IH, has_add.
    destruct (y =? p_id item), (Page.has acc y); reflexivity.
Qed.

Lemma add_all_NoDup (page : list PageItem) : forall acc : Page.IdSet,
  NoDup acc ->
  NoDup (fold_left (fun acc item => Page.add acc (p_id item)) page acc).
Proof.
  induction page as [|item page IH]; intros acc Hnd; simpl; [exact Hnd|].
  apply IH. now apply NoDup_add.
Qed.

Lemma on_page (page : list PageItem) (y : Z) :
  existsb (fun item => y =? p_id item) page = true <-> In y (map p_id page).
Proof.
  rewrite existsb_exists, in_map_iff. split.
  - intros (item & Hin & Heq). apply Z.eqb_eq in Heq. now exists item.
  - intros (item & Heq & Hin). exists item. split; [exact Hin|].
    now apply Z.eqb_eq.
Qed.

End Selection.

(** X19. Ticking the box of a row changes the membership of that row in
    the selection and of no other row, keeps the selection free of
    duplicates, changes the number of selected rows by exactly one, and a
    second tick brings back the membership of every row. *)
Theorem toggle_selection (selectedItems : Page.IdSet) (x : Z) :
  NoDup selectedItems ->
  let after := Page.toggleSelection selectedItems x in
  NoDup after
  /\ (forall y, Page.has after y
                = if y =? x then negb (Page.has selectedItems x)
                  else Page.has selectedItems y)
  /\ Page.size after
     = (if Page.has selectedItems x then Page.size selectedItems - 1
        else Page.size selectedItems + 1)%nat
  /\ (forall y, Page.has (Page.toggleSelection after x) y
                = Page.has selectedItems y).
Proof.
  intros Hnd after.
  assert (Hhas : forall s y,
             Page.has (Page.toggleSelection s x) y
             = if y =? x then negb (Page.has s x) else Page.has s y).
  { intros s y. unfold Page.toggleSelection.
    destruct (Page.has s x) eqn:Hx.
    - rewrite has_delete. destruct (Z.eqb_spec y x); reflexivity.
    - rewrite has_add. destruct (Z.eqb_spec y x) as [->|_]; reflexivity. }
  split; [|split; [apply Hhas | split]].
  - unfold after, Page.toggleSelection.
    destruct (Page.has selectedItems x);
      [now apply NoDup_delete | now apply NoDup_add].
  - unfold after, Page.toggleSelection.
    destruct (Page.has selectedItems x) eqn:Hx.
    + apply has_In in Hx. pose proof (size_delete _ _ Hnd Hx). lia.
    + unfold Page.add. rewrite Hx. unfold Page.size.
      rewrite length_app. reflexivity.
  - intros y. unfold after. rewrite !Hhas. rewrite Z.eqb_refl.
    destruct (Z.eqb_spec y x) as [->|_]; [apply negb_involutive | reflexivity].
Qed.

Lemma toggle_selection_witness :
  let selected : Page.IdSet := [3; 1] in
  let after := Page.toggleSelection selected 1 in
  NoDup after
  /\ (forall y, Page.has after y
                = if y =? 1 then negb (Page.has selected 1)
                  else Page.has selected y)
  /\ Page.size after
     = (if Page.has selected 1 then Page.size selected - 1
        else Page.size selected + 1)%nat
  /\ (forall y, Page.has (Page.toggleSelection after 1) y
                = Page.has selected y).
Proof.
  apply (toggle_selection [3; 1] 1).
  repeat constructor; simpl; intuition discriminate.
Defined.

(** X20. The header box leaves a selection without duplicates that is
    either empty or exactly the rows of the page.  It selects exactly the
    rows of the page whenever the number of selected rows differs from the
    number of rows of the page, and the header box then shows as checked
    on a page that is not empty.  It clears the selection when the header
    box shows as checked and no row outside the page is selected. *)
Theorem toggle_all (selectedItems : Page.IdSet) (page : list PageItem) :
  let after := Page.toggleAll selectedItems page in
  NoDup after
  /\ (after = []
      \/ forall y, Page.has after y = true <-> In y (map p_id page))
  /\ (Page.size selectedItems <> List.length page ->
      (forall y, Page.has after y = true <-> In y (map p_id page))
      /\ (page <> [] -> Page.allChecked after page = true))
  /\ (NoDup selectedItems -> NoDup (map p_id page) ->
      Page.allChecked selectedItems page = true ->
      (forall y, In y selectedItems -> In y (map p_id page)) ->
      after = []).
Proof.
  intros after.
  assert (Hsel : forall y,
             Page.has (fold_left (fun acc item => Page.add acc (p_id item))
                                 page []) y = true
             <-> In y (map p_id page)).
  { intros y. rewrite add_all_has. simpl. apply on_page. }
  split; [|split; [|split]].
  - unfold after, Page.toggleAll.
    destruct (_ && _); [constructor | apply add_all_NoDup; constructor].
  - unfold after, Page.toggleAll. destruct (_ && _); [now left | now right].
  - intros Hsize. unfold after, Page.toggleAll.
    destruct (Nat.eqb_spec (Page.size selectedItems) (List.length page))
      as [Heq|_]; [contradiction|].
    simpl. split; [exact Hsel|].
    intros Hpage. unfold Page.allChecked.
    destruct page as [|item page']; [contradiction|].
    change (Nat.ltb 0 (List.length (item :: page'))) with true.
    rewrite andb_true_l. apply forallb_forall. intros it Hit.
    apply Hsel. now apply in_map.
  - intros Hnd Hids Hall Hsub. unfold after, Page.toggleAll.
    unfold Page.allChecked in Hall. apply andb_prop in Hall.
    destruct Hall as [Hlen Hall]. rewrite Hlen, andb_true_r.
    assert (Hsize : Page.size selectedItems = List.length page).
    { unfold Page.size. rewrite <- (length_map p_id page).
      apply Nat.le_antisymm.
      - apply NoDup_incl_length; [exact Hnd | exact Hsub].
      - apply NoDup_incl_length; [exact Hids|].
        intros y Hy. apply in_map_iff in Hy. destruct Hy as (it & <- & Hit).
        rewrite forallb_forall in Hall. apply has_In. now apply Hall. }
    rewrite Hsize, Nat.eqb_refl. reflexivity.
Qed.

(** With one row of another page selected, the header box of a page of
    one row clears the selection instead of selecting the row. *)
Example toggle_all_example :
  let row := {| p_id := 1; p_itemName := "Widget"; p_sellingPrice := Dec 5 0;
                p_currentQuantity := 50; p_unitType := "pcs";
                p_expiryDate := None; p_status := "checked" |} in
  Page.allChecked [7] [row] = false
  /\ Page.toggleAll [7] [row] = []
  /\ Page.toggleAll [] [row] = [1]
  /\ Page.toggleAll [1] [row] = [].
Proof. repeat split; reflexivity. Qed.

(** ** Sorting the view *)

Section SortFacts.
Context {A : Type} (comparefn : A -> A -> Z).

Lemma insert_perm (x : A) (l : list A) :
  Permutation (View.insert comparefn x l) (x :: l).
Proof.
  induction l as [|y l IH]; simpl; [reflexivity|].
  destruct (comparefn x y <=? 0); [reflexivity|].
  rewrite IH. apply perm_swap.
Qed.

Lemma sort_perm (l : list A) : Permutation (View.sort comparefn l) l.
Proof.
  induction l as [|x l IH]; simpl; [reflexivity|].
  rewrite insert_perm. now constructor.
Qed.

Variable le : A -> A -> Prop.
Hypothesis le_of_comparefn : forall x y, comparefn x y <= 0 -> le x y.
Hypothesis le_of_not : forall x y, ~ comparefn x y <= 0 -> le y x.
Hypothesis le_trans : forall x y z, le x y -> le y z -> le x z.

Lemma insert_sorted (x : A) (l : list A) :
  StronglySorted le l -> StronglySorted le (View.insert comparefn x l).
Proof.
  induction l as [|y l IH]; simpl; intros Hs.
  - constructor; constructor.
  - inversion Hs as [|? ? Hl Hy]; subst.
    destruct (Z.leb_spec (comparefn x y) 0) as [Hle|Hgt].
    + constructor; [exact Hs|]. constructor; [now apply le_of_comparefn|].
      eapply Forall_impl; [|exact Hy]. intros z Hz.
      eapply le_trans; [|exact Hz]. now apply le_of_comparefn.
    + constructor; [now apply IH|].
      eapply Permutation_Forall; [symmetry; apply insert_perm|].
      constructor; [|exact Hy]. apply le_of_not. lia.
Qed.

Lemma sort_sorted (l : list A) : StronglySorted le (View.sort comparefn l).
Proof.
  induction l as [|x l IH]; simpl; [constructor | now apply insert_sorted].
Qed.

End SortFacts.

(** X21. Sorting loses and invents nothing: whatever the sort state, the
    sorted list has exactly the records of the filtered list, each as
    often, and with no sort state it is the filtered list itself. *)
Theorem sort_keeps_records (sortConfig : SortConfig)
  (filteredItems : list PageItem) :
  Permutation (View.sortedItems sortConfig filteredItems) filteredItems
  /\ List.length (View.sortedItems sortConfig filteredItems)
     = List.length filteredItems
  /\ View.sortedItems None filteredItems = filteredItems.
Proof.
  assert (Hp : Permutation (View.sortedItems sortConfig filteredItems)
                           filteredItems).
  { destruct sortConfig as [[key direction]|]; simpl;
      [apply sort_perm | reflexivity]. }
  split; [exact Hp|]. split; [now apply Permutation_length | reflexivity].
Qed.

Section NullsLast.
Variables (key : Key) (direction : Direction).

Let null (item : PageItem) : bool := JsCompare.is_null (View.field key item).

Lemma compare_null_left (a b : PageItem) :
  null a = true ->
  View.compare key direction a b = if null b then 0 else 1.
Proof.
  unfold null, View.compare. intros Ha.
  destruct (View.field key a); try discriminate.
  destruct (View.field key b); reflexivity.
Qed.

Lemma compare_null_right (a b : PageItem) :
  null a = false -> null b = true -> View.compare key direction a b = -1.
Proof.
  unfold null, View.compare. intros Ha Hb.
  destruct (View.field key b); try discriminate.
  destruct (View.field key a); try discriminate; reflexivity.
Qed.

Lemma insert_nulls_last (x : PageItem) (front back : list PageItem) :
  forallb (fun item => negb (null item)) front = true ->
  forallb null back = true ->
  exists front',
    View.insert (View.compare key direction) x (front ++ back)%list
    = (front' ++ (if null x then x :: back else back))%list
    /\ forallb (fun item => negb (null item)) front' = true.
Proof.
  intros Hfront Hback. induction front as [|y front IH].
  - simpl. destruct (null x) eqn:Hx.
    + exists []. split; [|reflexivity]. simpl.
      destruct back as [|z back]; [reflexivity|]. simpl.
      simpl in Hback. apply andb_prop in Hback. destruct Hback as [Hz _].
      rewrite (compare_null_left x z Hx), Hz. reflexivity.
    + destruct back as [|z back].
      * exists [x]. simpl. now rewrite Hx.
      * exists [x]. simpl. simpl in Hback. apply andb_prop in Hback.
        destruct Hback as [Hz _].
        rewrite (compare_null_right x z Hx Hz). simpl. now rewrite Hx.
  - simpl in Hfront. apply andb_prop in Hfront. destruct Hfront as [Hy Hfront].
    apply negb_true_iff in Hy.
    destruct (IH Hfront) as (front' & Heq & Hfront').
    simpl. destruct (View.compare key direction x y <=? 0) eqn:Hc.
    + destruct (null x) eqn:Hx.
      * rewrite (compare_null_left x y Hx), Hy in Hc. discriminate.
      * exists (x :: y :: front). split; [reflexivity|].
        simpl. now rewrite Hx, Hy.
    + exists (y :: front'). split; [simpl; now rewrite Heq|].
      simpl. now rewrite Hy.
Qed.

Lemma sort_nulls (l : list PageItem) :
  exists front,
    View.sort (View.compare key direction) l
    = (front ++ filter null l)%list
    /\ forallb (fun item => negb (null item)) front = true.
Proof.
  induction l as [|x l IH]; simpl.
  - now exists [].
  - destruct IH as (front & Heq & Hfront). rewrite Heq.
    destruct (insert_nulls_last x front (filter null l) Hfront)
      as (front' & Heq' & Hfront').
    { apply forallb_forall. intros y Hy. now apply filter_In in Hy. }
    exists front'. split; [|exact Hfront']. rewrite Heq'.
    now destruct (null x).
Qed.

End NullsLast.

(** X22. In a sorted view, ascending or descending, the records without a
    value in the sorted column come after all records with a value, in
    the order they had in the filtered list. *)
Theorem sort_nulls_last (key : Key) (direction : Direction)
  (filteredItems : list PageItem) :
  exists front,
    View.sortedItems (Some (key, direction)) filteredItems
    = (front
       ++ filter (fun item => JsCompare.is_null (View.field key item))
                 filteredItems)%list
    /\ Forall (fun item => View.field key item <> VNull) front.
Proof.
  destruct (sort_nulls key direction filteredItems) as (front & Heq & Hfront).
  exists front. split; [exact Heq|]. apply Forall_forall. intros x Hx.
  rewrite forallb_forall in Hfront. specialize (Hfront x Hx).
  intros Hnull. rewrite Hnull in Hfront. discriminate.
Qed.

(** Sorted by expiry, the record without expiry is last in both
    directions. *)
Example sort_nulls_last_example :
  View.sortedItems (Some (k_expiryDate, asc)) View.shelf
  = [View.syrup; View.aspirin; View.bolt]
  /\ View.sortedItems (Some (k_expiryDate, desc)) View.shelf
     = [View.aspirin; View.syrup; View.bolt].
Proof. split; reflexivity. Qed.

(** ** The order of a sorted view *)

Section StringOrder.
Import JsCompare.

Lemma code_inj (x y : ascii) : JsString.code x = JsString.code y -> x = y.
Proof.
  unfold JsString.code. intros H. apply N2Z.inj in H.
  rewrite <- (ascii_N_embedding x), <- (ascii_N_embedding y). now f_equal.
Qed.

Lemma str_lt_irrefl (a : string) : str_lt a a = false.
Proof.
  induction a as [|x a IH]; simpl; [reflexivity|].
  now rewrite Z.ltb_irrefl.
Qed.

Lemma str_lt_asym (a : string) : forall b,
  str_lt a b = true -> str_lt b a = false.
Proof.
  induction a as [|x a IH]; intros [|y b]; simpl; try congruence.
  destruct (Z.ltb_spec (JsString.code x) (JsString.code y)) as [Hxy|Hxy].
  - intros _. destruct (Z.ltb_spec (JsString.code y) (JsString.code x)); [lia|].
    reflexivity.
  - destruct (Z.ltb_spec (JsString.code y) (JsString.code x)) as [Hyx|Hyx];
      [discriminate|]. apply IH.
Qed.

Lemma str_lt_total (a : string) : forall b,
  str_lt a b = false -> a <> b -> str_lt b a = true.
Proof.
  induction a as [|x a IH]; intros [|y b]; simpl; try congruence.
  destruct (Z.ltb_spec (JsString.code x) (JsString.code y)) as [Hxy|Hxy];
    [discriminate|].
  destruct (Z.ltb_spec (JsString.code y) (JsString.code x)) as [Hyx|Hyx];
    [reflexivity|].
  intros Hlt Hne. apply IH; [exact Hlt|]. intros ->. apply Hne.
  f_equal. apply code_inj. lia.
Qed.

Lemma str_lt_trans (a : string) : forall b c,
  str_lt a b = true -> str_lt b c = true -> str_lt a c = true.
Proof.
  induction a as [|x a IH]; intros [|y b] [|z c]; simpl; try congruence.
  destruct (Z.ltb_spec (JsString.code x) (JsString.code y)) as [Hxy|Hxy];
    destruct (Z.ltb_spec (JsString.code y) (JsString.code z)) as [Hyz|Hyz];
    destruct (Z.ltb_spec (JsString.code y) (JsString.code x)) as [Hyx|Hyx];
    destruct (Z.ltb_spec (JsString.code z) (JsString.code y)) as [Hzy|Hzy];
    destruct (Z.ltb_spec (JsString.code x) (JsString.code z)) as [Hxz|Hxz];
    destruct (Z.ltb_spec (JsString.code z) (JsString.code x)) as [Hzx|Hzx];
    try lia; try congruence.
  apply IH.
Qed.

(** [a <= b] on strings is "not [b < a]". *)
Lemma str_le_trans (a b c : string) :
  str_lt b a = false -> str_lt c b = false -> str_lt c a = false.
Proof.
  intros Hab Hbc. destruct (str_lt c a) eqn:Hca; [|reflexivity].
  destruct (string_dec a b) as [->|Hne]; [congruence|].
  assert (Hlt : str_lt a b = true).
  { apply str_lt_total; [exact Hab | congruence]. }
  rewrite (str_lt_trans c a b Hca Hlt) in Hbc. discriminate.
Qed.

Lemma num_eq_of_Z (a b : Z) :
  num_eq (JsNumber.of_Z a) (JsNumber.of_Z b) = (a =? b).
Proof.
  unfold num_eq, JsNumber.of_Z, JsNumber.pow10. simpl.
  now rewrite !Z.mul_1_r.
Qed.

Lemma num_lt_of_Z (a b : Z) :
  num_lt (JsNumber.of_Z a) (JsNumber.of_Z b) = (a <? b).
Proof.
  unfold num_lt, JsNumber.of_Z, JsNumber.pow10. simpl.
  now rewrite !Z.mul_1_r.
Qed.

End StringOrder.

Section ColumnOrder.
Variable key : Key.

(** A column of whole numbers. *)
Section Whole.
Variable f : PageItem -> Z.
Hypothesis field_f : forall item, View.field key item = VNum (JsNumber.of_Z (f item)).

Lemma compare_whole (direction : Direction) (a b : PageItem) :
  View.compare key direction a b
  = if f a =? f b then 0
    else match direction with
         | asc => if f a <? f b then -1 else 1
         | desc => if f b <? f a then -1 else 1
         end.
Proof.
  unfold View.compare. rewrite !field_f.
  cbn [JsCompare.strict_equal JsCompare.is_null JsCompare.less_than
       JsCompare.ToNumber].
  rewrite num_eq_of_Z, !num_lt_of_Z. reflexivity.
Qed.

Lemma sort_whole_asc (l : list PageItem) :
  StronglySorted (fun a b => f a <= f b)
                 (View.sort (View.compare key asc) l).
Proof.
  apply sort_sorted; try (intros; lia);
    intros x y; rewrite compare_whole;
    destruct (Z.eqb_spec (f x) (f y)), (Z.ltb_spec (f x) (f y)); lia.
Qed.

Lemma sort_whole_desc (l : list PageItem) :
  StronglySorted (fun a b => f b <= f a)
                 (View.sort (View.compare key desc) l).
Proof.
  apply sort_sorted; try (intros; lia);
    intros x y; rewrite compare_whole;
    destruct (Z.eqb_spec (f x) (f y)), (Z.ltb_spec (f y) (f x)); lia.
Qed.

End Whole.

(** A column of texts. *)
Section Text.
Variable f : PageItem -> string.
Hypothesis field_f : forall item, View.field key item = VStr (f item).

Lemma compare_text (direction : Direction) (a b : PageItem) :
  View.compare key direction a b
  = if String.eqb (f a) (f b) then 0
    else match direction with
         | asc => if JsCompare.str_lt (f a) (f b) then -1 else 1
         | desc => if JsCompare.str_lt (f b) (f a) then -1 else 1
         end.
Proof. unfold View.compare. rewrite !field_f. reflexivity. Qed.

Lemma sort_text_asc (l : list PageItem) :
  StronglySorted (fun a b => JsCompare.str_lt (f b) (f a) = false)
                 (View.sort (View.compare key asc) l).
Proof.
  apply sort_sorted.
  - intros x y. rewrite compare_text.
    destruct (String.eqb_spec (f x) (f y)) as [Heq|Hne].
    + intros _. rewrite Heq. apply str_lt_irrefl.
    + destruct (JsCompare.str_lt (f x) (f y)) eqn:Hlt; [|lia].
      intros _. now apply str_lt_asym.
  - intros x y. rewrite compare_text.
    destruct (String.eqb_spec (f x) (f y)) as [Heq|Hne]; [lia|].
    destruct (JsCompare.str_lt (f x) (f y)) eqn:Hlt; [lia | reflexivity].
  - intros x y z. apply str_le_trans.
Qed.

Lemma sort_text_desc (l : list PageItem) :
  StronglySorted (fun a b => JsCompare.str_lt (f a) (f b) = false)
                 (View.sort (View.compare key desc) l).
Proof.
  apply sort_sorted.
  - intros x y. rewrite compare_text.
    destruct (String.eqb_spec (f x) (f y)) as [Heq|Hne].
    + intros _. rewrite Heq. apply str_lt_irrefl.
    + destruct (JsCompare.str_lt (f y) (f x)) eqn:Hlt; [|lia].
      intros _. now apply str_lt_asym.
  - intros x y. rewrite compare_text.
    destruct (String.eqb_spec (f x) (f y)) as [Heq|Hne]; [lia|].
    destruct (JsCompare.str_lt (f y) (f x)) eqn:Hlt; [lia | reflexivity].
  - intros x y z Hxy Hyz. now apply (str_le_trans (f z) (f y) (f x)).
Qed.

End Text.
End ColumnOrder.

(** X23. A view sorted by quantity or by key is in order of the numbers,
    and a view sorted by name or by status is in order of the texts by
    their code units (capital letters before small ones): ascending, no
    record is followed anywhere by a smaller one; descending, none by a
    larger one. *)
Theorem sort_order (filteredItems : list PageItem) :
  let sorted key direction :=
    View.sortedItems (Some (key, direction)) filteredItems in
  StronglySorted (fun a b => p_currentQuantity a <= p_currentQuantity b)
                 (sorted k_currentQuantity asc)
  /\ StronglySorted (fun a b => p_currentQuantity b <= p_currentQuantity a)
                    (sorted k_currentQuantity desc)
  /\ StronglySorted (fun a b => p_id a <= p_id b) (sorted k_id asc)
  /\ StronglySorted (fun a b => p_id b <= p_id a) (sorted k_id desc)
  /\ StronglySorted
       (fun a b => JsCompare.str_lt (p_itemName b) (p_itemName a) = false)
       (sorted k_itemName asc)
  /\ StronglySorted
       (fun a b => JsCompare.str_lt (p_itemName a) (p_itemName b) = false)
       (sorted k_itemName desc)
  /\ StronglySorted
       (fun a b => JsCompare.str_lt (p_status b) (p_status a) = false)
       (sorted k_status asc)
  /\ StronglySorted
       (fun a b => JsCompare.str_lt (p_status a) (p_status b) = false)
       (sorted k_status desc).
Proof.
  intros sorted. unfold sorted, View.sortedItems.
  repeat split.
  - now apply (sort_whole_asc k_currentQuantity p_currentQuantity).
  - now apply (sort_whole_desc k_currentQuantity p_currentQuantity).
  - now apply (sort_whole_asc k_id p_id).
  - now apply (sort_whole_desc k_id p_id).
  - now apply (sort_text_asc k_itemName p_itemName).
  - now apply (sort_text_desc k_itemName p_itemName).
  - now apply (sort_text_asc k_status p_status).
  - now apply (sort_text_desc k_status p_status).
Qed.

(** By name the capital B and C come before the small a; records of equal
    quantity keep their order. *)
Example sort_order_example :
  View.sortedItems (Some (k_itemName, asc)) View.shelf
  = [View.bolt; View.syrup; View.aspirin]
  /\ View.sortedItems (Some (k_currentQuantity, asc)) View.shelf
     = [View.aspirin; View.syrup; View.bolt]
  /\ View.sortedItems (Some (k_currentQuantity, desc)) View.shelf
     = [View.bolt; View.aspirin; View.syrup].
Proof. repeat split; reflexivity. Qed.

(** ** From the cached list to the pages *)

Lemma In_firstn {A : Type} (n : nat) (l : list A) (x : A) :
  In x (firstn n l) -> In x l.
Proof.
  intros H. rewrite <- (firstn_skipn n l). apply in_or_app. now left.
Qed.

Lemma In_skipn {A : Type} (n : nat) (l : list A) (x : A) :
  In x (skipn n l) -> In x l.
Proof.
  intros H. rewrite <- (firstn_skipn n l). apply in_or_app. now right.
Qed.

Lemma on_some_page {A : Type} (l : list A) (x : A) :
  In x l
  <-> exists page, 1 <= page <= Page.totalPages l
                   /\ In x (Page.paginatedItems l page).
Proof.
  pose proof (totalPages_bounds l) as Hb. cbv zeta in Hb.
  split.
  - intros Hin.
    rewrite <- (blocks_concat (Z.to_nat (Page.totalPages l)) l) in Hin by lia.
    apply in_concat in Hin. destruct Hin as (block & Hblock & Hx).
    apply in_map_iff in Hblock. destruct Hblock as (k & <- & Hk).
    apply in_seq in Hk. exists (Z.of_nat (S k)).
    split; [lia|]. now rewrite paginatedItems_block.
  - intros (page & Hp & Hin).
    replace page with (Z.of_nat (S (Z.to_nat (page - 1)))) in Hin by lia.
    rewrite paginatedItems_block in Hin.
    apply In_firstn, In_skipn in Hin. exact Hin.
Qed.

(** X24. Whatever the sort state, a record is shown on one of the pages
    exactly when it is in the cached list and passes the two filters: the
    search text, trimmed and without regard to case, is empty or occurs in
    its name, and the status filter is [all] or is its status without
    regard to case. *)
Theorem view_shows_matches (sortConfig : SortConfig)
  (debouncedSearch statusFilter : string) (items : list PageItem)
  (item : PageItem) :
  let sortedItems :=
    View.sortedItems sortConfig
      (View.filteredItems debouncedSearch statusFilter items) in
  (exists currentPage,
      1 <= currentPage <= Page.totalPages sortedItems
      /\ In item (Page.paginatedItems sortedItems currentPage))
  <-> In item items
      /\ (JsString.toLowerCase (JsString.trim debouncedSearch) = ""
          \/ PrismaQuery.includes
               (JsString.toLowerCase (p_itemName item))
               (JsString.toLowerCase (JsString.trim debouncedSearch)) = true)
      /\ (statusFilter = "all"
          \/ JsString.toLowerCase (p_status item)
             = JsString.toLowerCase statusFilter).
Proof.
  intros sortedItems. rewrite <- on_some_page. unfold sortedItems.
  assert (Hperm : Permutation
                    (View.sortedItems sortConfig
                       (View.filteredItems debouncedSearch statusFilter items))
                    (View.filteredItems debouncedSearch statusFilter items)).
  { destruct sortConfig as [[key direction]|]; simpl;
      [apply sort_perm | reflexivity]. }
  assert (Hin : In item (View.sortedItems sortConfig
                           (View.filteredItems debouncedSearch statusFilter
                                               items))
                <-> In item (View.filteredItems debouncedSearch statusFilter
                                                items)).
  { split; apply Permutation_in; [exact Hperm | now symmetry]. }
  rewrite Hin. unfold View.filteredItems. rewrite filter_In.
  rewrite andb_true_iff, !orb_true_iff, Nat.eqb_eq, !String.eqb_eq.
  assert (Hempty : forall s : string, String.length s = 0%nat <-> s = "").
  { intros [|c s]; simpl; split; intros H; try reflexivity; discriminate. }
  rewrite Hempty. tauto.
Qed.

(** A search for [" SYR "] with the status filter [checked] shows the
    syrup, whose status is written [Checked]. *)
Example view_shows_matches_example :
  View.filteredItems " SYR " "checked" View.shelf = [View.syrup]
  /\ View.filteredItems "" "all" View.shelf = View.shelf
  /\ View.filteredItems "" "ALL" View.shelf = [].
Proof. repeat split; reflexivity. Qed.

(** * Numbers as text and back *)

Section DecimalDigits.
Import JsString JsNumber.

Let step (acc d : Z) : Z := 10 * acc + d.

(** The digits of the text of a decimal numeral. *)
Let digits (d : Decimal.uint) : list Z :=
  digits_of_string (NilEmpty.string_of_uint d).

Lemma digits_of_string_cons (c : ascii) (r : string) (k : Z) :
  digit_val c = Some k ->
  digits_of_string (String c r) = k :: digits_of_string r.
Proof. intros H. simpl. now rewrite H. Qed.

Ltac numeral_step :=
  cbn [NilEmpty.string_of_uint Pos.of_uint_acc Pos.of_uint];
  try match goal with
      | |- context [digits_of_string (String ?c ?r)] =>
          let v := eval vm_compute in (digit_val c) in
          match v with
          | Some ?k => rewrite (digits_of_string_cons c r k eq_refl)
          end
      end;
  try change (digits_of_string EmptyString) with (@nil Z).

Lemma digits_are_digits (d : Decimal.uint) :
  Forall (fun k => 0 <= k <= 9) (digits d).
Proof.
  unfold digits.
  induction d; numeral_step; constructor; try lia; assumption.
Qed.

Lemma digits_text (d : Decimal.uint) :
  string_of_digits (digits d) = NilEmpty.string_of_uint d.
Proof.
  unfold digits. induction d; numeral_step; [reflexivity| | | | | | | | | |];
    cbn [string_of_digits]; f_equal; assumption.
Qed.

Lemma digits_acc (d : Decimal.uint) : forall acc : positive,
  fold_left step (digits d) (Z.pos acc) = Z.pos (Pos.of_uint_acc d acc).
Proof.
  unfold digits, step.
  induction d; intros acc; numeral_step; [reflexivity| | | | | | | | | |];
    cbn [fold_left]; rewrite <- IHd; f_equal; lia.
Qed.

Lemma digits_value_uint (d : Decimal.uint) :
  digits_value 10 (digits d) = Z.of_N (Pos.of_uint d).
Proof.
  unfold digits_value. fold step. unfold digits.
  induction d; numeral_step; [reflexivity| exact IHd | | | | | | | | |];
    cbn [fold_left]; apply digits_acc.
Qed.

Lemma digits_acc_lower (d : Decimal.uint) : forall acc : positive,
  Z.pos acc * 10 ^ Z.of_nat (List.length (digits d))
  <= Z.pos (Pos.of_uint_acc d acc).
Proof.
  unfold digits.
  induction d; intros acc; numeral_step;
    [cbn [List.length]; lia| | | | | | | | | |];
    (eapply Z.le_trans; [|apply IHd]);
    cbn [List.length];
    rewrite Nat2Z.inj_succ, Z.pow_succ_r by lia;
    pose proof (Z.pow_nonneg 10
                  (Z.of_nat (List.length
                               (digits_of_string
                                  (NilEmpty.string_of_uint d)))) ltac:(lia));
    nia.
Qed.

Lemma nzhead_not_D0 (d u : Decimal.uint) : Decimal.nzhead d <> Decimal.D0 u.
Proof. induction d; simpl; try discriminate. exact IHd. Qed.

(** The numeral of a positive number has no leading zero, so its length
    bounds the number from below. *)
Lemma to_uint_lower (p : positive) :
  Pos.to_uint p <> Decimal.Nil
  /\ 10 ^ (Z.of_nat (List.length (digits (Pos.to_uint p))) - 1) <= Z.pos p.
Proof.
  pose proof (DecimalPos.Unsigned.of_to p) as Hof.
  pose proof (DecimalN.Unsigned.to_of (Pos.to_uint p)) as Hnorm.
  unfold N.of_uint in Hnorm. rewrite Hof in Hnorm.
  change (N.to_uint (N.pos p)) with (Pos.to_uint p) in Hnorm.
  unfold digits. destruct (Pos.to_uint p) as [|l|l|l|l|l|l|l|l|l|l] eqn:Hd;
    try discriminate.
  1: { exfalso. rewrite DecimalFacts.unorm_D0 in Hnorm.
       unfold Decimal.unorm in Hnorm.
       destruct (Decimal.nzhead l) eqn:Hz; try discriminate.
       - injection Hnorm as Hl. subst l. discriminate.
       - now apply nzhead_not_D0 in Hz. }
  all: split; [discriminate|]; numeral_step; cbn [List.length];
    injection Hof as <-;
    match goal with
    | |- context [Pos.of_uint_acc ?u ?k] =>
        pose proof (digits_acc_lower u k) as H;
        unfold digits in H; rewrite Nat2Z.inj_succ;
        replace (Z.succ (Z.of_nat (List.length
                                     (digits_of_string
                                        (NilEmpty.string_of_uint u)))) - 1)
          with (Z.of_nat (List.length
                            (digits_of_string (NilEmpty.string_of_uint u))))
          by lia
    end;
    lia.
Qed.

(** The text of a positive whole number: its digits spell it, give its
    value, and are at most as many as its size allows. *)
Lemma whole_text (z : Z) :
  0 < z ->
  let ds := digits_of_string (string_of_nat_Z z) in
  string_of_digits ds = string_of_nat_Z z
  /\ Forall (fun k => 0 <= k <= 9) ds
  /\ digits_value 10 ds = z
  /\ ds <> []
  /\ 10 ^ (Z.of_nat (List.length ds) - 1) <= z.
Proof.
  intros Hz. destruct z as [|p|p]; try lia.
  unfold string_of_nat_Z.
  change (N.to_uint (Z.to_N (Z.pos p))) with (Pos.to_uint p).
  destruct (to_uint_lower p) as [Hnil Hlow].
  assert (Hs : NilZero.string_of_uint (Pos.to_uint p)
               = NilEmpty.string_of_uint (Pos.to_uint p)).
  { destruct (Pos.to_uint p); [contradiction | reflexivity ..]. }
  rewrite Hs. fold (digits (Pos.to_uint p)).
  split; [apply digits_text|]. split; [apply digits_are_digits|].
  split; [|split; [|exact Hlow]].
  - rewrite digits_value_uint, DecimalPos.Unsigned.of_to. reflexivity.
  - intros Hempty. pose proof (digits_value_uint (Pos.to_uint p)) as Hv.
    rewrite Hempty, DecimalPos.Unsigned.of_to in Hv. discriminate.
Qed.

End DecimalDigits.

Section WholeNumbers.
Import JsString JsNumber.

Lemma strip_zeros_rev_spec (l : list Z) : forall (n : Z) (r : list Z) (n' : Z),
  strip_zeros_rev l n = (r, n') -> exists j, l = (repeat 0 j ++ r)%list.
Proof.
  induction l as [|d l IH]; intros n r n' H.
  - injection H as <- _. now exists 0%nat.
  - destruct d as [|p|p].
    + simpl in H. apply IH in H. destruct H as (j & ->). now exists (S j).
    + injection H as <- _. now exists 0%nat.
    + injection H as <- _. now exists 0%nat.
Qed.

Lemma strip_trailing_zeros_spec (all ds : list Z) (n : Z) :
  strip_trailing_zeros all = (ds, n) ->
  exists j, all = (ds ++ repeat 0 j)%list.
Proof.
  unfold strip_trailing_zeros.
  destruct (strip_zeros_rev (rev all) 0) as [r n'] eqn:H.
  intros Heq. injection Heq as <- _.
  apply strip_zeros_rev_spec in H. destruct H as (j & H). exists j.
  rewrite <- (rev_involutive all), H, rev_app_distr. f_equal.
  clear. induction j as [|j IH]; [reflexivity|].
  simpl. rewrite IH. clear. induction j as [|j IH]; [reflexivity|].
  simpl. now rewrite IH.
Qed.

Lemma string_of_digits_app (a b : list Z) :
  string_of_digits (a ++ b)%list
  = string_of_digits a ++ string_of_digits b.
Proof. induction a as [|d a IH]; simpl; [reflexivity | now rewrite IH]. Qed.

Lemma string_of_zeros (j : nat) :
  string_of_digits (repeat 0 j) = repeat_char "0" j.
Proof. induction j as [|j IH]; simpl; [reflexivity | now rewrite IH]. Qed.

Lemma digits_value_snoc_zeros (ds : list Z) (j : nat) :
  digits_value 10 (ds ++ repeat 0 j)%list
  = digits_value 10 ds * 10 ^ Z.of_nat j.
Proof.
  unfold digits_value. rewrite fold_left_app.
  generalize (fold_left (fun acc d => 10 * acc + d) ds 0). intros v.
  revert v. induction j as [|j IH]; intros v.
  - simpl. lia.
  - cbn [repeat fold_left]. rewrite IH, Nat2Z.inj_succ, Z.pow_succ_r by lia.
    lia.
Qed.

Lemma digit_cases (d : Z) :
  0 <= d <= 9 ->
  d = 0 \/ d = 1 \/ d = 2 \/ d = 3 \/ d = 4 \/ d = 5 \/ d = 6 \/ d = 7
  \/ d = 8 \/ d = 9.
Proof. lia. Qed.

Lemma digit_char_facts (d : Z) :
  0 <= d <= 9 ->
  digit_val (digit_char d) = Some d
  /\ is_space (digit_char d) = false
  /\ (forall r, read_sign (String (digit_char d) r)
                = (false, String (digit_char d) r))
  /\ Ascii.eqb "x" (digit_char d) = false
  /\ Ascii.eqb "X" (digit_char d) = false.
Proof.
  intros H. apply digit_cases in H.
  repeat (destruct H as [->|H]); [..|subst d]; repeat split.
Qed.

Lemma span_digits_text (ds : list Z) :
  Forall (fun k => 0 <= k <= 9) ds ->
  span_digits digit_val (string_of_digits ds) = (ds, "").
Proof.
  induction 1 as [|d ds Hd _ IH]; [reflexivity|].
  cbn [string_of_digits span_digits].
  destruct (digit_char_facts d Hd) as (-> & _). now rewrite IH.
Qed.

Lemma no_hex_prefix (ds : list Z) :
  Forall (fun k => 0 <= k <= 9) ds ->
  strip_prefix "0x" (string_of_digits ds) = None
  /\ strip_prefix "0X" (string_of_digits ds) = None.
Proof.
  intros H. destruct H as [|d ds Hd Hds]; [split; reflexivity|].
  cbn [string_of_digits strip_prefix].
  destruct Hds as [|d' ds' Hd' _].
  - destruct (Ascii.eqb "0" (digit_char d)); split; reflexivity.
  - cbn [string_of_digits strip_prefix].
    destruct (digit_char_facts d' Hd') as (_ & _ & _ & -> & ->).
    destruct (Ascii.eqb "0" (digit_char d)); split; reflexivity.
Qed.

(** Reading digits, with or without a minus sign before them. *)
Lemma parse_digits (neg : bool) (ds : list Z) :
  ds <> [] -> Forall (fun k => 0 <= k <= 9) ds ->
  let text := (if neg then "-" else "") ++ string_of_digits ds in
  parseInt text = Some (signed neg (digits_value 10 ds))
  /\ QuantityCell.parseInt_10 text = Some (signed neg (digits_value 10 ds)).
Proof.
  intros Hne Hds text.
  assert (Hread : read_sign (trimStart text) = (neg, string_of_digits ds)).
  { unfold text. destruct ds as [|d ds]; [contradiction|].
    inversion Hds as [|? ? Hd _]; subst.
    destruct (digit_char_facts d Hd) as (_ & Hsp & Hsign & _).
    destruct neg.
    - reflexivity.
    - cbn [append string_of_digits trimStart]. rewrite Hsp. apply Hsign. }
  destruct (no_hex_prefix ds Hds) as [Hx HX].
  unfold parseInt, QuantityCell.parseInt_10. rewrite Hread, Hx, HX.
  rewrite (span_digits_text ds Hds).
  destruct ds; [contradiction | split; reflexivity].
Qed.

(** The text of a whole number below [10^21] is its digits, all of them,
    after the sign. *)
Lemma toString_whole (m e : Z) :
  m <> 0 -> 0 <= e -> Z.abs m * 10 ^ e < 10 ^ 21 ->
  toString (Dec m e)
  = (if m <? 0 then "-" else "")
    ++ string_of_digits (digits_of_string (string_of_nat_Z (Z.abs m))
                         ++ repeat 0 (Z.to_nat e))%list.
Proof.
  intros Hm He Hlt. unfold toString.
  destruct (Z.eqb_spec m 0) as [|_]; [contradiction|].
  destruct (whole_text (Z.abs m) ltac:(lia)) as (_ & _ & _ & Hne & Hlow).
  set (all := digits_of_string (string_of_nat_Z (Z.abs m))) in *.
  assert (Hpos : 1 <= Z.of_nat (List.length all)).
  { destruct all; [contradiction | cbn [List.length]; lia]. }
  destruct (strip_trailing_zeros all) as [ds nz] eqn:Hstrip.
  destruct (strip_trailing_zeros_spec all ds nz Hstrip) as (j & Hall).
  assert (Hlen : Z.of_nat (List.length all)
                 = Z.of_nat (List.length ds) + Z.of_nat j).
  { rewrite Hall, length_app, repeat_length. lia. }
  assert (Hn : e + Z.of_nat (List.length all) <= 21).
  { destruct (Z_le_gt_dec (e + Z.of_nat (List.length all)) 21) as [H|H];
      [exact H|]. exfalso.
    assert (H21 : 10 ^ 21 <= 10 ^ (Z.of_nat (List.length all) - 1) * 10 ^ e).
    { rewrite <- Z.pow_add_r by lia. apply Z.pow_le_mono_r; lia. }
    pose proof (Z.pow_nonneg 10 e ltac:(lia)). nia. }
  destruct (Z.leb_spec (Z.of_nat (List.length ds))
                       (e + Z.of_nat (List.length all))) as [_|H]; [|lia].
  destruct (Z.leb_spec (e + Z.of_nat (List.length all)) 21) as [_|H]; [|lia].
  cbn [andb].
  assert (Hbody : string_of_digits ds
                  ++ repeat_char "0"
                       (Z.to_nat (e + Z.of_nat (List.length all)
                                  - Z.of_nat (List.length ds)))
                  = string_of_digits (all ++ repeat 0 (Z.to_nat e))%list).
  { rewrite Hall at 2. rewrite <- app_assoc, <- repeat_app.
    rewrite string_of_digits_app, string_of_zeros. do 2 f_equal. lia. }
  rewrite Hbody. destruct (m <? 0); reflexivity.
Qed.

(** Text and back: a whole number below [10^21] in size is read back from
    its text by [parseInt], with or without the radix 10. *)
Lemma whole_round_trip (m e : Z) :
  0 <= e -> Z.abs (m * 10 ^ e) < 10 ^ 21 ->
  parseInt (toString (Dec m e)) = Some (m * 10 ^ e)
  /\ QuantityCell.parseInt_10 (toString (Dec m e)) = Some (m * 10 ^ e).
Proof.
  intros He Hlt. destruct (Z.eq_dec m 0) as [->|Hm]; [split; reflexivity|].
  pose proof (Z.pow_pos_nonneg 10 e ltac:(lia) He) as Hpow.
  rewrite Z.abs_mul, (Z.abs_eq (10 ^ e)) in Hlt by lia.
  rewrite (toString_whole m e Hm He Hlt).
  destruct (whole_text (Z.abs m) ltac:(lia)) as (_ & Hds & Hval & Hne & _).
  set (all := digits_of_string (string_of_nat_Z (Z.abs m))) in *.
  assert (Hall : Forall (fun k => 0 <= k <= 9)
                        (all ++ repeat 0 (Z.to_nat e))%list).
  { apply Forall_app. split; [exact Hds|].
    apply Forall_forall. intros k Hk. apply repeat_spec in Hk. lia. }
  assert (Hne' : (all ++ repeat 0 (Z.to_nat e))%list <> []).
  { destruct all; [contradiction | discriminate]. }
  destruct (parse_digits (m <? 0) _ Hne' Hall) as [H1 H2].
  cbv zeta in H1, H2. rewrite H1, H2.
  rewrite digits_value_snoc_zeros, Hval, Z2Nat.id by lia.
  unfold signed. destruct (Z.ltb_spec m 0); split; f_equal; lia.
Qed.

End WholeNumbers.

(** ** A whole-number quantity cell of the sheet *)

(** X25. A quantity cell of the sheet that holds a whole number below
    [10^21] in size is coerced to that number: its text has all its digits
    and no exponent, and [parseInt] reads them all back. *)
Theorem whole_quantity_cell (row : ExcelRow) (m e : Z) :
  Parsed.currentQuantityRaw row = Some (CNum (Dec m e)) ->
  0 <= e ->
  Z.abs (m * 10 ^ e) < 10 ^ 21 ->
  Parsed.currentQuantity row = m * 10 ^ e.
Proof.
  intros Hraw He Hlt. unfold Parsed.currentQuantity. rewrite Hraw.
  cbn [JsValue.String_].
  destruct (whole_round_trip m e He Hlt) as [-> _]. reflexivity.
Qed.

Lemma whole_quantity_cell_witness :
  Parsed.currentQuantity Sample.qty_twelve = 12 * 10 ^ 0.
Proof.
  apply (whole_quantity_cell Sample.qty_twelve 12 0).
  - reflexivity.
  - lia.
  - vm_compute. reflexivity.
Defined.

(** From [10^21] on the text has an exponent and only the digits before it
    are read; of a fraction the digits before the point are read, and of
    a fraction below [10^-6] the first digit. *)
Example whole_quantity_cell_limits :
  JsNumber.parseInt (JsNumber.toString (Dec 1 21)) = Some 1
  /\ JsNumber.parseInt (JsNumber.toString (Dec 127 (-1))) = Some 12
  /\ JsNumber.parseInt (JsNumber.toString (Dec 5 (-7))) = Some 5.
Proof. repeat split; vm_compute; reflexivity. Qed.

(** ** Leaving the quantity cell of a row *)

Lemma whole_text_not_blank (q : Z) :
  Z.abs q < 10 ^ 21 ->
  JsString.is_empty (JsString.trim (JsNumber.toString (JsNumber.of_Z q)))
  = false.
Proof.
  intros Hlt. unfold JsNumber.of_Z.
  destruct (Z.eq_dec q 0) as [->|Hq]; [reflexivity|].
  rewrite (toString_whole q 0 Hq ltac:(lia)) by (rewrite Z.mul_1_r; exact Hlt).
  assert (Hfirst : forall c r,
             JsString.is_space c = false ->
             JsString.is_empty (JsString.trim (String c r)) = false).
  { intros c r Hc. unfold JsString.trim.
    cbn [JsString.trimStart]. rewrite Hc.
    cbn [JsString.trimEnd JsString.all_space]. rewrite Hc. reflexivity. }
  destruct (q <? 0); [now apply Hfirst|].
  destruct (whole_text (Z.abs q) ltac:(lia)) as (_ & Hds & _ & Hne & _).
  destruct (JsNumber.digits_of_string (JsNumber.string_of_nat_Z (Z.abs q)))
    as [|d ds]; [contradiction|].
  inversion Hds as [|? ? Hd _]; subst.
  destruct (digit_char_facts d Hd) as (_ & Hsp & _).
  now apply Hfirst.
Qed.

(** X26. Leaving the quantity cell with the text it was given, the stored
    quantity as text, calls no update.  An update is called only for the
    record of the cell, with the number read from a text that is not
    blank, and only when that number differs from the stored quantity. *)
Theorem quantity_cell_blur (itemId currentQuantity : Z) (value : string) :
  Z.abs currentQuantity < 10 ^ 21 ->
  let shown := JsNumber.toString (JsNumber.of_Z currentQuantity) in
  QuantityCell.handleBlur itemId currentQuantity shown
  = QuantityCell.setValue shown
  /\ (forall i n,
         QuantityCell.handleBlur itemId currentQuantity value
         = QuantityCell.onUpdate i n ->
         i = itemId /\ n <> currentQuantity
         /\ QuantityCell.parseInt_10 value = Some n
         /\ JsString.trim value <> "")
  /\ (QuantityCell.parseInt_10 value = Some currentQuantity ->
      QuantityCell.handleBlur itemId currentQuantity value
      = QuantityCell.setValue shown).
Proof.
  intros Hlt shown. subst shown. split; [|split].
  - unfold QuantityCell.handleBlur.
    rewrite (whole_text_not_blank currentQuantity Hlt).
    destruct (whole_round_trip currentQuantity 0 ltac:(lia)) as [_ H].
    { rewrite Z.mul_1_r. exact Hlt. }
    unfold JsNumber.of_Z. rewrite H, Z.mul_1_r, Z.eqb_refl. reflexivity.
  - intros i n. unfold QuantityCell.handleBlur.
    destruct (JsString.trim value) eqn:Ht; [discriminate|].
    cbn [JsString.is_empty].
    destruct (QuantityCell.parseInt_10 value) as [newQty|]; [|discriminate].
    destruct (Z.eqb_spec newQty currentQuantity) as [|Hne]; [discriminate|].
    cbn [negb]. intros H. injection H as <- <-.
    repeat split; [exact Hne | discriminate].
  - intros Hsame. unfold QuantityCell.handleBlur. rewrite Hsame, Z.eqb_refl.
    cbn [negb]. now destruct (JsString.is_empty (JsString.trim value)).
Qed.

Lemma quantity_cell_blur_witness :
  QuantityCell.handleBlur 1 50 (JsNumber.toString (JsNumber.of_Z 50))
  = QuantityCell.setValue (JsNumber.toString (JsNumber.of_Z 50))
  /\ (forall i n,
         QuantityCell.handleBlur 1 50 " 51 pcs" = QuantityCell.onUpdate i n ->
         i = 1 /\ n <> 50
         /\ QuantityCell.parseInt_10 " 51 pcs" = Some n
         /\ JsString.trim " 51 pcs" <> "")
  /\ (QuantityCell.parseInt_10 " 51 pcs" = Some 50 ->
      QuantityCell.handleBlur 1 50 " 51 pcs"
      = QuantityCell.setValue (JsNumber.toString (JsNumber.of_Z 50))).
Proof.
  apply (quantity_cell_blur 1 50 " 51 pcs"). vm_compute. reflexivity.
Defined.

(** The text ["050"] is read as the stored 50 and calls no update; the
    text ["-5"] calls an update with a negative quantity; with the radix
    given, ["0x1A"] is read as 0. *)
Example quantity_cell_blur_example :
  QuantityCell.handleBlur 1 50 "050" = QuantityCell.setValue "50"
  /\ QuantityCell.handleBlur 1 50 "-5" = QuantityCell.onUpdate 1 (-5)
  /\ QuantityCell.handleBlur 1 50 "0x1A" = QuantityCell.onUpdate 1 0
  /\ QuantityCell.handleBlur 1 50 "abc" = QuantityCell.setValue "50".
Proof. repeat split; vm_compute; reflexivity. Qed.

(** ** A number as text and back through [parseFloat] *)

Section FloatText.
Import JsString JsNumber.

Lemma strip_zeros_rev_zeros (j : nat) : forall (d : Z) (r : list Z) (n : Z),
  d <> 0 ->
  strip_zeros_rev (repeat 0 j ++ d :: r)%list n = (d :: r, n + Z.of_nat j).
Proof.
  induction j as [|j IH]; intros d r n Hd.
  - cbn [repeat app]. rewrite Z.add_0_r.
    destruct d as [|p|p]; [contradiction | reflexivity | reflexivity].
  - cbn [repeat app strip_zeros_rev]. rewrite IH by exact Hd.
    f_equal. lia.
Qed.

Lemma rev_zeros (j : nat) : rev (repeat 0 j) = repeat 0 j.
Proof.
  induction j as [|j IH]; [reflexivity|].
  cbn [repeat rev]. rewrite IH. clear.
  induction j as [|j IH]; [reflexivity|]. cbn [repeat app]. now rewrite IH.
Qed.

(** Digits that end in a digit other than zero lose exactly the zeros
    written after them. *)
Lemma strip_trailing_zeros_after (pre : list Z) (d : Z) (j : nat) :
  d <> 0 ->
  strip_trailing_zeros ((pre ++ [d]) ++ repeat 0 j)%list
  = ((pre ++ [d])%list, Z.of_nat j).
Proof.
  intros Hd. unfold strip_trailing_zeros.
  rewrite rev_app_distr, rev_zeros, rev_app_distr. cbn [rev app].
  rewrite strip_zeros_rev_zeros by exact Hd.
  cbn [rev]. rewrite rev_involutive. reflexivity.
Qed.

Lemma digits_value_snoc (ds : list Z) (d : Z) :
  digits_value 10 (ds ++ [d]) = 10 * digits_value 10 ds + d.
Proof. unfold digits_value. now rewrite fold_left_app. Qed.

Lemma digits_value_leading_zeros (j : nat) (ds : list Z) :
  digits_value 10 (repeat 0 j ++ ds) = digits_value 10 ds.
Proof.
  unfold digits_value. rewrite fold_left_app. f_equal.
  induction j as [|j IH]; [reflexivity|]. cbn [repeat fold_left]. exact IH.
Qed.

(** The canonical decimal of digits with zeros before and after them. *)
Lemma mkDec_padded (neg : bool) (lead : nat) (pre : list Z) (d : Z) (j : nat)
  (e : Z) :
  d <> 0 -> digits_value 10 (pre ++ [d]) <> 0 ->
  mkDec neg ((repeat 0 lead ++ pre ++ [d]) ++ repeat 0 j)%list e
  = Dec (signed neg (digits_value 10 (pre ++ [d]))) (e + Z.of_nat j).
Proof.
  intros Hd Hv. unfold mkDec.
  rewrite (app_assoc (repeat 0 lead) pre [d]).
  rewrite strip_trailing_zeros_after by exact Hd.
  rewrite <- app_assoc, digits_value_leading_zeros.
  destruct (Z.eqb_spec (digits_value 10 (pre ++ [d])) 0); [contradiction|].
  reflexivity.
Qed.

(** Digits are read up to the first character that is no digit. *)
Lemma span_digits_then (ds : list Z) (rest : string) :
  Forall (fun k => 0 <= k <= 9) ds ->
  match rest with
  | EmptyString => True
  | String c _ => digit_val c = None
  end ->
  span_digits digit_val (string_of_digits ds ++ rest) = (ds, rest).
Proof.
  intros Hds Hrest. induction Hds as [|d ds Hd _ IH].
  - cbn [string_of_digits append].
    destruct rest as [|c r]; [reflexivity|]. cbn [span_digits].
    now rewrite Hrest.
  - cbn [string_of_digits append span_digits].
    destruct (digit_char_facts d Hd) as (-> & _). now rewrite IH.
Qed.

Lemma take_digits (n : nat) : forall ds : list Z,
  take n (string_of_digits ds) = string_of_digits (firstn n ds).
Proof.
  induction n as [|n IH]; intros [|d ds]; try reflexivity.
  cbn [string_of_digits take firstn]. now rewrite IH.
Qed.

Lemma drop_digits (n : nat) : forall ds : list Z,
  drop n (string_of_digits ds) = string_of_digits (skipn n ds).
Proof.
  induction n as [|n IH]; intros [|d ds]; try reflexivity.
  cbn [string_of_digits drop skipn]. now rewrite IH.
Qed.

Lemma append_assoc (a b c : string) : (a ++ b) ++ c = a ++ (b ++ c).
Proof. induction a as [|x a IH]; simpl; [reflexivity | now rewrite IH]. Qed.

(** The text after the integer part: a point and digits, if there are
    any. *)
Let fraction (fp : list Z) : string :=
  match fp with
  | [] => ""
  | _ => "." ++ string_of_digits fp
  end.

(** Reading an integer part, a fraction and what follows, which is
    nothing or an exponent. *)
Lemma read_unsigned_parts (neg : bool) (ip fp : list Z) (tail : string) :
  ip <> [] ->
  Forall (fun k => 0 <= k <= 9) ip -> Forall (fun k => 0 <= k <= 9) fp ->
  (tail = "" \/ exists r, tail = String "e" r) ->
  read_unsigned_decimal neg (string_of_digits ip ++ fraction fp ++ tail)
  = let '(ex, rest) := read_exponent tail in
    Some (mkDec neg (ip ++ fp)%list (ex - Z.of_nat (List.length fp)), rest).
Proof.
  intros Hne Hip Hfp Htail.
  assert (Htail' : match tail with
                   | EmptyString => True
                   | String c _ => digit_val c = None
                   end).
  { destruct Htail as [->|(r & ->)]; [exact I | reflexivity]. }
  unfold read_unsigned_decimal.
  rewrite (span_digits_then ip (fraction fp ++ tail) Hip).
  2:{ destruct fp; [exact Htail' | reflexivity]. }
  destruct fp as [|f fp].
  - cbn [fraction append].
    assert (Hs : match tail with
                 | String "." r =>
                     let '(fp, r') := span_digits digit_val r in
                     match ip, fp with
                     | [], [] => ([], tail)
                     | _, _ => (fp, r')
                     end
                 | _ => ([], tail)
                 end = (@nil Z, tail)).
    { destruct Htail as [->|(r & ->)]; reflexivity. }
    rewrite Hs. destruct ip; [contradiction|].
    destruct (read_exponent tail). now rewrite !app_nil_r.
  - unfold fraction. rewrite append_assoc.
    change ("." ++ string_of_digits (f :: fp) ++ tail)
      with (String "." (string_of_digits (f :: fp) ++ tail)).
    cbv iota. rewrite (span_digits_then (f :: fp) tail Hfp Htail').
    destruct ip; [contradiction|].
    destruct (read_exponent tail). reflexivity.
Qed.

(** A text that begins with a digit, after an optional minus sign, is
    read as an unsigned decimal with that sign. *)
Lemma read_signed_digits (neg : bool) (d : Z) (r : string) :
  0 <= d <= 9 ->
  read_decimal_literal
    (trimStart ((if neg then "-" else "") ++ String (digit_char d) r))
  = read_unsigned_decimal neg (String (digit_char d) r).
Proof.
  intros Hd. destruct (digit_char_facts d Hd) as (_ & Hsp & Hsign & _).
  assert (HI : strip_prefix "Infinity" (String (digit_char d) r) = None).
  { apply digit_cases in Hd.
    repeat (destruct Hd as [->|Hd]); [..|subst d]; reflexivity. }
  unfold read_decimal_literal. destruct neg.
  - change (trimStart ("-" ++ String (digit_char d) r))
      with ("-" ++ String (digit_char d) r).
    change (read_sign ("-" ++ String (digit_char d) r))
      with (true, String (digit_char d) r).
    cbv iota. now rewrite HI.
  - cbn [append trimStart]. rewrite Hsp, Hsign. cbv iota. now rewrite HI.
Qed.

(** The exponent part of a text: [e], a sign, and the digits of a
    positive number. *)
Lemma read_exponent_text (minus : bool) (a : Z) :
  0 < a ->
  read_exponent ("e" ++ (if minus then "-" else "+") ++ string_of_nat_Z a)
  = (signed minus a, "").
Proof.
  intros Ha. destruct (whole_text a Ha) as (Htext & Hds & Hval & Hne & _).
  rewrite <- Htext.
  set (ds := digits_of_string (string_of_nat_Z a)) in *.
  change ("e" ++ (if minus then "-" else "+") ++ string_of_digits ds)
    with (String "e" ((if minus then "-" else "+") ++ string_of_digits ds)).
  unfold read_exponent.
  change (Ascii.eqb "e" "e" || Ascii.eqb "e" "E")%bool with true. cbv iota.
  assert (Hsign : read_sign ((if minus then "-" else "+")
                             ++ string_of_digits ds)
                  = (minus, string_of_digits ds)).
  { destruct minus; reflexivity. }
  rewrite Hsign, (span_digits_text ds Hds), Hval.
  destruct ds; [contradiction | reflexivity].
Qed.

Lemma append_empty_r (s : string) : s ++ "" = s.
Proof. induction s as [|c s IH]; simpl; [reflexivity | now rewrite IH]. Qed.

Lemma fraction_digits (fp : list Z) :
  fp <> [] -> fraction fp = "." ++ string_of_digits fp.
Proof. destruct fp; [contradiction | reflexivity]. Qed.

(** Reading a signed text of an integer part, a fraction and an optional
    exponent whose digits, without the zeros before and after them, are
    [pre ++ [d]]. *)
Lemma parseFloat_parts (neg : bool) (ip fp : list Z) (tail : string)
  (lead : nat) (pre : list Z) (d : Z) (j : nat) (ex : Z) :
  ip <> [] ->
  Forall (fun k => 0 <= k <= 9) ip -> Forall (fun k => 0 <= k <= 9) fp ->
  (ip ++ fp = (repeat 0 lead ++ pre ++ [d]) ++ repeat 0 j)%list ->
  d <> 0 -> digits_value 10 (pre ++ [d]) <> 0 ->
  (tail = "" \/ exists r, tail = String "e" r) ->
  read_exponent tail = (ex, "") ->
  parseFloat ((if neg then "-" else "")
              ++ string_of_digits ip ++ fraction fp ++ tail)
  = Dec (signed neg (digits_value 10 (pre ++ [d])))
        (ex - Z.of_nat (List.length fp) + Z.of_nat j).
Proof.
  intros Hne Hip Hfp Hsplit Hd Hv Htail Hex. unfold parseFloat.
  pose proof (read_unsigned_parts neg ip fp tail Hne Hip Hfp Htail) as Hread.
  rewrite Hex in Hread.
  destruct ip as [|d1 ip']; [contradiction|].
  inversion Hip as [|? ? Hd1 _]; subst.
  change (string_of_digits (d1 :: ip') ++ fraction fp ++ tail)
    with (String (digit_char d1)
                 (string_of_digits ip' ++ fraction fp ++ tail)) in *.
  rewrite (read_signed_digits neg d1 _ Hd1), Hread, Hsplit.
  now apply mkDec_padded.
Qed.

(** Digits that are not all zero end in a digit other than zero followed
    by zeros. *)
Lemma significant_digits (l : list Z) :
  digits_value 10 l <> 0 ->
  exists pre d j, l = ((pre ++ [d]) ++ repeat 0 j)%list /\ d <> 0.
Proof.
  induction l as [|x l IH] using rev_ind; intros Hv.
  - now contradiction Hv.
  - destruct (Z.eq_dec x 0) as [->|Hx].
    + rewrite digits_value_snoc, Z.add_0_r in Hv.
      destruct IH as (pre & d & j & -> & Hd); [lia|].
      exists pre, d, (S j). split; [|exact Hd].
      rewrite <- app_assoc. f_equal.
      clear. induction j as [|j IH]; [reflexivity|].
      cbn [repeat app]. rewrite IH. reflexivity.
    + exists l, x, 0%nat. split; [now rewrite app_nil_r | exact Hx].
Qed.

(** The four shapes of the text of a number with the digits [pre ++ [d]]
    and the point after [n] of them, read back. *)
Lemma float_text (neg : bool) (pre : list Z) (d : Z) (n : Z) :
  Forall (fun k => 0 <= k <= 9) (pre ++ [d]) ->
  d <> 0 -> digits_value 10 (pre ++ [d]) <> 0 ->
  parseFloat
    ((if neg then "-" else "")
     ++ (if (Z.of_nat (List.length (pre ++ [d])) <=? n) && (n <=? 21) then
           string_of_digits (pre ++ [d])
           ++ repeat_char "0"
                (Z.to_nat (n - Z.of_nat (List.length (pre ++ [d]))))
         else if (0 <? n) && (n <=? 21) then
           take (Z.to_nat n) (string_of_digits (pre ++ [d]))
           ++ "." ++ drop (Z.to_nat n) (string_of_digits (pre ++ [d]))
         else if (-6 <? n) && (n <=? 0) then
           "0." ++ repeat_char "0" (Z.to_nat (- n))
           ++ string_of_digits (pre ++ [d])
         else
           (if Z.of_nat (List.length (pre ++ [d])) =? 1
            then string_of_digits (pre ++ [d])
            else take 1 (string_of_digits (pre ++ [d]))
                 ++ "." ++ drop 1 (string_of_digits (pre ++ [d])))
           ++ "e" ++ (if n - 1 <? 0 then "-" else "+")
           ++ string_of_nat_Z (Z.abs (n - 1))))
  = Dec (signed neg (digits_value 10 (pre ++ [d])))
        (n - Z.of_nat (List.length (pre ++ [d]))).
Proof.
  intros Hds Hd Hv0.
  assert (Hne : (pre ++ [d])%list <> []) by now destruct pre.
  remember (pre ++ [d])%list as all eqn:Hshape.
  assert (Hv : digits_value 10 (pre ++ [d]) <> 0) by now rewrite <- Hshape.
  set (L := Z.of_nat (List.length all)).
  assert (HL : 1 <= L).
  { unfold L. destruct all; [contradiction | cbn [List.length]; lia]. }
  destruct ((L <=? n) && (n <=? 21)) eqn:HA.
  - (* digits and zeros *)
    apply andb_prop in HA. destruct HA as [H1 H2].
    apply Z.leb_le in H1. apply Z.leb_le in H2.
    rewrite <- string_of_zeros, <- string_of_digits_app.
    rewrite <- (append_empty_r (string_of_digits _)).
    change (string_of_digits (all ++ repeat 0 (Z.to_nat (n - L))) ++ "")
      with (string_of_digits (all ++ repeat 0 (Z.to_nat (n - L)))
            ++ fraction [] ++ "").
    rewrite (parseFloat_parts neg _ [] "" 0 pre d (Z.to_nat (n - L)) 0);
      try assumption.
    + rewrite <- Hshape. f_equal. cbn [List.length]. lia.
    + destruct all; [contradiction | discriminate].
    + apply Forall_app. split; [exact Hds|]. apply Forall_forall.
      intros k Hk. apply repeat_spec in Hk. lia.
    + constructor.
    + rewrite <- Hshape. now rewrite app_nil_r.
    + now left.
    + reflexivity.
  - destruct ((0 <? n) && (n <=? 21)) eqn:HB.
    + (* digits, a point, digits *)
      apply andb_prop in HB. destruct HB as [H1 H2].
      apply Z.ltb_lt in H1. apply Z.leb_le in H2.
      assert (Hk : n < L).
      { apply andb_false_iff in HA. destruct HA as [HA|HA].
        - apply Z.leb_gt in HA. exact HA.
        - apply Z.leb_gt in HA. lia. }
      rewrite take_digits, drop_digits.
      assert (Hfp : skipn (Z.to_nat n) all <> []).
      { intros Hnil. apply (f_equal (@List.length Z)) in Hnil.
        rewrite length_skipn in Hnil. cbn [List.length] in Hnil.
        unfold L in *. lia. }
      rewrite <- (fraction_digits _ Hfp).
      rewrite <- (append_empty_r (fraction _)).
      rewrite (parseFloat_parts neg _ _ "" 0 pre d 0 0); try assumption.
      * rewrite <- Hshape. f_equal. rewrite length_skipn. unfold L in *. lia.
      * intros Hnil. apply (f_equal (@List.length Z)) in Hnil.
        rewrite length_firstn in Hnil. cbn [List.length] in Hnil.
        unfold L in *. lia.
      * rewrite <- (firstn_skipn (Z.to_nat n) all) in Hds.
        now apply Forall_app in Hds.
      * rewrite <- (firstn_skipn (Z.to_nat n) all) in Hds.
        now apply Forall_app in Hds.
      * rewrite firstn_skipn, <- Hshape. cbn [repeat app].
        now rewrite ?app_nil_r.
      * now left.
      * reflexivity.
    + destruct ((-6 <? n) && (n <=? 0)) eqn:HC.
      * (* zero, a point, zeros, digits *)
        apply andb_prop in HC. destruct HC as [H1 H2].
        apply Z.ltb_lt in H1. apply Z.leb_le in H2.
        set (z := Z.to_nat (- n)).
        rewrite <- string_of_zeros, <- string_of_digits_app.
        change ("0." ++ string_of_digits (repeat 0 z ++ all))
          with (string_of_digits [0]
                ++ "." ++ string_of_digits (repeat 0 z ++ all)).
        assert (Hfp : (repeat 0 z ++ all)%list <> []).
        { destruct all; [contradiction|]. now destruct (repeat 0 z). }
        rewrite <- (fraction_digits _ Hfp).
        rewrite <- (append_empty_r (fraction _)).
        rewrite (parseFloat_parts neg [0] _ "" (S z) pre d 0 0);
          try assumption.
        -- rewrite <- Hshape. f_equal. rewrite length_app, repeat_length.
           unfold L, z in *. lia.
        -- discriminate.
        -- constructor; [lia | constructor].
        -- apply Forall_app. split; [|exact Hds]. apply Forall_forall.
           intros k Hk. apply repeat_spec in Hk. lia.
        -- rewrite <- Hshape. cbn [repeat app]. now rewrite ?app_nil_r.
        -- now left.
        -- reflexivity.
      * (* exponent notation *)
        assert (Hn : n <= -6 \/ 21 < n).
        { apply andb_false_iff in HB. apply andb_false_iff in HC.
          destruct HB as [HB|HB], HC as [HC|HC];
            try apply Z.ltb_ge in HB; try apply Z.leb_gt in HB;
            try apply Z.ltb_ge in HC; try apply Z.leb_gt in HC; lia. }
        assert (Hex : read_exponent
                        ("e" ++ (if n - 1 <? 0 then "-" else "+")
                         ++ string_of_nat_Z (Z.abs (n - 1)))
                      = (n - 1, "")).
        { rewrite read_exponent_text by lia. f_equal. unfold signed.
          destruct (Z.ltb_spec (n - 1) 0); lia. }
        subst L. destruct all as [|d1 tl]; [contradiction|].
        destruct tl as [|d2 tl].
        -- (* one digit *)
           change (Z.of_nat (List.length [d1]) =? 1) with true. cbv iota.
           rewrite <- (append_empty_r (string_of_digits [d1])) at 1.
           rewrite append_assoc.
           match goal with
           | |- context [string_of_digits [d1] ++ "" ++ ?t] =>
               change (string_of_digits [d1] ++ "" ++ t)
                 with (string_of_digits [d1] ++ fraction [] ++ t)
           end.
           rewrite (parseFloat_parts neg [d1] [] _ 0 pre d 0 (n - 1));
             try assumption.
           ++ rewrite <- Hshape. f_equal. cbn [List.length]. lia.
           ++ constructor.
           ++ rewrite <- Hshape. cbn [repeat app]. now rewrite ?app_nil_r.
           ++ right. eexists. reflexivity.
        -- (* a digit, a point, digits *)
           assert (Hk : (Z.of_nat (List.length (d1 :: d2 :: tl)) =? 1) = false).
           { apply Z.eqb_neq. cbn [List.length]. lia. }
           rewrite Hk.
           change (take 1 (string_of_digits (d1 :: d2 :: tl)))
             with (string_of_digits [d1]).
           change (drop 1 (string_of_digits (d1 :: d2 :: tl)))
             with (string_of_digits (d2 :: tl)).
           change ("." ++ string_of_digits (d2 :: tl))
             with (fraction (d2 :: tl)).
           rewrite !append_assoc.
           inversion Hds as [|? ? Hd1 Htl]; subst.
           rewrite (parseFloat_parts neg [d1] (d2 :: tl) _ 0 pre d 0 (n - 1));
             try assumption.
           ++ rewrite <- Hshape. f_equal. cbn [List.length]. lia.
           ++ discriminate.
           ++ constructor; [exact Hd1 | constructor].
           ++ rewrite <- Hshape. cbn [repeat app]. now rewrite ?app_nil_r.
           ++ right. eexists. reflexivity.
Qed.

(** Text and back: a number that is not zero is read back from its text by
    [parseFloat] as the same value, written without zeros at the end of
    its digits. *)
Lemma float_round_trip (m e : Z) :
  m <> 0 ->
  exists m' j,
    m = m' * 10 ^ Z.of_nat j
    /\ parseFloat (toString (Dec m e)) = Dec m' (e + Z.of_nat j).
Proof.
  intros Hm.
  destruct (whole_text (Z.abs m) ltac:(lia)) as (_ & Hds & Hval & _ & _).
  destruct (significant_digits
              (digits_of_string (string_of_nat_Z (Z.abs m))) ltac:(lia))
    as (pre & d & j & Hall & Hd).
  exists (signed (m <? 0) (digits_value 10 (pre ++ [d]))), j.
  rewrite Hall, digits_value_snoc_zeros in Hval.
  split.
  { unfold signed. destruct (Z.ltb_spec m 0); lia. }
  unfold toString. destruct (Z.eqb_spec m 0) as [|_]; [contradiction|].
  rewrite Hall, (strip_trailing_zeros_after pre d j Hd).
  rewrite Hall in Hds. apply Forall_app in Hds. destruct Hds as [Hds _].
  assert (Hv : digits_value 10 (pre ++ [d]) <> 0).
  { intros H0. rewrite H0 in Hval. lia. }
  pose proof (float_text (m <? 0) pre d
                (e + Z.of_nat (List.length ((pre ++ [d]) ++ repeat 0 j)))
                Hds Hd Hv) as Htext.
  replace (e + Z.of_nat (List.length ((pre ++ [d]) ++ repeat 0 j))
           - Z.of_nat (List.length (pre ++ [d])))
    with (e + Z.of_nat j) in Htext at 2
    by (rewrite (length_app (pre ++ [d])), repeat_length; lia).
  rewrite <- Htext. f_equal. now destruct (m <? 0).
Qed.

End FloatText.

(** ** A numeric price cell of the sheet *)

Lemma float_cell (x : number) :
  (x = NaN -> JsNumber.or_zero (JsNumber.parseFloat (JsNumber.toString x))
              = Dec 0 0)
  /\ (x <> NaN ->
      JsCompare.num_eq
        (JsNumber.or_zero (JsNumber.parseFloat (JsNumber.toString x))) x
      = true)
  /\ (forall m e, x = Dec m e -> m mod 10 <> 0 ->
                  JsNumber.or_zero (JsNumber.parseFloat (JsNumber.toString x))
                  = x).
Proof.
  split; [intros ->; reflexivity|]. split.
  - intros Hx. destruct x as [|neg|m e]; [contradiction| |].
    + now destruct neg.
    + destruct (Z.eq_dec m 0) as [->|Hm].
      * change (JsNumber.or_zero
                  (JsNumber.parseFloat (JsNumber.toString (Dec 0 e))))
          with (Dec 0 0).
        unfold JsCompare.num_eq. rewrite !Z.mul_0_l. reflexivity.
      * destruct (float_round_trip m e Hm) as (m' & j & Hmj & ->).
        assert (Hm' : m' <> 0) by (intros ->; lia).
        unfold JsNumber.or_zero, JsNumber.truthy.
        destruct (Z.eqb_spec m' 0) as [|_]; [contradiction|]. cbn [negb].
        unfold JsCompare.num_eq, JsNumber.pow10.
        rewrite Z.min_r by lia.
        replace (e + Z.of_nat j - e) with (Z.of_nat j) by lia.
        rewrite Z.sub_diag. apply Z.eqb_eq. rewrite Hmj. cbn [Z.pow]. lia.
  - intros m e -> Hmod.
    assert (Hm : m <> 0) by (intros ->; now apply Hmod).
    destruct (float_round_trip m e Hm) as (m' & j & Hmj & ->).
    assert (Hj : j = 0%nat).
    { destruct j as [|j]; [reflexivity|]. exfalso. apply Hmod.
      rewrite Hmj, Nat2Z.inj_succ, Z.pow_succ_r by lia.
      rewrite (Z.mul_comm 10), Z.mul_assoc. apply Z.mod_mul. lia. }
    subst j. cbn [Z.of_nat Z.pow] in Hmj. rewrite Z.mul_1_r in Hmj. subst m'.
    rewrite Z.add_0_r. unfold JsNumber.or_zero, JsNumber.truthy.
    destruct (Z.eqb_spec m 0) as [|_]; [contradiction | reflexivity].
Qed.

(** X27. A price cell of the sheet that holds a number keeps its value:
    the coerced price is numerically equal to the number of the cell, and
    it is that number itself when the cell is written without zeros at the
    end of its digits; a cell that holds [NaN] gives the price 0. *)
Theorem numeric_price_cell (row : ExcelRow) (x : number) :
  Parsed.sellingPriceRaw row = Some (CNum x) ->
  (x = NaN -> Parsed.sellingPrice row = Dec 0 0)
  /\ (x <> NaN -> JsCompare.num_eq (Parsed.sellingPrice row) x = true)
  /\ (forall m e, x = Dec m e -> m mod 10 <> 0 -> Parsed.sellingPrice row = x).
Proof.
  intros Hraw. unfold Parsed.sellingPrice. rewrite Hraw.
  cbn [JsValue.String_]. apply float_cell.
Qed.

Lemma numeric_price_cell_witness :
  (Dec 5 0 = NaN -> Parsed.sellingPrice Sample.qty_twelve = Dec 0 0)
  /\ (Dec 5 0 <> NaN ->
      JsCompare.num_eq (Parsed.sellingPrice Sample.qty_twelve) (Dec 5 0)
      = true)
  /\ (forall m e, Dec 5 0 = Dec m e -> m mod 10 <> 0 ->
                  Parsed.sellingPrice Sample.qty_twelve = Dec 5 0).
Proof.
  apply (numeric_price_cell Sample.qty_twelve (Dec 5 0)). reflexivity.
Defined.

(** The texts of 1250000, 12.5, 0.00125, 1.25e-7 and 1.25e+22 are read
    back as these numbers. *)
Example numeric_price_cell_shapes :
  JsNumber.toString (Dec 125 4) = "1250000"
  /\ JsNumber.toString (Dec 125 (-1)) = "12.5"
  /\ JsNumber.toString (Dec 125 (-5)) = "0.00125"
  /\ JsNumber.toString (Dec 125 (-9)) = "1.25e-7"
  /\ JsNumber.toString (Dec 125 20) = "1.25e+22"
  /\ JsNumber.parseFloat "1250000" = Dec 125 4
  /\ JsNumber.parseFloat "1.25e-7" = Dec 125 (-9).
Proof. repeat split; vm_compute; reflexivity. Qed.

(** ** An exported sheet read by the import *)

(** X28. Every column that the export writes is one that the import
    resolves to the field it was written from: read as a row of the
    import, the export of a record gives back its name, price, quantity,
    unit, shown expiry and status cells.  The row is counted exactly when
    the name is not empty, its quantity is read as the quantity of the
    record when that is below [10^21] in size, and its price as a number
    equal to the price of the record unless that is [NaN]. *)
Theorem export_read_back {L : Locale} (item : PageItem) :
  let row := ExportSheet.row item in
  Parsed.itemName row = Some (CStr (p_itemName item))
  /\ Parsed.sellingPriceRaw row = Some (CNum (p_sellingPrice item))
  /\ Parsed.currentQuantityRaw row
     = Some (CNum (JsNumber.of_Z (p_currentQuantity item)))
  /\ Parsed.unitType row = Some (CStr (p_unitType item))
  /\ (exists shown, Parsed.expiryDateRaw row = Some (CStr shown)
                    /\ (p_expiryDate item = None -> shown = ""))
  /\ Parsed.statusRaw row = Some (CStr (p_status item))
  /\ JsValue.truthy (Parsed.itemName row)
     = negb (JsString.is_empty (p_itemName item))
  /\ (Z.abs (p_currentQuantity item) < 10 ^ 21 ->
      Parsed.currentQuantity row = p_currentQuantity item)
  /\ (p_sellingPrice item <> NaN ->
      JsCompare.num_eq (Parsed.sellingPrice row) (p_sellingPrice item) = true).
Proof.
  intros row.
  assert (Hname : Parsed.itemName row = Some (CStr (p_itemName item)))
    by reflexivity.
  assert (Hprice : Parsed.sellingPriceRaw row
                   = Some (CNum (p_sellingPrice item))) by reflexivity.
  assert (Hqty : Parsed.currentQuantityRaw row
                 = Some (CNum (JsNumber.of_Z (p_currentQuantity item))))
    by reflexivity.
  split; [exact Hname|]. split; [exact Hprice|]. split; [exact Hqty|].
  split; [reflexivity|]. split.
  { eexists. split; [reflexivity|]. now intros ->. }
  split; [reflexivity|]. split; [now rewrite Hname|]. split.
  - intros Hlt. unfold Parsed.currentQuantity. rewrite Hqty.
    cbn [JsValue.String_]. unfold JsNumber.of_Z.
    destruct (whole_round_trip (p_currentQuantity item) 0 ltac:(lia)) as [-> _].
    + now rewrite Z.mul_1_r.
    + cbn [Z.pow]. now rewrite Z.mul_1_r.
  - intros Hx. unfold Parsed.sellingPrice. rewrite Hprice.
    cbn [JsValue.String_]. now apply float_cell.
Qed.

(** The export of the syrup, read as a row of the import. *)
Example export_read_back_example :
  let row := @ExportSheet.row ExportSheet.iso_dates View.syrup in
  Parsed.itemName row = Some (CStr "Cough syrup")
  /\ Parsed.sellingPrice row = Dec 3 0
  /\ Parsed.currentQuantity row = 7
  /\ Parsed.expiryDateRaw row = Some (CStr "2025-11-30")
  /\ Parsed.status row = "Checked".
Proof. repeat split; vm_compute; reflexivity. Qed.

(** ** The add form and the create endpoint *)

(** X29. A form that passes the check of the add dialog is never answered
    with the 400 of the create endpoint: when the name of the form is a
    text, the body that reaches the endpoint has a truthy name and a price
    and a quantity that are not undefined. *)
Theorem add_form_accepted {F : StoreFaults} {C : Client} {P : Platform}
  (addFormData newItem : Body) (name : string) (w : World) :
  AddForm.handleAddSubmit addFormData = Some newItem ->
  b_itemName addFormData = JStr name ->
  newItem = addFormData
  /\ name <> ""
  /\ forall error,
       fst (ItemsRoute.POST (AddForm.request_body newItem) w)
       <> ItemsRoute.Error 400 error.
Proof.
  unfold AddForm.handleAddSubmit. intros Hsubmit Hname.
  destruct (negb (Json.truthy (b_itemName addFormData))
            || negb (Json.truthy (b_sellingPrice addFormData))
            || negb (Json.truthy (b_currentQuantity addFormData))) eqn:Hcheck;
    [discriminate|].
  injection Hsubmit as <-.
  apply orb_false_elim in Hcheck. destruct Hcheck as [Hcheck Hq].
  apply orb_false_elim in Hcheck. destruct Hcheck as [Hn Hp].
  apply negb_false_iff in Hn, Hp, Hq.
  split; [reflexivity|]. split.
  { intros ->. rewrite Hname in Hn. discriminate. }
  intros error. unfold ItemsRoute.POST, AddForm.request_body.
  cbn [b_itemName b_sellingPrice b_currentQuantity].
  assert (H1 : Json.truthy (AddForm.over_the_wire (b_itemName addFormData))
               = true).
  { rewrite Hname in *. exact Hn. }
  assert (H2 : ItemsRoute.is_undefined
                 (AddForm.over_the_wire (b_sellingPrice addFormData)) = false).
  { destruct (b_sellingPrice addFormData) as [| |b|[|neg|m e]|s];
      try reflexivity; discriminate. }
  assert (H3 : ItemsRoute.is_undefined
                 (AddForm.over_the_wire (b_currentQuantity addFormData))
               = false).
  { destruct (b_currentQuantity addFormData) as [| |b|[|neg|m e]|s];
      try reflexivity; discriminate. }
  rewrite H1, H2, H3. cbn [negb orb].
  destruct (ItemsRoute.create_data _) as [|data|data];
    [simpl; discriminate | | simpl; discriminate].
  unfold create, await.
  destruct (fault (calls w) (store w) (Create data)); simpl; discriminate.
Qed.

Lemma add_form_accepted_witness :
  Stock.body_nut = Stock.body_nut
  /\ "Nut" <> ""
  /\ forall error,
       fst (@ItemsRoute.POST no_faults strict IsoHost.host
              (AddForm.request_body Stock.body_nut) Stock.start)
       <> ItemsRoute.Error 400 error.
Proof.
  apply (@add_form_accepted no_faults strict IsoHost.host Stock.body_nut
           Stock.body_nut "Nut" Stock.start); reflexivity.
Defined.
